(** * MPU6050 driver ([src/src/Gyro.py]): shallow embedding and properties

    The driver is a MicroPython class.  Its methods are embedded as
    computations in a state-and-exception monad over the driver object and
    the outside world (the I2C bus and the millisecond clock).  Python
    floats are IEEE 754 binary floats with round-to-nearest-even; they are
    modelled with the executable specification [SpecFloat] of the standard
    library, for both widths MicroPython is built with (binary32 on the
    ESP32 port, binary64 elsewhere and in CPython). *)

From Stdlib Require Import ZArith Lia Bool List.
From Stdlib Require Import SpecFloat.
From Stdlib.Strings Require Import Byte.
From stdpp Require Import base option gmap strings.

#[local] Set Warnings "-clear-no-such-hyp".
Local Open Scope Z_scope.

(** ** Python floats *)

Inductive float_format : Type := Binary32 | Binary64.

Definition fmt_prec (fmt : float_format) : Z :=
  match fmt with Binary32 => 24 | Binary64 => 53 end.

Definition fmt_emax (fmt : float_format) : Z :=
  match fmt with Binary32 => 128 | Binary64 => 1024 end.

Abbreviation float := spec_float.

(** Exceptions the driver can raise or let through. *)
Inductive exn : Type :=
  | OSError            (* a failed bus transfer *)
  | ZeroDivisionError  (* [/] with a zero divisor *)
  | KeyError (key : string)
  | ValueError         (* [set_gyro_offset]; also [int(nan)] *)
  | OverflowError.     (* [int(inf)] *)

Definition float_is_zero (x : float) : bool :=
  match x with S754_zero _ => true | _ => false end.

Definition float_is_finite (x : float) : bool :=
  match x with S754_zero _ | S754_finite _ _ _ => true | _ => false end.

(** [int(x)]: truncation toward zero; it raises on NaN and on infinities. *)
Definition int_of_float (x : float) : exn + Z :=
  match x with
  | S754_zero _ => inr 0
  | S754_finite s m e => inr (cond_Zopp s (Z.shiftl (Z.pos m) e))
  | S754_nan => inl ValueError
  | S754_infinity _ => inl OverflowError
  end.

(** The floor of a finite float, to compare [int] with. *)
Definition floor_of_float (x : float) : exn + Z :=
  match x with
  | S754_zero _ => inr 0
  | S754_finite s m e => inr (Z.shiftl (cond_Zopp s (Z.pos m)) e)
  | S754_nan => inl ValueError
  | S754_infinity _ => inl OverflowError
  end.

Section PyFloat.
Variable fmt : float_format.

(** Conversion of an [int] operand in mixed arithmetic, and of an integral
    literal such as [131.0]. *)
Definition float_of_int (z : Z) : float :=
  binary_normalize (fmt_prec fmt) (fmt_emax fmt) z 0 false.

Definition float_add (x y : float) : float := SFadd (fmt_prec fmt) (fmt_emax fmt) x y.
Definition float_sub (x y : float) : float := SFsub (fmt_prec fmt) (fmt_emax fmt) x y.
Definition float_mul (x y : float) : float := SFmul (fmt_prec fmt) (fmt_emax fmt) x y.

Definition float_div (x y : float) : float := SFdiv (fmt_prec fmt) (fmt_emax fmt) x y.

(** [x / y]: Python raises [ZeroDivisionError] on a zero divisor of either
    sign, and otherwise divides as IEEE 754 does. *)
Definition float_truediv (x y : float) : exn + float :=
  if float_is_zero y then inl ZeroDivisionError else inr (float_div x y).

(** The decimal literal [36.53], the float nearest to 3653/100. *)
Definition float_36_53 : float := float_div (float_of_int 3653) (float_of_int 100).
End PyFloat.

(** [x == y] on floats (so [0.0 == -0.0], and NaN equals nothing). *)
Definition float_eqb (x y : float) : bool := SFeqb x y.

(** ** The outside world *)

(** The bus and the clock are oracles indexed by the number of earlier
    transfers, respectively clock queries: the sensor's registers change on
    their own, and time passes between any two reads of the clock. *)
Record Env : Type := {
  (** [i2c.writeto_mem(addr, reg, buf)]: did the n-th transfer succeed? *)
  i2c_writeto_mem : nat → Z → Z → list Byte.byte → bool;
  (** [i2c.readfrom_mem(addr, reg, 1)[0]]: the byte read by the n-th
      transfer, or [None] when the transfer fails. *)
  i2c_readfrom_mem : nat → Z → Z → option Byte.byte;
  (** [time.ticks_ms()] at the n-th query. *)
  time_ticks_ms : nat → Z }.

Record World : Type := { bus_ops : nat; clock_ops : nat }.

(** [time.ticks_diff(end, start)] of MicroPython: the signed difference of
    two tick values modulo the tick period [2^30]. *)
Definition TICKS_PERIOD : Z := 2 ^ 30.

Definition time_ticks_diff (t_end t_start : Z) : Z :=
  (t_end - t_start + TICKS_PERIOD / 2) mod TICKS_PERIOD - TICKS_PERIOD / 2.

(** ** The driver object *)

Inductive axis : Type := AxisX | AxisY | AxisZ.

Definition axis_key (a : axis) : string :=
  match a with AxisX => "x" | AxisY => "y" | AxisZ => "z" end.

(** The dicts [theta], [_theta_f] and the results of [get_accel] and
    [get_omega] are built by the driver from three-key literals and only
    ever read and written at those keys. *)
Record vec3 (A : Type) : Type := Vec3 { vx : A; vy : A; vz : A }.
Arguments Vec3 {A} _ _ _.
Arguments vx {A} _.
Arguments vy {A} _.
Arguments vz {A} _.

Definition vec3_get {A} (a : axis) (v : vec3 A) : A :=
  match a with AxisX => vx v | AxisY => vy v | AxisZ => vz v end.

Definition vec3_set {A} (a : axis) (x : A) (v : vec3 A) : vec3 A :=
  match a with
  | AxisX => Vec3 x (vy v) (vz v)
  | AxisY => Vec3 (vx v) x (vz v)
  | AxisZ => Vec3 (vx v) (vy v) x
  end.

(** [omega_offset] is kept as a dict: [set_gyro_offset] stores whatever
    mapping the caller hands in. *)
Record MPU6050 : Type := {
  addr : Z;
  omega_offset_sensetivity_factor : float;
  accel_offset_sensetivity_factor : float;
  theta : vec3 Z;
  _theta_f : vec3 float;
  last_update : Z;
  omega_offset : gmap string float }.

Definition _PWR_MGMT_1 : Z := 0x6B.
Definition _TEMP_OUT_H : Z := 0x41.
Definition _ACCEL_XOUT_H : Z := 0x3B.
Definition _ACCEL_YOUT_H : Z := 0x3D.
Definition _ACCEL_ZOUT_H : Z := 0x3F.
Definition _GYRO_XOUT_H : Z := 0x43.
Definition _GYRO_YOUT_H : Z := 0x45.
Definition _GYRO_ZOUT_H : Z := 0x47.

(** ** The monad of driver methods *)

Record State : Type := { self : MPU6050; world : World }.

(** A method either returns or raises; either way it leaves a state. *)
Inductive outcome (A : Type) : Type :=
  | Return (a : A) (st : State)
  | Raise (e : exn) (st : State).
Arguments Return {A} _ _.
Arguments Raise {A} _ _.

Definition M (A : Type) : Type := State → outcome A.

#[global] Instance M_ret : MRet M := λ A a st, Return a st.
#[global] Instance M_bind : MBind M := λ A B f m st,
  match m st with
  | Return a st' => f a st'
  | Raise e st' => Raise e st'
  end.
#[global] Instance M_throw : MThrow exn M := λ A e st, Raise e st.

Definition lift {A} (r : exn + A) : M A :=
  match r with inl e => mthrow e | inr a => mret a end.

Definition gets {A} (f : MPU6050 → A) : M A := λ st, Return (f (self st)) st.

Definition with_self (f : MPU6050 → MPU6050) (st : State) : State :=
  {| self := f (self st); world := world st |}.

Definition modify (f : MPU6050 → MPU6050) : M unit :=
  λ st, Return tt (with_self f st).

Definition final_state {A} (o : outcome A) : State :=
  match o with Return _ st | Raise _ st => st end.

(** Attribute assignments. *)
Definition set_addr (v : Z) (d : MPU6050) : MPU6050 :=
  {| addr := v;
     omega_offset_sensetivity_factor := omega_offset_sensetivity_factor d;
     accel_offset_sensetivity_factor := accel_offset_sensetivity_factor d;
     theta := theta d; _theta_f := _theta_f d; last_update := last_update d;
     omega_offset := omega_offset d |}.

Definition set_omega_factor (v : float) (d : MPU6050) : MPU6050 :=
  {| addr := addr d;
     omega_offset_sensetivity_factor := v;
     accel_offset_sensetivity_factor := accel_offset_sensetivity_factor d;
     theta := theta d; _theta_f := _theta_f d; last_update := last_update d;
     omega_offset := omega_offset d |}.

Definition set_accel_factor (v : float) (d : MPU6050) : MPU6050 :=
  {| addr := addr d;
     omega_offset_sensetivity_factor := omega_offset_sensetivity_factor d;
     accel_offset_sensetivity_factor := v;
     theta := theta d; _theta_f := _theta_f d; last_update := last_update d;
     omega_offset := omega_offset d |}.

Definition set_theta (v : vec3 Z) (d : MPU6050) : MPU6050 :=
  {| addr := addr d;
     omega_offset_sensetivity_factor := omega_offset_sensetivity_factor d;
     accel_offset_sensetivity_factor := accel_offset_sensetivity_factor d;
     theta := v; _theta_f := _theta_f d; last_update := last_update d;
     omega_offset := omega_offset d |}.

Definition set_theta_f (v : vec3 float) (d : MPU6050) : MPU6050 :=
  {| addr := addr d;
     omega_offset_sensetivity_factor := omega_offset_sensetivity_factor d;
     accel_offset_sensetivity_factor := accel_offset_sensetivity_factor d;
     theta := theta d; _theta_f := v; last_update := last_update d;
     omega_offset := omega_offset d |}.

Definition set_last_update (v : Z) (d : MPU6050) : MPU6050 :=
  {| addr := addr d;
     omega_offset_sensetivity_factor := omega_offset_sensetivity_factor d;
     accel_offset_sensetivity_factor := accel_offset_sensetivity_factor d;
     theta := theta d; _theta_f := _theta_f d; last_update := v;
     omega_offset := omega_offset d |}.

Definition set_omega_offset (v : gmap string float) (d : MPU6050) : MPU6050 :=
  {| addr := addr d;
     omega_offset_sensetivity_factor := omega_offset_sensetivity_factor d;
     accel_offset_sensetivity_factor := accel_offset_sensetivity_factor d;
     theta := theta d; _theta_f := _theta_f d; last_update := last_update d;
     omega_offset := v |}.

Definition byte_to_Z (b : Byte.byte) : Z := Z.of_N (Byte.to_N b).

(** One more bus transfer, one more clock query. *)
Definition tick_bus (st : State) : State :=
  {| self := self st;
     world := {| bus_ops := S (bus_ops (world st)); clock_ops := clock_ops (world st) |} |}.

Definition tick_clock (st : State) : State :=
  {| self := self st;
     world := {| bus_ops := bus_ops (world st); clock_ops := S (clock_ops (world st)) |} |}.

Section Driver.
Variable fmt : float_format.
Variable env : Env.

(** *** Primitives of the bus and of the clock *)

Definition writeto_mem (reg : Z) (buf : list Byte.byte) : M unit := λ st,
  if i2c_writeto_mem env (bus_ops (world st)) (addr (self st)) reg buf
  then Return tt (tick_bus st) else Raise OSError (tick_bus st).

Definition readfrom_mem (reg : Z) : M Z := λ st,
  match i2c_readfrom_mem env (bus_ops (world st)) (addr (self st)) reg with
  | Some b => Return (byte_to_Z b) (tick_bus st)
  | None => Raise OSError (tick_bus st)
  end.

Definition ticks_ms : M Z := λ st,
  Return (time_ticks_ms env (clock_ops (world st))) (tick_clock st).

(** [time.sleep] and [print] leave the driver and both oracles as they
    are (the clock oracle already accounts for the time that passes). *)
Definition sleep : M unit := mret tt.

(** *** Methods *)

Definition _read_raw_data (reg : Z) : M Z :=
  high ← readfrom_mem reg;
  low ← readfrom_mem (reg + 1);
  let value := Z.lor (Z.shiftl high 8) low in
  mret (if 32767 <? value then value - 65536 else value).

(** [self._read_raw_data(reg) / factor], with [factor] an attribute that
    is read after the two bus transfers. *)
Definition read_scaled (reg : Z) (factor : MPU6050 → float) : M float :=
  raw ← _read_raw_data reg;
  f ← gets factor;
  lift (float_truediv fmt (float_of_int fmt raw) f).

Definition get_temp : M float :=
  rawtemp ← _read_raw_data _TEMP_OUT_H;
  q ← lift (float_truediv fmt (float_of_int fmt rawtemp) (float_of_int fmt 340));
  mret (float_add fmt q (float_36_53 fmt)).

Definition get_accel : M (vec3 float) :=
  ax ← read_scaled _ACCEL_XOUT_H accel_offset_sensetivity_factor;
  ay ← read_scaled _ACCEL_YOUT_H accel_offset_sensetivity_factor;
  az ← read_scaled _ACCEL_ZOUT_H accel_offset_sensetivity_factor;
  mret (Vec3 ax ay az).

(** [d[k]] *)
Definition dict_getitem (k : string) (d : gmap string float) : M float :=
  match d !! k with
  | Some v => mret v
  | None => mthrow (KeyError k)
  end.

Definition get_omega : M (vec3 float) :=
  gx ← read_scaled _GYRO_XOUT_H omega_offset_sensetivity_factor;
  gy ← read_scaled _GYRO_YOUT_H omega_offset_sensetivity_factor;
  gz ← read_scaled _GYRO_ZOUT_H omega_offset_sensetivity_factor;
  ox ← (d ← gets omega_offset; dict_getitem "x" d);
  oy ← (d ← gets omega_offset; dict_getitem "y" d);
  oz ← (d ← gets omega_offset; dict_getitem "z" d);
  mret (Vec3 (float_sub fmt gx ox) (float_sub fmt gy oy) (float_sub fmt gz oz)).

(** [d[k] += v] on the local dict of [_calibrate_gyro] *)
Definition dict_iadd (k : string) (v : float) (d : gmap string float)
  : M (gmap string float) :=
  old ← dict_getitem k d;
  mret (<[k := float_add fmt old v]> d).

(** The body of [for _ in range(samples)], run [n] times. *)
Fixpoint calibrate_loop (n : nat) (offset : gmap string float)
  : M (gmap string float) :=
  match n with
  | O => mret offset
  | S n' =>
      gx ← read_scaled _GYRO_XOUT_H omega_offset_sensetivity_factor;
      gy ← read_scaled _GYRO_YOUT_H omega_offset_sensetivity_factor;
      gz ← read_scaled _GYRO_ZOUT_H omega_offset_sensetivity_factor;
      offset ← dict_iadd "x" gx offset;
      offset ← dict_iadd "y" gy offset;
      offset ← dict_iadd "z" gz offset;
      sleep;;
      calibrate_loop n' offset
  end.

(** [{axis: val / samples for axis, val in items}] over the items of a
    dict, one division per item. *)
Fixpoint items_div (items : list (string * float)) (samples : Z)
  : M (list (string * float)) :=
  match items with
  | [] => mret []
  | (k, val) :: rest =>
      q ← lift (float_truediv fmt val (float_of_int fmt samples));
      rest' ← items_div rest samples;
      mret ((k, q) :: rest')
  end.

Definition _calibrate_gyro (samples : Z) : M (gmap string float) :=
  let offset : gmap string float :=
    {[ "x" := float_of_int fmt 0; "y" := float_of_int fmt 0;
       "z" := float_of_int fmt 0 ]} in
  offset ← calibrate_loop (Z.to_nat samples) offset;
  items ← items_div (map_to_list offset) samples;
  mret (list_to_map items).

(** One round of the loop of [update_theta]. *)
Definition update_axis (omega : vec3 float) (dt : float) (a : axis) : M unit :=
  tf ← gets _theta_f;
  modify (set_theta_f
    (vec3_set a (float_add fmt (vec3_get a tf) (float_mul fmt (vec3_get a omega) dt)) tf));;
  tf ← gets _theta_f;
  i ← lift (int_of_float (vec3_get a tf));
  th ← gets theta;
  modify (set_theta (vec3_set a i th)).

Definition update_theta : M unit :=
  now ← ticks_ms;
  last ← gets last_update;
  dt ← lift (float_truediv fmt (float_of_int fmt (time_ticks_diff now last))
                               (float_of_int fmt 1000));
  modify (set_last_update now);;
  omega ← get_omega;
  update_axis omega dt AxisX;;
  update_axis omega dt AxisY;;
  update_axis omega dt AxisZ.

Definition get_theta : M (vec3 Z) :=
  update_theta;;
  gets theta.

Definition reset_theta : M unit :=
  modify (set_theta (Vec3 0 0 0));;
  modify (set_theta_f (Vec3 (S754_zero false) (S754_zero false) (S754_zero false)));;
  now ← ticks_ms;
  modify (set_last_update now).

Definition reset_gyro_offset : M unit :=
  offset ← _calibrate_gyro 200;
  modify (set_omega_offset offset).

(** [axis in offset] *)
Definition dict_contains (k : string) (d : gmap string float) : bool :=
  bool_decide (is_Some (d !! k)).

Definition set_gyro_offset (offset : gmap string float) : M unit :=
  if forallb (λ k, dict_contains k offset) ["x"; "y"; "z"]%string
  then modify (set_omega_offset offset)
  else mthrow ValueError.

Definition set_gyro_sensitivity (factor : float) : M unit :=
  modify (set_omega_factor factor).

Definition set_accel_sensitivity (factor : float) : M unit :=
  modify (set_accel_factor factor).

(** [MPU6050(i2c, addr)]: every attribute is assigned before it is read,
    so the object the constructor starts from does not matter. *)
Definition __init__ (a : Z) : M unit :=
  modify (set_addr a);;
  writeto_mem _PWR_MGMT_1 [Byte.x00];;
  sleep;;
  modify (set_omega_factor (float_of_int fmt 131));;
  modify (set_accel_factor (float_of_int fmt 16384));;
  modify (set_theta (Vec3 0 0 0));;
  modify (set_theta_f (Vec3 (S754_zero false) (S754_zero false) (S754_zero false)));;
  now ← ticks_ms;
  modify (set_last_update now);;
  offset ← _calibrate_gyro 200;
  modify (set_omega_offset offset).

(** The public methods, as a caller can invoke them one after another. *)
Inductive call : Type :=
  | CallGetTemp | CallGetAccel | CallGetOmega
  | CallUpdateTheta | CallGetTheta | CallResetTheta
  | CallResetGyroOffset
  | CallSetGyroOffset (offset : gmap string float)
  | CallSetGyroSensitivity (factor : float)
  | CallSetAccelSensitivity (factor : float).

(** The state a call leaves, whether it returns or raises (a caller may
    catch the exception and go on). *)
Definition run_call (c : call) (st : State) : State :=
  match c with
  | CallGetTemp => final_state (get_temp st)
  | CallGetAccel => final_state (get_accel st)
  | CallGetOmega => final_state (get_omega st)
  | CallUpdateTheta => final_state (update_theta st)
  | CallGetTheta => final_state (get_theta st)
  | CallResetTheta => final_state (reset_theta st)
  | CallResetGyroOffset => final_state (reset_gyro_offset st)
  | CallSetGyroOffset offset => final_state (set_gyro_offset offset st)
  | CallSetGyroSensitivity factor => final_state (set_gyro_sensitivity factor st)
  | CallSetAccelSensitivity factor => final_state (set_accel_sensitivity factor st)
  end.

Definition run_calls (cs : list call) (st : State) : State :=
  fold_left (λ st c, run_call c st) cs st.

End Driver.

(** ** Observations used to state the properties *)

Definition outcome_map {A} (g : State → State) (o : outcome A) : outcome A :=
  match o with
  | Return a st => Return a (g st)
  | Raise e st => Raise e (g st)
  end.

(** The raw gyro triples the bus delivers to [n] successive rounds of
    X, Y, Z reads. *)
Fixpoint read_gyro_samples (env : Env) (n : nat) : M (list (vec3 Z)) :=
  match n with
  | O => mret []
  | S n' =>
      x ← _read_raw_data env _GYRO_XOUT_H;
      y ← _read_raw_data env _GYRO_YOUT_H;
      z ← _read_raw_data env _GYRO_ZOUT_H;
      rest ← read_gyro_samples env n';
      mret (Vec3 x y z :: rest)
  end.

(** The sum of a list of floats accumulated from the left, starting from
    the [0] of [_calibrate_gyro]. *)
Definition float_sum (fmt : float_format) (l : list float) : float :=
  fold_left (float_add fmt) l (float_of_int fmt 0).

(** The stored bias has an entry for every axis. *)
Definition offset_has_axes (d : MPU6050) : Prop :=
  ∀ a, is_Some (omega_offset d !! axis_key a).

(** The integer view is the truncated accumulator, axis by axis. *)
Definition theta_truncated (d : MPU6050) : Prop :=
  ∀ a, int_of_float (vec3_get a (_theta_f d)) = inr (vec3_get a (theta d)).

(** The dict [{x: a, y: b, z: c}]. *)
Definition axes_dict (a b c : float) : gmap string float :=
  {[ "x" := a; "y" := b; "z" := c ]}.

(** The per-axis scaled values of a list of raw triples. *)
Definition scaled (fmt : float_format) (f : float) (g : vec3 Z → Z)
    (samples : list (vec3 Z)) : list float :=
  (λ s, float_div fmt (float_of_int fmt (g s)) f) <$> samples.

(** The x entry of the bias [_calibrate_gyro] returns, if it returns. *)
Definition calibrated_x (fmt : float_format) (env : Env) (N : Z) (st : State)
  : option float :=
  match _calibrate_gyro fmt env N st with
  | Return m _ => m !! "x"
  | Raise _ _ => None
  end.

(** [preserves I m]: a property of the driver object that holds before [m]
    holds after it, whether [m] returns or raises. *)
Definition preserves {A} (I : MPU6050 → Prop) (m : M A) : Prop :=
  ∀ st, I (self st) → I (self (final_state (m st))).

(** The time step of [update_theta], the accumulator after one Euler
    step, and the assignment of both angle dicts. *)
Definition time_step (fmt : float_format) (now last : Z) : float :=
  float_div fmt (float_of_int fmt (time_ticks_diff now last)) (float_of_int fmt 1000).

Definition euler_step (fmt : float_format) (tf omega : vec3 float) (dt : float)
  : vec3 float :=
  Vec3 (float_add fmt (vx tf) (float_mul fmt (vx omega) dt))
       (float_add fmt (vy tf) (float_mul fmt (vy omega) dt))
       (float_add fmt (vz tf) (float_mul fmt (vz omega) dt)).

Definition set_angles (th : vec3 Z) (tf : vec3 float) (d : MPU6050) : MPU6050 :=
  set_theta th (set_theta_f tf d).

(** ** Sample worlds and drivers *)

(** A bus on which every transfer succeeds and every register pair holds
    the big-endian bytes [hi], [lo]; a clock that advances [step] ms per
    query. *)
Definition const_env (hi lo : Byte.byte) (step : Z) : Env :=
  {| i2c_writeto_mem := λ _ _ _ _, true;
     i2c_readfrom_mem := λ _ _ reg, Some (if Z.odd reg then hi else lo);
     time_ticks_ms := λ n, 1000 + step * Z.of_nat n |}.

Definition sample_driver (fmt : float_format) : MPU6050 :=
  {| addr := 0x68;
     omega_offset_sensetivity_factor := float_of_int fmt 131;
     accel_offset_sensetivity_factor := float_of_int fmt 16384;
     theta := Vec3 0 0 0;
     _theta_f := Vec3 (S754_zero false) (S754_zero false) (S754_zero false);
     last_update := 500;
     omega_offset := {[ "x" := float_of_int fmt 0; "y" := float_of_int fmt 0;
                        "z" := float_of_int fmt 0 ]} |}.

Definition sample_state (fmt : float_format) : State :=
  {| self := sample_driver fmt; world := {| bus_ops := 0; clock_ops := 0 |} |}.

(** The sample driver with a bias of 1.0 on the x axis. *)
Definition biased_state (fmt : float_format) : State :=
  with_self (set_omega_offset
               (axes_dict (float_of_int fmt 1) (float_of_int fmt 0) (float_of_int fmt 0)))
            (sample_state fmt).

(** A bus whose transfer number [bad] fails, and which otherwise behaves
    as [const_env]; a bus on which the wake-up write fails. *)
Definition flaky_env (hi lo : Byte.byte) (bad : nat) : Env :=
  {| i2c_writeto_mem := λ _ _ _ _, true;
     i2c_readfrom_mem := λ n _ reg,
       if Nat.eqb n bad then None else Some (if Z.odd reg then hi else lo);
     time_ticks_ms := λ n, 1000 + 500 * Z.of_nat n |}.

Definition dead_env : Env :=
  {| i2c_writeto_mem := λ _ _ _ _, false;
     i2c_readfrom_mem := λ _ _ _, None;
     time_ticks_ms := λ n, 1000 + 500 * Z.of_nat n |}.

(** [commutes h m]: the method [m] neither reads nor writes what the
    change [h] of the driver object touches: running it after [h] gives
    the outcome of running it before, with [h] applied to the final state. *)
Definition commutes {A} (h : MPU6050 → MPU6050) (m : M A) : Prop :=
  ∀ st, m (with_self h st) = outcome_map (with_self h) (m st).

(** [stable J m]: a property of the whole state (driver object and world)
    that holds before [m] holds after it, whether [m] returns or raises. *)
Definition stable {A} (J : State → Prop) (m : M A) : Prop :=
  ∀ st, J st → J (final_state (m st)).

(** [raises_only P m]: every exception [m] can raise satisfies [P]. *)
Definition raises_only {A} (P : exn → Prop) (m : M A) : Prop :=
  ∀ st e st', m st = Raise e st' → P e.

(** The attributes assigned by the constructor before it calibrates. *)
Definition init_fields (fmt : float_format) (a now : Z) (d : MPU6050) : MPU6050 :=
  set_last_update now
    (set_theta_f (Vec3 (S754_zero false) (S754_zero false) (S754_zero false))
       (set_theta (Vec3 0 0 0)
          (set_accel_factor (float_of_int fmt 16384)
             (set_omega_factor (float_of_int fmt 131) (set_addr a d))))).

(** The loop [for _ in range(n): angle = gyro.get_theta(); print(angle);
    time.sleep(0.2)] of [Example/GetTheta.py]; the printed angles are
    collected in a list. *)
Fixpoint print_angles (fmt : float_format) (env : Env) (n : nat) : M (list (vec3 Z)) :=
  match n with
  | O => mret []
  | S n' =>
      angle ← get_theta fmt env;
      sleep;;
      rest ← print_angles fmt env n';
      mret (angle :: rest)
  end.

(** [Example/GetTheta.py]: construct the driver at the default address,
    print 30 angles, reset, print 30 more. *)
Definition example_main (fmt : float_format) (env : Env) : M (list (vec3 Z)) :=
  __init__ fmt env 0x68;;
  first ← print_angles fmt env 30;
  reset_theta env;;
  second ← print_angles fmt env 30;
  mret (first ++ second).

(** The gyro factor is not zero and the bias has the three axes. *)
Definition gyro_ready (d : MPU6050) : Prop :=
  float_is_zero (omega_offset_sensetivity_factor d) = false ∧ offset_has_axes d.

(** The attributes of the driver object, and the ones each public method
    can change (read off the method bodies).  [update_theta] writes the
    entries of [self.theta] in place and [get_theta] returns that very
    dict, while [set_gyro_offset] keeps the object it is given: after
    [set_gyro_offset(get_theta())] the bias and the integer angles are one
    dict, and an update changes both.  The embedding stores dicts by
    value, so this sharing is recorded here: the two updating methods count
    as writers of [omega_offset] too. *)
Inductive attr : Type :=
  | Addr | OmegaFactor | AccelFactor | Theta | ThetaF | LastUpdate | OmegaOffset.

Definition writes (c : call) (x : attr) : bool :=
  match c, x with
  | (CallUpdateTheta | CallGetTheta | CallResetTheta), (Theta | ThetaF | LastUpdate) => true
  | (CallUpdateTheta | CallGetTheta), OmegaOffset => true
  | (CallResetGyroOffset | CallSetGyroOffset _), OmegaOffset => true
  | CallSetGyroSensitivity _, OmegaFactor => true
  | CallSetAccelSensitivity _, AccelFactor => true
  | _, _ => false
  end.

Definition same_attr (x : attr) (d d' : MPU6050) : Prop :=
  match x with
  | Addr => addr d = addr d'
  | OmegaFactor => omega_offset_sensetivity_factor d = omega_offset_sensetivity_factor d'
  | AccelFactor => accel_offset_sensetivity_factor d = accel_offset_sensetivity_factor d'
  | Theta => theta d = theta d'
  | ThetaF => _theta_f d = _theta_f d'
  | LastUpdate => last_update d = last_update d'
  | OmegaOffset => omega_offset d = omega_offset d'
  end.

(** The exception an outcome carries, the value it returns, and the
    exception a public call raises. *)
Definition exn_of {A} (o : outcome A) : option exn :=
  match o with
  | Return _ _ => None
  | Raise e _ => Some e
  end.

Definition returned {A} (o : outcome A) : option A :=
  match o with
  | Return a _ => Some a
  | Raise _ _ => None
  end.

Definition call_exn (fmt : float_format) (env : Env) (c : call) (st : State) : option exn :=
  match c with
  | CallGetTemp => exn_of (get_temp fmt env st)
  | CallGetAccel => exn_of (get_accel fmt env st)
  | CallGetOmega => exn_of (get_omega fmt env st)
  | CallUpdateTheta => exn_of (update_theta fmt env st)
  | CallGetTheta => exn_of (get_theta fmt env st)
  | CallResetTheta => exn_of (reset_theta env st)
  | CallResetGyroOffset => exn_of (reset_gyro_offset fmt env st)
  | CallSetGyroOffset offset => exn_of (set_gyro_offset offset st)
  | CallSetGyroSensitivity factor => exn_of (set_gyro_sensitivity factor st)
  | CallSetAccelSensitivity factor => exn_of (set_accel_sensitivity factor st)
  end.

(** A call that sets a sensitivity factor to zero. *)
Definition zero_factor_call (c : call) : bool :=
  match c with
  | CallSetGyroSensitivity f | CallSetAccelSensitivity f => float_is_zero f
  | _ => false
  end.

(** Both factors are not zero and the bias has the three axes. *)
Definition driver_ready (d : MPU6050) : Prop :=
  gyro_ready d ∧ float_is_zero (accel_offset_sensetivity_factor d) = false.

(** The mantissa [n] shifted left by [d] bits (by none for [d ≤ 0]). *)
Definition shl_pos (n : positive) (d : Z) : positive :=
  match d with
  | Z.pos j => Pos.iter xO n j
  | _ => n
  end.

(** The position of an axis in the loop [for axis in ['x', 'y', 'z']] of
    [update_theta]. *)
Definition axis_index (a : axis) : nat :=
  match a with
  | AxisX => 0
  | AxisY => 1
  | AxisZ => 2
  end.

(** ** Sample sessions *)

(** A driver constructed on a bus that reads 1310 on every register pair
    (10.0 degrees per second at the default factor), with a clock step of
    half a second.  The bias is set to zero and the factor to 1310 / 2^(p+1)
    for one [get_theta], which takes the accumulators to 2^p, where p is the
    precision of the format (24 or 53 bits); then the default factor is
    restored. *)
Definition saturated_state (fmt : float_format) : State :=
  run_calls fmt (const_env Byte.x05 Byte.x1e 500)
    [CallSetGyroOffset
       (axes_dict (float_of_int fmt 0) (float_of_int fmt 0) (float_of_int fmt 0));
     CallSetGyroSensitivity
       (float_div fmt (float_of_int fmt 1310) (float_of_int fmt (2 ^ (fmt_prec fmt + 1))));
     CallGetTheta;
     CallSetGyroSensitivity (float_of_int fmt 131)]
    (final_state (__init__ fmt (const_env Byte.x05 Byte.x1e 500) 0x68 (sample_state fmt))).

(** A driver constructed on a bus that reads 1 on every register pair, with
    a clock step of three seconds.  The factor is set to 2^-(emax-1) and the
    bias to 0 on x and 2^(emax-2) on y and z, all finite: the next rate is
    2^(emax-1) on x and 2^(emax-2) on y and z. *)
Definition overflowing_state (fmt : float_format) : State :=
  run_calls fmt (const_env Byte.x00 Byte.x01 3000)
    [CallSetGyroOffset
       (axes_dict (float_of_int fmt 0) (float_of_int fmt (2 ^ (fmt_emax fmt - 2)))
                  (float_of_int fmt (2 ^ (fmt_emax fmt - 2))));
     CallSetGyroSensitivity
       (float_div fmt (float_of_int fmt 1) (float_of_int fmt (2 ^ (fmt_emax fmt - 1))))]
    (final_state (__init__ fmt (const_env Byte.x00 Byte.x01 3000) 0x68 (sample_state fmt))).

(** A driver constructed on the bus that reads 1310, whose factor is then
    set to the finite value 2^-(emax-2) (2^-126 in binary32): the scaled
    reading 1310 / 2^-(emax-2) overflows to infinity. *)
Definition infinite_rate_state (fmt : float_format) : State :=
  run_calls fmt (const_env Byte.x05 Byte.x1e 500)
    [CallSetGyroSensitivity
       (float_div fmt (float_of_int fmt 1) (float_of_int fmt (2 ^ (fmt_emax fmt - 2))))]
    (final_state (__init__ fmt (const_env Byte.x05 Byte.x1e 500) 0x68 (sample_state fmt))).

(** * Properties *)

(** ** The monad *)

Lemma bind_unfold {A B} (m : M A) (f : A → M B) st :
  (m ≫= f) st =
  match m st with Return a st' => f a st' | Raise e st' => Raise e st' end.
Proof. reflexivity. Qed.

Lemma bind_Return {A B} (m : M A) (f : A → M B) st a st' :
  m st = Return a st' → (m ≫= f) st = f a st'.
Proof. intros H. rewrite bind_unfold, H. reflexivity. Qed.

Lemma bind_Return_inv {A B} (m : M A) (f : A → M B) st b st' :
  (m ≫= f) st = Return b st' →
  ∃ a st1, m st = Return a st1 ∧ f a st1 = Return b st'.
Proof.
  rewrite bind_unfold. destruct (m st) as [a st1|e st1]; [eauto | discriminate].
Qed.

(** ** Bytes and bits *)

Lemma byte_to_Z_range b : 0 ≤ byte_to_Z b < 256.
Proof. unfold byte_to_Z. pose proof (Byte.to_N_bounded b). lia. Qed.

Lemma lor_shiftl_8 h l : 0 ≤ l < 256 → Z.lor (Z.shiftl h 8) l = 256 * h + l.
Proof.
  intros Hl.
  rewrite Z.shiftl_mul_pow2 by lia.
  rewrite <- Z.lxor_lor, <- Z.add_nocarry_lxor; [lia| |].
  all: apply Z.bits_inj'; intros n Hn; rewrite Z.land_spec, Z.bits_0.
  all: destruct (Z.ltb_spec n 8) as [Hlt|Hge];
    [ rewrite Z.mul_pow2_bits_low by lia; reflexivity
    | rewrite (Z.bits_above_log2 l n), andb_false_r; [reflexivity| lia |] ].
  all: destruct (Z.eq_dec l 0) as [->|]; [simpl; lia|];
    apply Z.log2_lt_pow2; [lia|];
    apply Z.lt_le_trans with (2 ^ 8); [lia| apply Z.pow_le_mono_r; lia].
Qed.

(** ** [_read_raw_data] *)

Section RawRead.
Variable env : Env.

(** C1: the two bytes read at [reg] and [reg + 1] are combined big-endian
    into [256 * high + low] and reinterpreted as a signed 16-bit value:
    65536 is subtracted from 32768 on, so the result lies in
    [-32768, 32767]; (0x7F,0xFF) gives 32767, (0x80,0x00) gives -32768 and
    (0x00,0x00) gives 0. *)
Theorem read_raw_data_twos_complement (st : State) (reg : Z) (high low : Byte.byte) :
  i2c_readfrom_mem env (bus_ops (world st)) (addr (self st)) reg = Some high →
  i2c_readfrom_mem env (S (bus_ops (world st))) (addr (self st)) (reg + 1) = Some low →
  let u := 256 * byte_to_Z high + byte_to_Z low in
  ∃ v, _read_raw_data env reg st = Return v (tick_bus (tick_bus st))
     ∧ Z.lor (Z.shiftl (byte_to_Z high) 8) (byte_to_Z low) = u
     ∧ 0 ≤ u < 65536
     ∧ v = (if 32768 <=? u then u - 65536 else u)
     ∧ -32768 ≤ v ≤ 32767
     ∧ (high = Byte.x7f → low = Byte.xff → v = 32767)
     ∧ (high = Byte.x80 → low = Byte.x00 → v = -32768)
     ∧ (high = Byte.x00 → low = Byte.x00 → v = 0).
Proof.
  intros Hh Hl u.
  pose proof (byte_to_Z_range high) as Bh.
  pose proof (byte_to_Z_range low) as Bl.
  assert (Hu : Z.lor (Z.shiftl (byte_to_Z high) 8) (byte_to_Z low) = u)
    by (apply lor_shiftl_8; exact Bl).
  exists (if 32768 <=? u then u - 65536 else u).
  split.
  { unfold _read_raw_data.
    rewrite (bind_Return _ _ st (byte_to_Z high) (tick_bus st))
      by (unfold readfrom_mem; rewrite Hh; reflexivity).
    rewrite (bind_Return _ _ (tick_bus st) (byte_to_Z low) (tick_bus (tick_bus st)))
      by (unfold readfrom_mem; simpl; rewrite Hl; reflexivity).
    rewrite Hu. unfold mret, M_ret. f_equal.
    destruct (Z.ltb_spec 32767 u), (Z.leb_spec 32768 u); lia. }
  split; [exact Hu|].
  split; [subst u; lia|].
  split; [reflexivity|].
  split; [destruct (Z.leb_spec 32768 u); subst u; lia|].
  repeat split; intros -> ->; reflexivity.
Qed.
End RawRead.

Lemma read_raw_data_twos_complement_witness :
  ∃ v, _read_raw_data (const_env Byte.x80 Byte.x00 500) _GYRO_XOUT_H (sample_state Binary32)
       = Return v (tick_bus (tick_bus (sample_state Binary32)))
     ∧ v = -32768.
Proof.
  destruct (read_raw_data_twos_complement (const_env Byte.x80 Byte.x00 500)
              (sample_state Binary32) _GYRO_XOUT_H Byte.x80 Byte.x00 eq_refl eq_refl)
    as (v & Hrun & _ & _ & _ & _ & _ & Hmin & _).
  exists v. split; [exact Hrun | apply Hmin; reflexivity].
Defined.

(** ** [set_gyro_offset] *)

Lemma dict_contains_spec (k : string) (d : gmap string float) :
  dict_contains k d = true ↔ is_Some (d !! k).
Proof. unfold dict_contains. apply bool_decide_eq_true. Qed.

Lemma has_all_axes_spec (offset : gmap string float) :
  forallb (λ k, dict_contains k offset) ["x"; "y"; "z"]%string = true ↔
  is_Some (offset !! "x") ∧ is_Some (offset !! "y") ∧ is_Some (offset !! "z").
Proof.
  simpl. rewrite !andb_true_iff, !dict_contains_spec. tauto.
Qed.

Lemma set_gyro_offset_accepts (offset : gmap string float) (st : State) :
  is_Some (offset !! "x") ∧ is_Some (offset !! "y") ∧ is_Some (offset !! "z") →
  set_gyro_offset offset st = Return tt (with_self (set_omega_offset offset) st).
Proof.
  intros H. apply has_all_axes_spec in H. unfold set_gyro_offset. rewrite H.
  reflexivity.
Qed.

Lemma set_gyro_offset_rejects (offset : gmap string float) (st : State) :
  ¬ (is_Some (offset !! "x") ∧ is_Some (offset !! "y") ∧ is_Some (offset !! "z")) →
  set_gyro_offset offset st = Raise ValueError st.
Proof.
  intros H. unfold set_gyro_offset.
  destruct (forallb _ _) eqn:E; [|reflexivity].
  apply has_all_axes_spec in E. contradiction.
Qed.

Lemma missing_axis_iff (offset : gmap string float) :
  offset !! "x" = None ∨ offset !! "y" = None ∨ offset !! "z" = None ↔
  ¬ (is_Some (offset !! "x") ∧ is_Some (offset !! "y") ∧ is_Some (offset !! "z")).
Proof.
  rewrite <- !not_eq_None_Some.
  destruct (offset !! "x"), (offset !! "y"), (offset !! "z"); naive_solver.
Qed.

(** C5: [set_gyro_offset] raises [ValueError] exactly when one of the keys
    x, y, z is missing from the mapping; when it raises, the state (the
    stored offset included) is as before; when it returns, the mapping is
    stored as it is, whatever its values are. *)
Theorem set_gyro_offset_validates_keys (offset : gmap string float) (st : State) :
  let missing :=
    offset !! "x" = None ∨ offset !! "y" = None ∨ offset !! "z" = None in
  set_gyro_offset offset st =
    (if decide missing then Raise ValueError st
     else Return tt (with_self (set_omega_offset offset) st))
  ∧ ((∃ e st', set_gyro_offset offset st = Raise e st') ↔ missing)
  ∧ (∀ e st', set_gyro_offset offset st = Raise e st' →
       e = ValueError ∧ st' = st ∧ omega_offset (self st') = omega_offset (self st))
  ∧ (∀ st', set_gyro_offset offset st = Return tt st' →
       omega_offset (self st') = offset ∧ world st' = world st).
Proof.
  intros missing.
  assert (Heq : set_gyro_offset offset st =
    (if decide missing then Raise ValueError st
     else Return tt (with_self (set_omega_offset offset) st))).
  { destruct (decide missing) as [Hm|Hm].
    - apply set_gyro_offset_rejects, missing_axis_iff, Hm.
    - apply set_gyro_offset_accepts.
      destruct (offset !! "x") eqn:Ex, (offset !! "y") eqn:Ey, (offset !! "z") eqn:Ez;
        try (exfalso; apply Hm; unfold missing; rewrite ?Ex, ?Ey, ?Ez; tauto).
      eauto. }
  split; [exact Heq|]. rewrite Heq.
  destruct (decide missing) as [Hm|Hm].
  - split; [split; [intros _; exact Hm | intros _; eauto]|].
    split; [|discriminate].
    intros e st' [= <- <-]. auto.
  - split; [split; [intros (e & st' & [=]) | contradiction]|].
    split; [discriminate|].
    intros st' [= <-]. auto.
Qed.

(** C6 (as amended): [set_gyro_offset] accepts a mapping exactly when x, y
    and z are among its keys; further keys are neither required to be
    absent nor removed, the mapping is stored with them. *)
Theorem set_gyro_offset_accepts_supersets (offset : gmap string float) (st : State) :
  ((∃ st', set_gyro_offset offset st = Return tt st') ↔
     ({["x"; "y"; "z"]} : gset string) ⊆ dom offset)
  ∧ (∀ st', set_gyro_offset offset st = Return tt st' →
       dom (omega_offset (self st')) = dom offset).
Proof.
  assert (Hsub : ({["x"; "y"; "z"]} : gset string) ⊆ dom offset ↔
    is_Some (offset !! "x") ∧ is_Some (offset !! "y") ∧ is_Some (offset !! "z")).
  { rewrite <- !elem_of_dom. set_solver. }
  split.
  - rewrite Hsub. split.
    + intros (st' & Hrun).
      destruct (decide (is_Some (offset !! "x") ∧ is_Some (offset !! "y")
                        ∧ is_Some (offset !! "z"))) as [H|H]; [exact H|].
      rewrite (set_gyro_offset_rejects _ _ H) in Hrun. discriminate.
    + intros H. rewrite (set_gyro_offset_accepts _ _ H). eauto.
  - intros st' Hrun.
    destruct (decide (is_Some (offset !! "x") ∧ is_Some (offset !! "y")
                      ∧ is_Some (offset !! "z"))) as [H|H].
    + rewrite (set_gyro_offset_accepts _ _ H) in Hrun. injection Hrun as <-.
      reflexivity.
    + rewrite (set_gyro_offset_rejects _ _ H) in Hrun. discriminate.
Qed.

(** Against C6 as stated: a mapping with a fourth key [w] is accepted and
    stored, although its key set is not {x, y, z}. *)
Lemma set_gyro_offset_extra_key_accepted :
  let offset : gmap string float :=
    {[ "x" := S754_zero false; "y" := S754_zero false; "z" := S754_zero false;
       "w" := S754_zero false ]} in
  dom offset ≠ ({["x"; "y"; "z"]} : gset string)
  ∧ set_gyro_offset offset (sample_state Binary32)
    = Return tt (with_self (set_omega_offset offset) (sample_state Binary32)).
Proof.
  split.
  - intros H.
    assert (Hw : "w" ∈ dom ({[ "x" := S754_zero false; "y" := S754_zero false;
                  "z" := S754_zero false; "w" := S754_zero false ]} : gmap string float))
      by (rewrite !dom_insert_L; set_solver).
    rewrite H in Hw. set_solver.
  - apply set_gyro_offset_accepts. repeat split; apply elem_of_dom;
      rewrite !dom_insert_L; set_solver.
Qed.

(** ** What a method leaves untouched *)

Create HintDb preserves.

Lemma preserves_ret {A} I (a : A) : preserves I (mret a).
Proof. intros st H. exact H. Qed.

Lemma preserves_throw {A} I (e : exn) : preserves I (mthrow e : M A).
Proof. intros st H. exact H. Qed.

Lemma preserves_lift {A} I (r : exn + A) : preserves I (lift r).
Proof. destruct r; intros st H; exact H. Qed.

Lemma preserves_gets {A} I (f : MPU6050 → A) : preserves I (gets f).
Proof. intros st H. exact H. Qed.

Lemma preserves_modify I (f : MPU6050 → MPU6050) :
  (∀ d, I d → I (f d)) → preserves I (modify f).
Proof. intros Hf st H. apply Hf, H. Qed.

Lemma preserves_bind {A B} I (m : M A) (f : A → M B) :
  preserves I m → (∀ a, preserves I (f a)) → preserves I (m ≫= f).
Proof.
  intros Hm Hf st H. specialize (Hm st H). rewrite bind_unfold.
  destruct (m st) as [a st1|e st1]; simpl in *; [apply Hf, Hm | exact Hm].
Qed.

Lemma preserves_sleep I : preserves I sleep.
Proof. apply preserves_ret. Qed.

#[global] Hint Resolve preserves_ret preserves_throw preserves_lift preserves_gets
  preserves_bind preserves_sleep : preserves.

Section Frames.
Variable fmt : float_format.
Variable env : Env.
Variable I : MPU6050 → Prop.

Lemma preserves_readfrom_mem reg : preserves I (readfrom_mem env reg).
Proof.
  intros st H. unfold readfrom_mem.
  destruct (i2c_readfrom_mem _ _ _ _); exact H.
Qed.

Lemma preserves_writeto_mem reg buf : preserves I (writeto_mem env reg buf).
Proof.
  intros st H. unfold writeto_mem.
  destruct (i2c_writeto_mem _ _ _ _ _); exact H.
Qed.

Lemma preserves_ticks_ms : preserves I (ticks_ms env).
Proof. intros st H. exact H. Qed.

Hint Resolve preserves_readfrom_mem preserves_writeto_mem preserves_ticks_ms
  : preserves.

Lemma preserves_read_raw_data reg : preserves I (_read_raw_data env reg).
Proof. unfold _read_raw_data. auto with preserves. Qed.

Hint Resolve preserves_read_raw_data : preserves.

Lemma preserves_read_scaled reg factor : preserves I (read_scaled fmt env reg factor).
Proof. unfold read_scaled. auto with preserves. Qed.

Hint Resolve preserves_read_scaled : preserves.

Lemma preserves_get_temp : preserves I (get_temp fmt env).
Proof. unfold get_temp. auto with preserves. Qed.

Lemma preserves_get_accel : preserves I (get_accel fmt env).
Proof. unfold get_accel. auto 7 with preserves. Qed.

Lemma preserves_dict_getitem k d : preserves I (dict_getitem k d).
Proof. unfold dict_getitem. destruct (d !! k); auto with preserves. Qed.

Hint Resolve preserves_dict_getitem : preserves.

Lemma preserves_get_omega : preserves I (get_omega fmt env).
Proof. unfold get_omega. auto 12 with preserves. Qed.

Lemma preserves_dict_iadd k v d : preserves I (dict_iadd fmt k v d).
Proof. unfold dict_iadd. auto with preserves. Qed.

Hint Resolve preserves_dict_iadd : preserves.

Lemma preserves_calibrate_loop n offset : preserves I (calibrate_loop fmt env n offset).
Proof.
  revert offset. induction n as [|n IH]; intros offset; simpl;
    auto 12 with preserves.
Qed.

Lemma preserves_items_div items samples : preserves I (items_div fmt items samples).
Proof.
  induction items as [|[k v] items IH]; simpl; auto with preserves.
Qed.

Hint Resolve preserves_calibrate_loop preserves_items_div : preserves.

Lemma preserves_calibrate_gyro samples : preserves I (_calibrate_gyro fmt env samples).
Proof. unfold _calibrate_gyro. auto with preserves. Qed.
End Frames.

#[global] Hint Resolve preserves_readfrom_mem preserves_writeto_mem preserves_ticks_ms
  preserves_read_raw_data preserves_read_scaled preserves_get_temp preserves_get_accel
  preserves_dict_getitem preserves_get_omega preserves_calibrate_gyro : preserves.

(** Reads of the sensor leave the whole driver object as it is. *)
Lemma unchanged {A} (m : M A) (st : State) :
  preserves (λ d, d = self st) m → self (final_state (m st)) = self st.
Proof. intros H. apply H. reflexivity. Qed.

(** ** Conversion of integers to floats *)

Section NonZero.
Variables prec emax : Z.
Hypothesis prec_pos : 0 < prec.
Hypothesis emin_neg : emin prec emax < 1.

Lemma digits2_pos_size p : digits2_pos p = Pos.size p.
Proof. induction p; simpl; congruence. Qed.

Lemma Zdigits2_bounds m :
  0 < m → (2 ^ (Zdigits2 m - 1) ≤ m < 2 ^ (Zdigits2 m)) ∧ 0 < Zdigits2 m.
Proof.
  destruct m as [|p|p]; try lia. intros _. simpl. rewrite digits2_pos_size.
  pose proof (Pos.size_gt p) as Hgt. pose proof (Pos.size_le p) as Hle.
  apply Pos2Z.pos_lt_pos in Hgt. apply Pos2Z.pos_le_pos in Hle.
  rewrite Pos2Z.inj_pow in Hgt, Hle.
  split; [|lia]. split; [|exact Hgt].
  change (Z.pos p~0) with (2 * Z.pos p) in Hle.
  replace (Z.pos (Pos.size p)) with (Z.pos (Pos.size p) - 1 + 1) in Hle by lia.
  rewrite Z.pow_add_r in Hle by lia. lia.
Qed.

Lemma shr_1_m mrs : 0 ≤ shr_m mrs → shr_m (shr_1 mrs) = shr_m mrs / 2.
Proof.
  destruct mrs as [m r s]. simpl. intros Hm.
  destruct m as [|[p|p|]|p]; simpl; try lia; try reflexivity.
  - rewrite Pos2Z.inj_xI. apply Z.div_unique with 1; lia.
  - rewrite Pos2Z.inj_xO. apply Z.div_unique with 0; lia.
Qed.

Lemma iter_pos_shr_m p : ∀ mrs, 0 ≤ shr_m mrs →
  shr_m (SpecFloat.iter_pos shr_1 p mrs) = shr_m mrs / 2 ^ Z.pos p.
Proof.
  induction p as [p IH|p IH|]; intros mrs Hm; simpl.
  - assert (H1 : 0 ≤ shr_m (shr_1 mrs)) by (rewrite shr_1_m by lia; apply Z.div_pos; lia).
    assert (H2 : 0 ≤ shr_m (SpecFloat.iter_pos shr_1 p (shr_1 mrs)))
      by (rewrite IH by lia; apply Z.div_pos; lia).
    rewrite IH, IH, shr_1_m by lia.
    rewrite !Z.div_div by lia. f_equal.
    rewrite <- (Z.pow_1_r 2) at 1. rewrite <- !Z.pow_add_r by lia. f_equal. lia.
  - assert (H2 : 0 ≤ shr_m (SpecFloat.iter_pos shr_1 p mrs))
      by (rewrite IH by lia; apply Z.div_pos; lia).
    rewrite IH, IH by lia.
    rewrite !Z.div_div by lia. f_equal.
    rewrite <- Z.pow_add_r by lia. f_equal. lia.
  - rewrite shr_1_m by lia. reflexivity.
Qed.

(** Shifting a positive mantissa to its rounding exponent keeps it
    positive, as long as the number lies above the smallest exponent. *)
Lemma shr_fexp_pos m e l :
  0 < m → emin prec emax < Zdigits2 m + e →
  let '(mrs, e') := shr_fexp prec emax m e l in
  0 < shr_m mrs ∧ emin prec emax < Zdigits2 (shr_m mrs) + e'
  ∧ (shr_m mrs = m ∧ e' = e ∨ emin prec emax ≤ e').
Proof.
  intros Hm He. unfold shr_fexp, shr.
  destruct (Zdigits2_bounds m Hm) as [[Hlo Hhi] Hd].
  set (k := fexp prec emax (Zdigits2 m + e) - e).
  assert (Hk : k < Zdigits2 m) by (unfold k, fexp; lia).
  assert (Hm0 : shr_m (shr_record_of_loc m l) = m)
    by (destruct l as [|[]]; reflexivity).
  destruct k as [|p|p] eqn:Ek; try (rewrite Hm0; split; [lia|]; split; [lia|left; auto]).
  rewrite iter_pos_shr_m by lia. rewrite Hm0.
  assert (Hge : 2 ^ Z.pos p ≤ m).
  { apply Z.le_trans with (2 ^ (Zdigits2 m - 1)); [|lia].
    apply Z.pow_le_mono_r; lia. }
  assert (Hq : 0 < m / 2 ^ Z.pos p) by (apply Z.div_str_pos; lia).
  split; [exact Hq|].
  assert (Hfe : emin prec emax ≤ e + Z.pos p) by (unfold k, fexp in Ek; lia).
  destruct (Zdigits2_bounds _ Hq) as [_ Hd'].
  split; [lia|]. right. lia.
Qed.

Lemma Zdigits2_mono m n : 0 < m → m ≤ n → Zdigits2 m ≤ Zdigits2 n.
Proof.
  intros Hm Hn.
  destruct (Zdigits2_bounds m Hm) as [[Hlo _] _].
  destruct (Zdigits2_bounds n ltac:(lia)) as [[_ Hhi] _].
  destruct (Z.le_gt_cases (Zdigits2 m) (Zdigits2 n)) as [|Hgt]; [assumption|].
  assert (2 ^ Zdigits2 n ≤ 2 ^ (Zdigits2 m - 1)) by (apply Z.pow_le_mono_r; lia).
  lia.
Qed.

Lemma binary_round_aux_nonzero sx m e l :
  0 < m → emin prec emax < Zdigits2 m + e →
  match binary_round_aux prec emax sx m e l with S754_zero _ => False | _ => True end.
Proof.
  intros Hm He. unfold binary_round_aux.
  pose proof (shr_fexp_pos m e l Hm He) as H1.
  destruct (shr_fexp prec emax m e l) as [mrs' e'].
  destruct H1 as (Hm' & He' & _).
  set (m1 := round_nearest_even (shr_m mrs') (loc_of_shr_record mrs')).
  assert (Hm1 : shr_m mrs' ≤ m1).
  { unfold m1, round_nearest_even.
    destruct (loc_of_shr_record mrs') as [|[]]; try lia.
    destruct (Z.even _); lia. }
  pose proof (Zdigits2_mono _ _ Hm' Hm1) as Hd.
  pose proof (shr_fexp_pos m1 e' loc_Exact ltac:(lia) ltac:(lia)) as H2.
  destruct (shr_fexp prec emax m1 e' loc_Exact) as [mrs'' e''].
  destruct H2 as (Hm'' & _).
  destruct (shr_m mrs''); try lia. destruct (_ <=? _); exact I.
Qed.

Lemma binary_normalize_nonzero z :
  z ≠ 0 →
  match binary_normalize prec emax z 0 false with S754_zero _ => False | _ => True end.
Proof.
  intros Hz.
  assert (Hr : ∀ sx mx,
    match binary_round prec emax sx mx 0 with S754_zero _ => False | _ => True end).
  { intros sx mx. unfold binary_round, shl_align.
    set (e' := fexp prec emax (Z.pos (digits2_pos mx) + 0)).
    destruct (e' - 0) as [|d|d] eqn:Ed.
    - apply binary_round_aux_nonzero; simpl; lia.
    - apply binary_round_aux_nonzero; simpl; lia.
    - apply binary_round_aux_nonzero; [lia|].
      pose proof (Zdigits2_bounds (Z.pos (Pos.iter xO mx d)) ltac:(lia)) as [_ Hd].
      unfold e', fexp in *. lia. }
  destruct z as [|p|p]; [contradiction| apply Hr | apply Hr].
Qed.
End NonZero.

Lemma float_of_int_nonzero (fmt : float_format) (z : Z) :
  z ≠ 0 → float_is_zero (float_of_int fmt z) = false.
Proof.
  intros Hz. unfold float_of_int.
  assert (H : match binary_normalize (fmt_prec fmt) (fmt_emax fmt) z 0 false with
              | S754_zero _ => False | _ => True end)
    by (apply binary_normalize_nonzero; [destruct fmt; reflexivity | destruct fmt; reflexivity | exact Hz]).
  destruct (binary_normalize _ _ _ _ _); [contradiction|reflexivity..].
Qed.

Section Exact.
Variables prec emax : Z.
Hypothesis prec_pos : 0 < prec.
Hypothesis prec_le_emax : prec ≤ emax.
Hypothesis emax_ge_2 : 2 ≤ emax.

Lemma digits2_pos_iter_xO (m k : positive) :
  digits2_pos (Pos.iter xO m k) = (digits2_pos m + k)%positive.
Proof.
  induction k as [|k IH] using Pos.peano_ind.
  - simpl. lia.
  - rewrite Pos.iter_succ. simpl. rewrite IH. lia.
Qed.

(** A mantissa that already sits at its rounding exponent is not rounded. *)
Lemma binary_round_aux_canonical sx (m : positive) (e : Z) :
  fexp prec emax (Z.pos (digits2_pos m) + e) = e →
  e ≤ emax - prec →
  binary_round_aux prec emax sx (Z.pos m) e loc_Exact = S754_finite sx m e.
Proof.
  intros Hc He. unfold binary_round_aux, shr_fexp. simpl Zdigits2.
  rewrite Hc, Z.sub_diag. simpl. rewrite Hc, Z.sub_diag. simpl.
  destruct (Z.leb_spec e (emax - prec)); [reflexivity | lia].
Qed.

Lemma binary_round_small sx (m : positive) :
  Z.pos (digits2_pos m) ≤ prec →
  ∃ m' e', binary_round prec emax sx m 0 = S754_finite sx m' e'.
Proof.
  intros Hd. unfold binary_round, shl_align.
  assert (Hf : fexp prec emax (Z.pos (digits2_pos m) + 0) = Z.pos (digits2_pos m) - prec)
    by (unfold fexp, emin; lia).
  rewrite Hf.
  destruct (Z.pos (digits2_pos m) - prec - 0) as [|k|k] eqn:Ek; try lia.
  - exists m, 0. apply binary_round_aux_canonical; [|lia].
    rewrite Hf. lia.
  - exists (Pos.iter xO m k), (Z.pos (digits2_pos m) - prec).
    apply binary_round_aux_canonical; [|lia].
    rewrite digits2_pos_iter_xO. unfold fexp, emin. lia.
Qed.
End Exact.

Lemma float_of_int_finite (fmt : float_format) (z : Z) :
  z ≠ 0 → Z.abs z < 2 ^ 24 →
  ∃ s m e, float_of_int fmt z = S754_finite s m e.
Proof.
  intros Hz Hb. unfold float_of_int, binary_normalize.
  assert (Hd : ∀ p : positive, Z.pos p < 2 ^ 24 → Z.pos (digits2_pos p) ≤ fmt_prec fmt).
  { intros p Hp.
    assert (Z.pos (digits2_pos p) ≤ 24); [|destruct fmt; simpl; lia].
    destruct (Zdigits2_bounds (Z.pos p) ltac:(lia)) as [[Hlo _] _]. simpl in Hlo.
    destruct (Z.le_gt_cases (Z.pos (digits2_pos p)) 24) as [|Hgt]; [assumption|].
    assert (2 ^ 24 ≤ 2 ^ (Z.pos (digits2_pos p) - 1)) by (apply Z.pow_le_mono_r; lia).
    lia. }
  assert (Hr : ∀ sx p, Z.pos p < 2 ^ 24 →
    ∃ m' e', binary_round (fmt_prec fmt) (fmt_emax fmt) sx p 0 = S754_finite sx m' e').
  { intros sx p Hp. apply binary_round_small; try (destruct fmt; simpl; lia).
    apply Hd, Hp. }
  destruct z as [|p|p]; [contradiction| |].
  - destruct (Hr false p ltac:(lia)) as (m' & e' & H). eauto.
  - destruct (Hr true p ltac:(lia)) as (m' & e' & H). eauto.
Qed.

(** ** Exact sums of integer-valued floats *)

Lemma iter_pos_as_iter {A} (f : A → A) (q : positive) : ∀ x,
  SpecFloat.iter_pos f q x = Pos.iter f x q.
Proof.
  induction q as [q IH|q IH|]; intros x; simpl; [|rewrite !IH; reflexivity|reflexivity].
  rewrite !IH, !Pos.iter_swap. reflexivity.
Qed.

Lemma shr_exact (q : positive) : ∀ m : positive,
  SpecFloat.iter_pos shr_1 q
    {| shr_m := Z.pos (Pos.iter xO m q); shr_r := false; shr_s := false |}
  = {| shr_m := Z.pos m; shr_r := false; shr_s := false |}.
Proof.
  intros m. rewrite iter_pos_as_iter.
  induction q as [|q IH] using Pos.peano_ind; [reflexivity|].
  rewrite Pos.iter_succ_r, (Pos.iter_succ q _ xO m). simpl shr_1. exact IH.
Qed.

Lemma shl_pos_digits n d :
  0 ≤ d → Z.pos (digits2_pos (shl_pos n d)) = Z.pos (digits2_pos n) + d.
Proof.
  destruct d as [|j|j]; simpl; intros H; try lia.
  rewrite digits2_pos_iter_xO. lia.
Qed.

Lemma shl_pos_add n d (p : positive) :
  0 ≤ d → Pos.iter xO (shl_pos n d) p = shl_pos n (d + Z.pos p).
Proof.
  destruct d as [|j|j]; intros H; try lia; [reflexivity|].
  simpl. rewrite <- Pos.iter_add. f_equal. lia.
Qed.

Lemma shl_pos_Z n d : 0 ≤ d → Z.pos (shl_pos n d) = Z.pos n * 2 ^ d.
Proof.
  destruct d as [|j|j]; intros H; try lia; [simpl; lia|]. simpl shl_pos.
  induction j as [|j IH] using Pos.peano_ind; [simpl; lia|].
  rewrite Pos.iter_succ, Pos2Z.inj_xO, IH, Pos2Z.inj_succ, Z.pow_succ_r by lia. lia.
Qed.

Section ExactSum.
Variables prec emax : Z.
Hypothesis prec_pos : 0 < prec.
Hypothesis prec_le_emax : prec ≤ emax.
Hypothesis emax_ge_2 : 2 ≤ emax.

(** A mantissa of at most [prec] bits, shifted left by any number of bits
    with the exponent lowered by as many, rounds to the float whose
    mantissa has exactly [prec] bits: nothing is lost. *)
Lemma binary_round_shifted sx (n : positive) (j : Z) :
  0 ≤ j → Z.pos (digits2_pos n) ≤ prec →
  binary_round prec emax sx (shl_pos n j) (- j)
  = S754_finite sx (shl_pos n (prec - Z.pos (digits2_pos n)))
                   (Z.pos (digits2_pos n) - prec).
Proof.
  intros Hj Hd. unfold binary_round, shl_align.
  rewrite shl_pos_digits by lia.
  set (c := Z.pos (digits2_pos n) - prec).
  assert (Hf : fexp prec emax (Z.pos (digits2_pos n) + j + - j) = c)
    by (unfold fexp, emin, c; lia).
  rewrite Hf.
  assert (Hcanon : fexp prec emax (Z.pos (digits2_pos (shl_pos n (- c))) + c) = c)
    by (rewrite shl_pos_digits by (unfold c; lia); unfold fexp, emin, c; lia).
  replace (prec - Z.pos (digits2_pos n)) with (- c) by (unfold c; lia).
  destruct (c - - j) as [|p|p] eqn:Ecj.
  - replace j with (- c) by lia. replace (- - c) with c by lia.
    apply binary_round_aux_canonical; [lia.. | exact Hcanon | unfold c; lia].
  - unfold binary_round_aux, shr_fexp, shr. simpl Zdigits2.
    rewrite shl_pos_digits by lia. rewrite Hf, Ecj. simpl shr_record_of_loc.
    replace (shl_pos n j) with (Pos.iter xO (shl_pos n (- c)) p)
      by (rewrite shl_pos_add by (unfold c; lia); f_equal; lia).
    rewrite shr_exact. cbn [shr_m loc_of_shr_record round_nearest_even Zdigits2].
    replace (- j + Z.pos p) with c by lia.
    rewrite Hcanon, Z.sub_diag. cbn [shr_m].
    destruct (Z.leb_spec c (emax - prec)); [reflexivity | unfold c in *; lia].
  - replace (Pos.iter xO (shl_pos n j) p) with (shl_pos n (- c))
      by (rewrite shl_pos_add by lia; f_equal; lia).
    apply binary_round_aux_canonical; [lia.. | exact Hcanon | unfold c; lia].
Qed.

Lemma binary_normalize_shifted (z j : Z) :
  0 ≤ j → Z.abs z < 2 ^ prec →
  binary_normalize prec emax (z * 2 ^ j) (- j) false = binary_normalize prec emax z 0 false.
Proof.
  intros Hj Hz.
  assert (Hd : ∀ p : positive, Z.pos p < 2 ^ prec → Z.pos (digits2_pos p) ≤ prec).
  { intros p Hp.
    destruct (Zdigits2_bounds (Z.pos p) ltac:(lia)) as [[Hlo _] _]. simpl in Hlo.
    destruct (Z.le_gt_cases (Z.pos (digits2_pos p)) prec) as [|Hgt]; [assumption|].
    assert (2 ^ prec ≤ 2 ^ (Z.pos (digits2_pos p) - 1)) by (apply Z.pow_le_mono_r; lia).
    lia. }
  destruct z as [|p|p].
  - reflexivity.
  - rewrite <- shl_pos_Z by lia. simpl binary_normalize.
    rewrite (binary_round_shifted false p j Hj (Hd p ltac:(lia))).
    rewrite <- (binary_round_shifted false p 0 ltac:(lia) (Hd p ltac:(lia))). reflexivity.
  - change (Z.neg p) with (- Z.pos p). rewrite Z.mul_opp_l, <- shl_pos_Z by lia.
    simpl binary_normalize.
    rewrite (binary_round_shifted true p j Hj (Hd p ltac:(lia))).
    rewrite <- (binary_round_shifted true p 0 ltac:(lia) (Hd p ltac:(lia))). reflexivity.
Qed.

Lemma digits_le_prec (p : positive) : Z.pos p < 2 ^ prec → Z.pos (digits2_pos p) ≤ prec.
Proof.
  intros Hp.
  destruct (Zdigits2_bounds (Z.pos p) ltac:(lia)) as [[Hlo _] _]. simpl in Hlo.
  destruct (Z.le_gt_cases (Z.pos (digits2_pos p)) prec) as [|Hgt]; [assumption|].
  assert (2 ^ prec ≤ 2 ^ (Z.pos (digits2_pos p) - 1)) by (apply Z.pow_le_mono_r; lia).
  lia.
Qed.

Lemma shl_align_shifted (n : positive) (d j : Z) :
  0 ≤ d ≤ j → fst (shl_align (shl_pos n d) (- d) (- j)) = shl_pos n j.
Proof.
  intros H. unfold shl_align.
  destruct (- j - - d) as [|q|q] eqn:E; cbn [fst]; try lia.
  - f_equal. lia.
  - rewrite shl_pos_add by lia. f_equal. lia.
Qed.

(** The sum of two integers held as floats is exact when the operands
    and the sum have at most [prec] bits. *)
Lemma SFadd_int (a b : Z) :
  Z.abs a < 2 ^ prec → Z.abs b < 2 ^ prec → Z.abs (a + b) < 2 ^ prec →
  SFadd prec emax (binary_normalize prec emax a 0 false)
                  (binary_normalize prec emax b 0 false)
  = binary_normalize prec emax (a + b) 0 false.
Proof.
  intros Ha Hb Hab.
  assert (Hr : ∀ s p, Z.pos p < 2 ^ prec →
    binary_round prec emax s p 0
    = S754_finite s (shl_pos p (prec - Z.pos (digits2_pos p)))
                    (Z.pos (digits2_pos p) - prec)).
  { intros s p Hp.
    exact (binary_round_shifted s p 0 ltac:(lia) (digits_le_prec p Hp)). }
  assert (Hsum : ∀ sa pa sb pb,
    Z.pos pa < 2 ^ prec → Z.pos pb < 2 ^ prec →
    Z.abs (cond_Zopp sa (Z.pos pa) + cond_Zopp sb (Z.pos pb)) < 2 ^ prec →
    SFadd prec emax (binary_round prec emax sa pa 0) (binary_round prec emax sb pb 0)
    = binary_normalize prec emax (cond_Zopp sa (Z.pos pa) + cond_Zopp sb (Z.pos pb))
                       0 false).
  { intros sa pa sb pb Hpa Hpb Hs. rewrite (Hr sa pa Hpa), (Hr sb pb Hpb).
    pose proof (digits_le_prec pa Hpa) as Da. pose proof (digits_le_prec pb Hpb) as Db.
    cbn [SFadd].
    set (da := prec - Z.pos (digits2_pos pa)) in *.
    set (db := prec - Z.pos (digits2_pos pb)) in *.
    replace (Z.pos (digits2_pos pa) - prec) with (- da) by (unfold da; lia).
    replace (Z.pos (digits2_pos pb) - prec) with (- db) by (unfold db; lia).
    replace (Z.min (- da) (- db)) with (- Z.max da db) by lia.
    rewrite (shl_align_shifted pa da (Z.max da db)) by (unfold da; lia).
    rewrite (shl_align_shifted pb db (Z.max da db)) by (unfold db; lia).
    rewrite <- (binary_normalize_shifted _ (Z.max da db)) by (unfold da; lia).
    f_equal.
    rewrite Z.mul_add_distr_r.
    assert (Hc : ∀ s p, cond_Zopp s (Z.pos (shl_pos p (Z.max da db)))
                        = cond_Zopp s (Z.pos p) * 2 ^ Z.max da db).
    { intros s p. rewrite shl_pos_Z by (unfold da; lia). destruct s; simpl cond_Zopp; lia. }
    rewrite !Hc. reflexivity. }
  destruct a as [|pa|pa], b as [|pb|pb];
    rewrite ?Z.add_0_l, ?Z.add_0_r; cbn [binary_normalize].
  - reflexivity.
  - rewrite (Hr false pb) by lia. reflexivity.
  - rewrite (Hr true pb) by lia. reflexivity.
  - rewrite (Hr false pa) by lia. reflexivity.
  - exact (Hsum false pa false pb ltac:(lia) ltac:(lia) Hab).
  - exact (Hsum false pa true pb ltac:(lia) ltac:(lia) Hab).
  - rewrite (Hr true pa) by lia. reflexivity.
  - exact (Hsum true pa false pb ltac:(lia) ltac:(lia) Hab).
  - exact (Hsum true pa true pb ltac:(lia) ltac:(lia) Hab).
Qed.
End ExactSum.

Lemma float_of_int_canonical (fmt : float_format) (s : bool) (p : positive) :
  Z.pos p < 2 ^ fmt_prec fmt →
  float_of_int fmt (cond_Zopp s (Z.pos p))
  = S754_finite s (shl_pos p (fmt_prec fmt - Z.pos (digits2_pos p)))
                  (Z.pos (digits2_pos p) - fmt_prec fmt).
Proof.
  intros Hp. unfold float_of_int.
  assert (Hd : Z.pos (digits2_pos p) ≤ fmt_prec fmt)
    by (apply digits_le_prec; [destruct fmt; reflexivity | exact Hp]).
  destruct s; simpl cond_Zopp; cbn [binary_normalize];
    apply (binary_round_shifted (fmt_prec fmt) (fmt_emax fmt)
             ltac:(destruct fmt; simpl; lia) ltac:(destruct fmt; simpl; lia)
             _ p 0 ltac:(lia) Hd).
Qed.

(** [int] of an integer held as a float gives the integer back. *)
Lemma int_of_float_int (fmt : float_format) (z : Z) :
  Z.abs z < 2 ^ fmt_prec fmt → int_of_float (float_of_int fmt z) = inr z.
Proof.
  intros Hz.
  assert (H : ∀ s p, Z.pos p < 2 ^ fmt_prec fmt →
    int_of_float (float_of_int fmt (cond_Zopp s (Z.pos p))) = inr (cond_Zopp s (Z.pos p))).
  { intros s p Hp. rewrite (float_of_int_canonical fmt s p Hp).
    assert (Hd : Z.pos (digits2_pos p) ≤ fmt_prec fmt)
      by (apply digits_le_prec; [destruct fmt; reflexivity | exact Hp]).
    cbn [int_of_float]. do 2 f_equal.
    rewrite shl_pos_Z by lia.
    replace (Z.pos (digits2_pos p) - fmt_prec fmt)
      with (- (fmt_prec fmt - Z.pos (digits2_pos p))) by lia.
    rewrite Z.shiftl_opp_r, Z.shiftr_div_pow2 by lia.
    apply Z.div_mul. apply Z.pow_nonzero; lia. }
  destruct z as [|p|p].
  - reflexivity.
  - exact (H false p ltac:(lia)).
  - exact (H true p ltac:(lia)).
Qed.

(** Integer-valued floats add exactly as long as the operands and the sum
    fit the precision of the format. *)
Lemma float_add_int (fmt : float_format) (a b : Z) :
  Z.abs a < 2 ^ fmt_prec fmt → Z.abs b < 2 ^ fmt_prec fmt →
  Z.abs (a + b) < 2 ^ fmt_prec fmt →
  float_add fmt (float_of_int fmt a) (float_of_int fmt b) = float_of_int fmt (a + b).
Proof.
  intros Ha Hb Hab. unfold float_add, float_of_int.
  apply SFadd_int; (destruct fmt; simpl in *; lia).
Qed.

(** A finite float divided by itself is exactly [1.0]. *)
Lemma float_div_self (fmt : float_format) (s : bool) (m : positive) (e : Z) :
  float_div fmt (S754_finite s m e) (S754_finite s m e) = float_of_int fmt 1.
Proof.
  unfold float_div, SFdiv, SFdiv_core_binary.
  replace (Zdigits2 (Z.pos m) + e - (Zdigits2 (Z.pos m) + e)) with 0 by lia.
  rewrite Z.sub_diag.
  assert (Hq : ∀ p : positive,
    Z.div_eucl (Z.shiftl (Z.pos m) (Z.pos p)) (Z.pos m) = (2 ^ Z.pos p, 0)).
  { intros p. rewrite Z.shiftl_mul_pow2 by lia.
    pose proof (Z.div_eucl_eq (Z.pos m * 2 ^ Z.pos p) (Z.pos m) ltac:(lia)) as Heq.
    pose proof (Z.mod_pos_bound (Z.pos m * 2 ^ Z.pos p) (Z.pos m) ltac:(lia)) as Hb.
    unfold Z.modulo in Hb.
    destruct (Z.div_eucl (Z.pos m * 2 ^ Z.pos p) (Z.pos m)) as [q r].
    assert (q = 2 ^ Z.pos p ∧ r = 0) as [-> ->]; [|reflexivity].
    assert (Hr : r = Z.pos m * (2 ^ Z.pos p - q)) by lia.
    assert (2 ^ Z.pos p - q = 0) by nia. split; lia. }
  assert (Hloc : new_location (Z.pos m) 0 = loc_Exact)
    by (unfold new_location; destruct (Z.even _); reflexivity).
  destruct s, fmt; simpl fmt_prec; simpl fmt_emax; cbn [xorb];
    match goal with
    | |- context [0 - Z.min ?a ?b] =>
        let v := eval vm_compute in (0 - Z.min a b) in
        let w := eval vm_compute in (Z.min a b) in
        change (0 - Z.min a b) with v; change (Z.min a b) with w
    end; cbv iota; change IntDef.Z.div_eucl with Z.div_eucl;
    rewrite Hq, Hloc; reflexivity.
Qed.

(** A non-zero raw value divided by itself as a float is exactly [1.0]. *)
Lemma int16_self_division (fmt : float_format) (v : Z) :
  -32768 ≤ v ≤ 32767 → v ≠ 0 →
  float_is_zero (float_of_int fmt v) = false
  ∧ float_div fmt (float_of_int fmt v) (float_of_int fmt v) = float_of_int fmt 1.
Proof.
  intros Hv Hne.
  destruct (float_of_int_finite fmt v Hne ltac:(lia)) as (s & m & e & ->).
  split; [reflexivity | apply float_div_self].
Qed.

(** ** The scaled readers *)

Section Readers.
Variable fmt : float_format.
Variable env : Env.

Lemma readfrom_mem_with_self f reg st :
  addr (f (self st)) = addr (self st) →
  readfrom_mem env reg (with_self f st)
  = outcome_map (with_self f) (readfrom_mem env reg st).
Proof.
  intros H. unfold readfrom_mem. simpl. rewrite H.
  destruct (i2c_readfrom_mem _ _ _ _); reflexivity.
Qed.

(** A change of the driver object that keeps [addr] does not change what
    the bus delivers. *)
Lemma read_raw_data_with_self f reg st :
  addr (f (self st)) = addr (self st) →
  _read_raw_data env reg (with_self f st)
  = outcome_map (with_self f) (_read_raw_data env reg st).
Proof.
  intros H. unfold _read_raw_data.
  rewrite !bind_unfold, (readfrom_mem_with_self f reg st H).
  destruct (readfrom_mem env reg st) as [h st1|e st1] eqn:E1; simpl; [|reflexivity].
  assert (Hst1 : st1 = tick_bus st).
  { unfold readfrom_mem in E1. destruct (i2c_readfrom_mem _ _ _ _); congruence. }
  subst st1. rewrite !bind_unfold, (readfrom_mem_with_self f (reg + 1) (tick_bus st) H).
  destruct (readfrom_mem env (reg + 1) (tick_bus st)); reflexivity.
Qed.

Lemma read_raw_data_Return_inv reg st v st' :
  _read_raw_data env reg st = Return v st' →
  st' = tick_bus (tick_bus st) ∧ -32768 ≤ v ≤ 32767.
Proof.
  unfold _read_raw_data, readfrom_mem. rewrite !bind_unfold.
  destruct (i2c_readfrom_mem _ _ _ _) as [h|]; [|discriminate].
  rewrite bind_unfold. simpl.
  destruct (i2c_readfrom_mem _ _ _ _) as [l|]; [|discriminate].
  unfold mret, M_ret. intros [= <- <-]. split; [reflexivity|].
  pose proof (byte_to_Z_range h). pose proof (byte_to_Z_range l).
  rewrite lor_shiftl_8 by assumption.
  destruct (Z.ltb_spec 32767 (256 * byte_to_Z h + byte_to_Z l)); lia.
Qed.

Lemma read_raw_data_self reg st v st' :
  _read_raw_data env reg st = Return v st' → self st' = self st.
Proof. intros H. apply read_raw_data_Return_inv in H as [-> _]. reflexivity. Qed.

Lemma read_scaled_Return reg factor st raw st1 :
  _read_raw_data env reg st = Return raw st1 →
  float_is_zero (factor (self st)) = false →
  read_scaled fmt env reg factor st
  = Return (float_div fmt (float_of_int fmt raw) (factor (self st))) st1.
Proof.
  intros Hr Hz. unfold read_scaled. rewrite (bind_Return _ _ _ _ _ Hr).
  unfold gets. rewrite bind_unfold.
  rewrite (read_raw_data_self _ _ _ _ Hr).
  unfold float_truediv. rewrite Hz. reflexivity.
Qed.

(** With a zero factor the division raises, after the two bus reads. *)
Lemma read_scaled_zero_factor reg factor st raw st1 :
  _read_raw_data env reg st = Return raw st1 →
  float_is_zero (factor (self st)) = true →
  read_scaled fmt env reg factor st = Raise ZeroDivisionError st1.
Proof.
  intros Hr Hz. unfold read_scaled. rewrite (bind_Return _ _ _ _ _ Hr).
  unfold gets. rewrite bind_unfold.
  rewrite (read_raw_data_self _ _ _ _ Hr).
  unfold float_truediv. rewrite Hz. reflexivity.
Qed.

Lemma default_accel_unit : float_div fmt (float_of_int fmt 16384) (float_of_int fmt 16384)
                           = float_of_int fmt 1.
Proof. destruct fmt; reflexivity. Qed.

(** C8: [get_accel] returns, per axis, the raw signed register value
    divided by the current accel sensitivity factor; the stored gyro bias
    plays no part in it; with the default factor 16384.0 the raw value
    16384 gives exactly 1.0. *)
Theorem get_accel_scaled (st st1 st2 st3 : State) (rx ry rz : Z) :
  _read_raw_data env _ACCEL_XOUT_H st = Return rx st1 →
  _read_raw_data env _ACCEL_YOUT_H st1 = Return ry st2 →
  _read_raw_data env _ACCEL_ZOUT_H st2 = Return rz st3 →
  float_is_zero (accel_offset_sensetivity_factor (self st)) = false →
  let f := accel_offset_sensetivity_factor (self st) in
  let g r := float_div fmt (float_of_int fmt r) f in
  get_accel fmt env st = Return (Vec3 (g rx) (g ry) (g rz)) st3
  ∧ self st3 = self st
  ∧ (∀ offset,
       get_accel fmt env (with_self (set_omega_offset offset) st)
       = Return (Vec3 (g rx) (g ry) (g rz)) (with_self (set_omega_offset offset) st3))
  ∧ (f = float_of_int fmt 16384 → rx = 16384 → g rx = float_of_int fmt 1).
Proof.
  intros Hx Hy Hz Hf f g.
  assert (Hrun : ∀ h : MPU6050 → MPU6050,
    (∀ d, addr (h d) = addr d) →
    (∀ d, accel_offset_sensetivity_factor (h d) = accel_offset_sensetivity_factor d) →
    get_accel fmt env (with_self h st)
    = Return (Vec3 (g rx) (g ry) (g rz)) (with_self h st3)).
  { intros h Ha Hk. unfold get_accel.
    pose proof (read_raw_data_self _ _ _ _ Hx) as S1.
    pose proof (read_raw_data_self _ _ _ _ Hy) as S2.
    assert (R1 := read_raw_data_with_self h _ACCEL_XOUT_H st (Ha _)).
    assert (R2 := read_raw_data_with_self h _ACCEL_YOUT_H st1 (Ha _)).
    assert (R3 := read_raw_data_with_self h _ACCEL_ZOUT_H st2 (Ha _)).
    rewrite Hx in R1. rewrite Hy in R2. rewrite Hz in R3. simpl in R1, R2, R3.
    rewrite (bind_Return _ _ _ _ _
      (read_scaled_Return _ accel_offset_sensetivity_factor _ _ _ R1
         ltac:(simpl; rewrite Hk; exact Hf))).
    rewrite (bind_Return _ _ _ _ _
      (read_scaled_Return _ accel_offset_sensetivity_factor _ _ _ R2
         ltac:(simpl; rewrite Hk, S1; exact Hf))).
    rewrite (bind_Return _ _ _ _ _
      (read_scaled_Return _ accel_offset_sensetivity_factor _ _ _ R3
         ltac:(simpl; rewrite Hk, S2, S1; exact Hf))).
    simpl. rewrite !Hk, S2, S1. reflexivity. }
  split.
  { specialize (Hrun (λ d, d) (λ _, eq_refl) (λ _, eq_refl)).
    destruct st, st3. exact Hrun. }
  split.
  { rewrite (read_raw_data_self _ _ _ _ Hz), (read_raw_data_self _ _ _ _ Hy).
    apply (read_raw_data_self _ _ _ _ Hx). }
  split.
  { intros offset. apply Hrun; reflexivity. }
  intros Hdef ->. unfold g. rewrite Hdef. apply default_accel_unit.
Qed.

Lemma unit_minus_unit :
  float_sub fmt (float_of_int fmt 1) (float_of_int fmt 1) = S754_zero false.
Proof. destruct fmt; reflexivity. Qed.

Lemma offset_lookup_Return (k : string) (st : State) (v : float) :
  omega_offset (self st) !! k = Some v →
  (d ← gets omega_offset; dict_getitem k d) st = Return v st.
Proof.
  intros H. rewrite bind_unfold. unfold gets, dict_getitem. rewrite H. reflexivity.
Qed.

Lemma read_scaled_Return_inv reg factor st v st' :
  read_scaled fmt env reg factor st = Return v st' → st' = tick_bus (tick_bus st).
Proof.
  unfold read_scaled. intros H.
  apply bind_Return_inv in H as (raw & s1 & Hr & H).
  apply read_raw_data_Return_inv in Hr as [-> _].
  apply bind_Return_inv in H as (f & s2 & [= <- <-] & H).
  unfold lift in H. destruct (float_truediv _ _ _); [discriminate|].
  injection H as _ <-. reflexivity.
Qed.

(** A [get_omega] that returns has made six bus transfers and nothing else. *)
Lemma get_omega_Return_inv st omega st' :
  get_omega fmt env st = Return omega st' → st' = Nat.iter 6 tick_bus st.
Proof.
  unfold get_omega. intros H.
  apply bind_Return_inv in H as (gx & s1 & Hx & H).
  apply bind_Return_inv in H as (gy & s2 & Hy & H).
  apply bind_Return_inv in H as (gz & s3 & Hz & H).
  apply read_scaled_Return_inv in Hx as ->, Hy as ->, Hz as ->.
  apply bind_Return_inv in H as (ox & s4 & Ho & H).
  apply bind_Return_inv in Ho as (d & s5 & [= <- <-] & Ho).
  unfold dict_getitem in Ho. destruct (_ !! "x"); [|discriminate]. injection Ho as _ <-.
  apply bind_Return_inv in H as (oy & s6 & Ho & H).
  apply bind_Return_inv in Ho as (d' & s7 & [= <- <-] & Ho).
  unfold dict_getitem in Ho. destruct (_ !! "y"); [|discriminate]. injection Ho as _ <-.
  apply bind_Return_inv in H as (oz & s8 & Ho & H).
  apply bind_Return_inv in Ho as (d'' & s9 & [= <- <-] & Ho).
  unfold dict_getitem in Ho. destruct (_ !! "z"); [|discriminate]. injection Ho as _ <-.
  injection H as _ <-. reflexivity.
Qed.

(** [get_omega] on a driver whose factor is not zero and whose offset has
    the three axes, also after a change of the object that keeps the
    address. *)
Lemma get_omega_Return (h : MPU6050 → MPU6050) (st st1 st2 st3 : State)
      (rx ry rz : Z) (f ox oy oz : float) :
  (∀ d, addr (h d) = addr d) →
  _read_raw_data env _GYRO_XOUT_H st = Return rx st1 →
  _read_raw_data env _GYRO_YOUT_H st1 = Return ry st2 →
  _read_raw_data env _GYRO_ZOUT_H st2 = Return rz st3 →
  omega_offset_sensetivity_factor (h (self st)) = f →
  float_is_zero f = false →
  omega_offset (h (self st)) !! "x" = Some ox →
  omega_offset (h (self st)) !! "y" = Some oy →
  omega_offset (h (self st)) !! "z" = Some oz →
  get_omega fmt env (with_self h st)
  = Return (Vec3 (float_sub fmt (float_div fmt (float_of_int fmt rx) f) ox)
                 (float_sub fmt (float_div fmt (float_of_int fmt ry) f) oy)
                 (float_sub fmt (float_div fmt (float_of_int fmt rz) f) oz))
           (with_self h st3).
Proof.
  intros Ha Hx Hy Hz Hf Hnz Ox Oy Oz. unfold get_omega.
  pose proof (read_raw_data_self _ _ _ _ Hx) as S1.
  pose proof (read_raw_data_self _ _ _ _ Hy) as S2.
  pose proof (read_raw_data_self _ _ _ _ Hz) as S3.
  assert (R1 := read_raw_data_with_self h _GYRO_XOUT_H st (Ha _)).
  assert (R2 := read_raw_data_with_self h _GYRO_YOUT_H st1 (Ha _)).
  assert (R3 := read_raw_data_with_self h _GYRO_ZOUT_H st2 (Ha _)).
  rewrite Hx in R1. rewrite Hy in R2. rewrite Hz in R3. simpl in R1, R2, R3.
  rewrite (bind_Return _ _ _ _ _
    (read_scaled_Return _ omega_offset_sensetivity_factor _ _ _ R1
       ltac:(simpl; rewrite Hf; exact Hnz))).
  rewrite (bind_Return _ _ _ _ _
    (read_scaled_Return _ omega_offset_sensetivity_factor _ _ _ R2
       ltac:(simpl; rewrite S1, Hf; exact Hnz))).
  rewrite (bind_Return _ _ _ _ _
    (read_scaled_Return _ omega_offset_sensetivity_factor _ _ _ R3
       ltac:(simpl; rewrite S2, S1, Hf; exact Hnz))).
  rewrite (bind_Return _ _ _ _ _
    (offset_lookup_Return "x" (with_self h st3) ox
       ltac:(simpl; rewrite S3, S2, S1; exact Ox))).
  rewrite (bind_Return _ _ _ _ _
    (offset_lookup_Return "y" (with_self h st3) oy
       ltac:(simpl; rewrite S3, S2, S1; exact Oy))).
  rewrite (bind_Return _ _ _ _ _
    (offset_lookup_Return "z" (with_self h st3) oz
       ltac:(simpl; rewrite S3, S2, S1; exact Oz))).
  simpl. rewrite S2, S1, Hf. reflexivity.
Qed.

(** C3: [get_omega] returns, per axis, the raw signed register value
    divided by the current gyro sensitivity factor, minus the stored bias
    of that axis; a reading of 1.0 on x with bias 1.0 gives 0.0; after
    [set_gyro_sensitivity(f)] a raw value equal to [f] gives exactly 1.0
    before the bias is subtracted. *)
Theorem get_omega_bias_corrected (st st1 st2 st3 : State) (rx ry rz : Z)
        (ox oy oz : float) :
  _read_raw_data env _GYRO_XOUT_H st = Return rx st1 →
  _read_raw_data env _GYRO_YOUT_H st1 = Return ry st2 →
  _read_raw_data env _GYRO_ZOUT_H st2 = Return rz st3 →
  float_is_zero (omega_offset_sensetivity_factor (self st)) = false →
  omega_offset (self st) !! "x" = Some ox →
  omega_offset (self st) !! "y" = Some oy →
  omega_offset (self st) !! "z" = Some oz →
  let f := omega_offset_sensetivity_factor (self st) in
  let g r := float_div fmt (float_of_int fmt r) f in
  get_omega fmt env st
  = Return (Vec3 (float_sub fmt (g rx) ox) (float_sub fmt (g ry) oy)
                 (float_sub fmt (g rz) oz)) st3
  ∧ self st3 = self st
  ∧ (g rx = float_of_int fmt 1 → ox = float_of_int fmt 1 →
     float_sub fmt (g rx) ox = S754_zero false)
  ∧ (rx ≠ 0 →
     let fx := float_of_int fmt rx in
     let st' := with_self (set_omega_factor fx) st in
     set_gyro_sensitivity fx st = Return tt st'
     ∧ float_div fmt (float_of_int fmt rx) fx = float_of_int fmt 1
     ∧ get_omega fmt env st'
       = Return (Vec3 (float_sub fmt (float_of_int fmt 1) ox)
                      (float_sub fmt (float_div fmt (float_of_int fmt ry) fx) oy)
                      (float_sub fmt (float_div fmt (float_of_int fmt rz) fx) oz))
                (with_self (set_omega_factor fx) st3)).
Proof.
  intros Hx Hy Hz Hf Ox Oy Oz f g.
  split.
  { pose proof (get_omega_Return (λ d, d) st st1 st2 st3 rx ry rz f ox oy oz
                  (λ _, eq_refl) Hx Hy Hz eq_refl Hf Ox Oy Oz) as H.
    destruct st, st3. exact H. }
  split.
  { rewrite (read_raw_data_self _ _ _ _ Hz), (read_raw_data_self _ _ _ _ Hy).
    apply (read_raw_data_self _ _ _ _ Hx). }
  split.
  { intros -> ->. apply unit_minus_unit. }
  intros Hne fx st'.
  destruct (read_raw_data_Return_inv _ _ _ _ Hx) as [_ Hrange].
  destruct (int16_self_division fmt rx Hrange Hne) as [Hnz Hone].
  split; [reflexivity|]. split; [exact Hone|].
  rewrite <- Hone.
  apply (get_omega_Return (set_omega_factor fx) st st1 st2 st3 rx ry rz fx ox oy oz);
    auto.
Qed.
End Readers.


(** ** Calibration *)

Lemma axes_dict_lookup_x a b c : axes_dict a b c !! "x" = Some a.
Proof. reflexivity. Qed.
Lemma axes_dict_lookup_y a b c : axes_dict a b c !! "y" = Some b.
Proof. reflexivity. Qed.
Lemma axes_dict_lookup_z a b c : axes_dict a b c !! "z" = Some c.
Proof. reflexivity. Qed.

Lemma axes_dict_lookup_y' v a b c : (<["x" := v]> (axes_dict a b c)) !! "y" = Some b.
Proof. reflexivity. Qed.
Lemma axes_dict_lookup_z' v w a b c :
  (<["y" := w]> (<["x" := v]> (axes_dict a b c))) !! "z" = Some c.
Proof. reflexivity. Qed.

Lemma axes_dict_update a b c a' b' c' :
  <["z" := c']> (<["y" := b']> (<["x" := a']> (axes_dict a b c))) = axes_dict a' b' c'.
Proof.
  apply map_eq. intros k. unfold axes_dict.
  destruct (decide (k = "x")) as [->|Hx]; [reflexivity|].
  destruct (decide (k = "y")) as [->|Hy]; [reflexivity|].
  destruct (decide (k = "z")) as [->|Hz]; [reflexivity|].
  rewrite !lookup_insert_ne, !lookup_singleton_ne by congruence. reflexivity.
Qed.

Lemma axes_dict_dom a b c : dom (axes_dict a b c) = ({["x"; "y"; "z"]} : gset string).
Proof. unfold axes_dict. rewrite !dom_insert_L, dom_singleton_L. set_solver. Qed.

Lemma axes_dict_fmap (f : float → float) a b c :
  f <$> axes_dict a b c = axes_dict (f a) (f b) (f c).
Proof. unfold axes_dict. rewrite !fmap_insert, map_fmap_singleton. reflexivity. Qed.

Section Calibration.
Variable fmt : float_format.
Variable env : Env.

Lemma dict_iadd_Return k v d old st :
  d !! k = Some old →
  dict_iadd fmt k v d st = Return (<[k := float_add fmt old v]> d) st.
Proof.
  intros H. unfold dict_iadd, dict_getitem. rewrite bind_unfold, H. reflexivity.
Qed.

Lemma items_div_Return items samples st :
  float_is_zero (float_of_int fmt samples) = false →
  items_div fmt items samples st
  = Return (prod_map id (λ v, float_div fmt v (float_of_int fmt samples)) <$> items) st.
Proof.
  intros Hz. revert st. induction items as [|[k v] items IH]; intros st; simpl.
  - reflexivity.
  - rewrite bind_unfold. unfold float_truediv. rewrite Hz. simpl.
    rewrite bind_unfold, IH. reflexivity.
Qed.

Lemma calibrate_loop_Return n : ∀ st st' samples a b c,
  float_is_zero (omega_offset_sensetivity_factor (self st)) = false →
  read_gyro_samples env n st = Return samples st' →
  let f := omega_offset_sensetivity_factor (self st) in
  calibrate_loop fmt env n (axes_dict a b c) st
  = Return (axes_dict (fold_left (float_add fmt) (scaled fmt f vx samples) a)
                      (fold_left (float_add fmt) (scaled fmt f vy samples) b)
                      (fold_left (float_add fmt) (scaled fmt f vz samples) c)) st'.
Proof.
  induction n as [|n IH]; intros st st' samples a b c Hf Hs f; simpl in Hs |- *.
  - injection Hs as <- <-. reflexivity.
  - apply bind_Return_inv in Hs as (rx & st1 & Hx & Hs).
    apply bind_Return_inv in Hs as (ry & st2 & Hy & Hs).
    apply bind_Return_inv in Hs as (rz & st3 & Hz & Hs).
    apply bind_Return_inv in Hs as (rest & st4 & Hrest & Hs).
    injection Hs as <- <-.
    pose proof (read_raw_data_self _ _ _ _ _ Hx) as S1.
    pose proof (read_raw_data_self _ _ _ _ _ Hy) as S2.
    pose proof (read_raw_data_self _ _ _ _ _ Hz) as S3.
    rewrite (bind_Return _ _ _ _ _
      (read_scaled_Return fmt env _ omega_offset_sensetivity_factor _ _ _ Hx Hf)).
    rewrite (bind_Return _ _ _ _ _
      (read_scaled_Return fmt env _ omega_offset_sensetivity_factor _ _ _ Hy
         ltac:(rewrite S1; exact Hf))).
    rewrite (bind_Return _ _ _ _ _
      (read_scaled_Return fmt env _ omega_offset_sensetivity_factor _ _ _ Hz
         ltac:(rewrite S2, S1; exact Hf))).
    rewrite (bind_Return _ _ _ _ _
      (dict_iadd_Return "x" _ _ _ st3 (axes_dict_lookup_x a b c))).
    rewrite (bind_Return _ _ _ _ _
      (dict_iadd_Return "y" _ _ _ st3 (axes_dict_lookup_y' _ a b c))).
    rewrite (bind_Return _ _ _ _ _
      (dict_iadd_Return "z" _ _ _ st3 (axes_dict_lookup_z' _ _ a b c))).
    rewrite axes_dict_update. rewrite bind_unfold. simpl.
    rewrite (IH st3 st4 rest _ _ _ ltac:(rewrite S3, S2, S1; exact Hf) Hrest).
    rewrite S3, S2, S1. reflexivity.
Qed.

Lemma read_gyro_samples_inv n : ∀ st st' samples,
  read_gyro_samples env n st = Return samples st' →
  length samples = n ∧ self st' = self st
  ∧ Forall (λ s, ∀ a, -32768 ≤ vec3_get a s ≤ 32767) samples.
Proof.
  induction n as [|n IH]; intros st st' samples Hs; simpl in Hs.
  - injection Hs as <- <-. auto.
  - apply bind_Return_inv in Hs as (rx & st1 & Hx & Hs).
    apply bind_Return_inv in Hs as (ry & st2 & Hy & Hs).
    apply bind_Return_inv in Hs as (rz & st3 & Hz & Hs).
    apply bind_Return_inv in Hs as (rest & st4 & Hrest & Hs).
    injection Hs as <- <-.
    destruct (IH _ _ _ Hrest) as (Hlen & Hself & Hall).
    destruct (read_raw_data_Return_inv _ _ _ _ _ Hx) as [-> Rx].
    destruct (read_raw_data_Return_inv _ _ _ _ _ Hy) as [-> Ry].
    destruct (read_raw_data_Return_inv _ _ _ _ _ Hz) as [-> Rz].
    split; [simpl; congruence|]. split; [rewrite Hself; reflexivity|].
    constructor; [|exact Hall]. intros []; assumption.
Qed.

Lemma calibrate_gyro_Return (N : Z) (st st' : State) (samples : list (vec3 Z)) :
  N ≠ 0 →
  float_is_zero (omega_offset_sensetivity_factor (self st)) = false →
  read_gyro_samples env (Z.to_nat N) st = Return samples st' →
  let f := omega_offset_sensetivity_factor (self st) in
  let mean g := float_div fmt (float_sum fmt (scaled fmt f g samples)) (float_of_int fmt N) in
  _calibrate_gyro fmt env N st = Return (axes_dict (mean vx) (mean vy) (mean vz)) st'.
Proof.
  intros HN Hf Hs f mean. unfold _calibrate_gyro. cbv zeta.
  fold (axes_dict (float_of_int fmt 0) (float_of_int fmt 0) (float_of_int fmt 0)).
  rewrite (bind_Return _ _ _ _ _
    (calibrate_loop_Return (Z.to_nat N) st st' samples _ _ _ Hf Hs)).
  rewrite (bind_Return _ _ _ _ _
    (items_div_Return _ N st' (float_of_int_nonzero fmt N HN))).
  reflexivity.
Qed.
End Calibration.

(** With the defaults, a constant raw value of 131 averages to exactly
    1.0: every partial sum is an integer. *)
Lemma default_unit_mean (fmt : float_format) :
  float_div fmt
    (float_sum fmt (replicate (Z.to_nat 200)
       (float_div fmt (float_of_int fmt 131) (float_of_int fmt 131))))
    (float_of_int fmt 200)
  = float_div fmt (float_of_int fmt 131) (float_of_int fmt 131).
Proof. destruct fmt; vm_compute; reflexivity. Qed.

Section CalibrationMean.
Variable fmt : float_format.
Variable env : Env.

Lemma scaled_replicate f g n s :
  scaled fmt f g (replicate n s) = replicate n (float_div fmt (float_of_int fmt (g s)) f).
Proof. unfold scaled. induction n as [|n IH]; simpl; [reflexivity | f_equal; exact IH]. Qed.

(** C4 (as amended): for [N ≥ 1], [_calibrate_gyro] returns per axis the
    float sum of the [N] samples raw/sensitivity, accumulated sample by
    sample from 0, divided by [N]; the stored bias plays no part.  When
    every sample has the raw value [R] on every axis, this is the sum of
    [N] copies of R/sensitivity divided by [N]; with the defaults (131.0,
    200 samples) and [R] = 131 it is exactly 1.0. *)
Theorem calibrate_gyro_mean (N : Z) (st st' : State) (samples : list (vec3 Z)) :
  1 ≤ N →
  float_is_zero (omega_offset_sensetivity_factor (self st)) = false →
  read_gyro_samples env (Z.to_nat N) st = Return samples st' →
  let f := omega_offset_sensetivity_factor (self st) in
  let mean g := float_div fmt (float_sum fmt (scaled fmt f g samples)) (float_of_int fmt N) in
  _calibrate_gyro fmt env N st = Return (axes_dict (mean vx) (mean vy) (mean vz)) st'
  ∧ length samples = Z.to_nat N
  ∧ self st' = self st
  ∧ (∀ R, Forall (λ s, s = Vec3 R R R) samples →
       let v := float_div fmt (float_of_int fmt R) f in
       let m := float_div fmt (float_sum fmt (replicate (Z.to_nat N) v)) (float_of_int fmt N) in
       mean vx = m ∧ mean vy = m ∧ mean vz = m
       ∧ (f = float_of_int fmt 131 → R = 131 → N = 200 → m = v)).
Proof.
  intros HN Hf Hs f mean.
  destruct (read_gyro_samples_inv env _ _ _ _ Hs) as (Hlen & Hself & Hrange).
  split; [apply calibrate_gyro_Return; [lia | exact Hf | exact Hs]|].
  split; [exact Hlen|]. split; [exact Hself|].
  intros R HR v m.
  assert (Hrep : samples = replicate (Z.to_nat N) (Vec3 R R R)).
  { rewrite <- Hlen. clear -HR. induction HR as [|s l -> _ IH]; simpl; congruence. }
  unfold mean. rewrite Hrep, !scaled_replicate. simpl.
  repeat (split; [reflexivity|]).
  intros Hdef -> ->. unfold m, v. rewrite Hdef. apply default_unit_mean.
Qed.
End CalibrationMean.

Lemma calibrate_gyro_mean_witness :
  _calibrate_gyro Binary32 (const_env Byte.x00 Byte.x83 500) 2 (sample_state Binary32)
  = Return (axes_dict (float_of_int Binary32 1) (float_of_int Binary32 1)
                      (float_of_int Binary32 1))
           (Nat.iter 12 tick_bus (sample_state Binary32)).
Proof.
  exact (proj1 (calibrate_gyro_mean Binary32 (const_env Byte.x00 Byte.x83 500) 2
                  (sample_state Binary32) _ [Vec3 131 131 131; Vec3 131 131 131]
                  ltac:(lia) eq_refl eq_refl)).
Defined.

(** Against C4 as stated: with the default of 200 samples and the default
    factor, a constant raw value of 1 does not average to 1/131.0, in
    either float width; with three samples it does, so the result depends
    on the sample count. *)
Lemma calibrate_gyro_mean_inexact :
  read_gyro_samples (const_env Byte.x00 Byte.x01 500) 200 (sample_state Binary64)
    = Return (replicate 200 (Vec3 1 1 1)) (Nat.iter 1200 tick_bus (sample_state Binary64))
  ∧ float_div Binary64 (float_of_int Binary64 1) (float_of_int Binary64 131)
    = S754_finite false 8800927516082801 (-60)
  ∧ calibrated_x Binary64 (const_env Byte.x00 Byte.x01 500) 200 (sample_state Binary64)
    = Some (S754_finite false 8800927516082770 (-60))
  ∧ calibrated_x Binary64 (const_env Byte.x00 Byte.x01 500) 3 (sample_state Binary64)
    = Some (S754_finite false 8800927516082801 (-60))
  ∧ float_div Binary32 (float_of_int Binary32 1) (float_of_int Binary32 131)
    = S754_finite false 16393005 (-31)
  ∧ calibrated_x Binary32 (const_env Byte.x00 Byte.x01 500) 200 (sample_state Binary32)
    = Some (S754_finite false 16392978 (-31))
  ∧ calibrated_x Binary32 (const_env Byte.x00 Byte.x01 500) 3 (sample_state Binary32)
    = Some (S754_finite false 16393005 (-31))
  ∧ float_eqb (S754_finite false 8800927516082770 (-60))
              (S754_finite false 8800927516082801 (-60)) = false
  ∧ float_eqb (S754_finite false 16392978 (-31)) (S754_finite false 16393005 (-31)) = false.
Proof. vm_compute. repeat split; reflexivity. Qed.

(** ** What touches only the bus *)

Lemma stable_ret {A} J (a : A) : stable J (mret a).
Proof. intros st H. exact H. Qed.

Lemma stable_lift {A} J (r : exn + A) : stable J (lift r).
Proof. destruct r; intros st H; exact H. Qed.

Lemma stable_gets {A} J (g : MPU6050 → A) : stable J (gets g).
Proof. intros st H. exact H. Qed.

Lemma stable_bind {A B} J (m : M A) (f : A → M B) :
  stable J m → (∀ a, stable J (f a)) → stable J (m ≫= f).
Proof.
  intros Hm Hf st H. specialize (Hm st H). rewrite bind_unfold.
  destruct (m st) as [a st1|e st1]; simpl in *; [apply Hf, Hm | exact Hm].
Qed.

Section BusOnly.
Variable fmt : float_format.
Variable env : Env.
Variable J : State → Prop.
Hypothesis J_bus : ∀ st, J st → J (tick_bus st).

Lemma stable_readfrom_mem reg : stable J (readfrom_mem env reg).
Proof.
  intros st H. unfold readfrom_mem.
  destruct (i2c_readfrom_mem _ _ _ _); apply J_bus, H.
Qed.

Lemma stable_read_raw_data reg : stable J (_read_raw_data env reg).
Proof.
  unfold _read_raw_data.
  apply stable_bind; [apply stable_readfrom_mem|]. intros h.
  apply stable_bind; [apply stable_readfrom_mem|]. intros l. apply stable_ret.
Qed.

Lemma stable_read_scaled reg factor : stable J (read_scaled fmt env reg factor).
Proof.
  unfold read_scaled.
  apply stable_bind; [apply stable_read_raw_data|]. intros raw.
  apply stable_bind; [apply stable_gets|]. intros f. apply stable_lift.
Qed.

Lemma stable_get_temp : stable J (get_temp fmt env).
Proof.
  unfold get_temp.
  apply stable_bind; [apply stable_read_raw_data|]. intros raw.
  apply stable_bind; [apply stable_lift|]. intros q. apply stable_ret.
Qed.

Lemma stable_get_accel : stable J (get_accel fmt env).
Proof.
  unfold get_accel.
  repeat (apply stable_bind; [apply stable_read_scaled|]; intros ?).
  apply stable_ret.
Qed.

Lemma stable_dict_getitem k d : stable J (dict_getitem k d).
Proof. unfold dict_getitem. destruct (d !! k); intros st H; exact H. Qed.

Lemma stable_get_omega : stable J (get_omega fmt env).
Proof.
  unfold get_omega.
  repeat (apply stable_bind; [apply stable_read_scaled|]; intros ?).
  repeat (apply stable_bind;
          [apply stable_bind; [apply stable_gets|]; intros ?; apply stable_dict_getitem|];
          intros ?).
  apply stable_ret.
Qed.

Lemma stable_dict_iadd k v d : stable J (dict_iadd fmt k v d).
Proof.
  unfold dict_iadd. apply stable_bind; [apply stable_dict_getitem|].
  intros old. apply stable_ret.
Qed.

Lemma stable_calibrate_loop n : ∀ offset, stable J (calibrate_loop fmt env n offset).
Proof.
  induction n as [|n IH]; intros offset; simpl; [apply stable_ret|].
  repeat (apply stable_bind; [apply stable_read_scaled|]; intros ?).
  repeat (apply stable_bind; [apply stable_dict_iadd|]; intros ?).
  apply stable_bind; [apply stable_ret|]. intros _. apply IH.
Qed.

Lemma stable_items_div items samples : stable J (items_div fmt items samples).
Proof.
  induction items as [|[k v] items IH]; simpl; [apply stable_ret|].
  apply stable_bind; [apply stable_lift|]. intros q.
  apply stable_bind; [apply IH|]. intros rest. apply stable_ret.
Qed.

Lemma stable_calibrate_gyro samples : stable J (_calibrate_gyro fmt env samples).
Proof.
  unfold _calibrate_gyro. cbv zeta.
  apply stable_bind; [apply stable_calibrate_loop|]. intros offset.
  apply stable_bind; [apply stable_items_div|]. intros items. apply stable_ret.
Qed.
End BusOnly.

(** ** Angle integration *)

Lemma vec3_get_set {A} (a : axis) (x : A) (v : vec3 A) : vec3_get a (vec3_set a x v) = x.
Proof. destruct a; reflexivity. Qed.

Lemma bind_Raise_inv {A B} (m : M A) (f : A → M B) st e st' :
  (m ≫= f) st = Raise e st' →
  m st = Raise e st' ∨ ∃ a st1, m st = Return a st1 ∧ f a st1 = Raise e st'.
Proof.
  rewrite bind_unfold. destruct (m st) as [a st1|e1 st1]; [eauto|].
  intros [= <- <-]. auto.
Qed.

Section Integration.
Variable fmt : float_format.
Variable env : Env.

Lemma update_axis_unfold omega dt a st :
  let v := float_add fmt (vec3_get a (_theta_f (self st)))
                         (float_mul fmt (vec3_get a omega) dt) in
  let st1 := with_self (set_theta_f (vec3_set a v (_theta_f (self st)))) st in
  update_axis fmt omega dt a st =
  match int_of_float v with
  | inr i => Return tt (with_self (set_theta (vec3_set a i (theta (self st)))) st1)
  | inl e => Raise e st1
  end.
Proof.
  intros v st1. subst v st1. unfold update_axis.
  unfold mbind, M_bind, gets, modify, lift. simpl. rewrite vec3_get_set.
  destruct (int_of_float _); reflexivity.
Qed.

(** The three rounds of the loop: they return when every new accumulator
    converts to an integer, and raise otherwise. *)
Lemma update_axes_spec omega dt st :
  let tf' := euler_step fmt (_theta_f (self st)) omega dt in
  match int_of_float (vx tf'), int_of_float (vy tf'), int_of_float (vz tf') with
  | inr ix, inr iy, inr iz =>
      (update_axis fmt omega dt AxisX;; update_axis fmt omega dt AxisY;;
       update_axis fmt omega dt AxisZ) st
      = Return tt (with_self (set_angles (Vec3 ix iy iz) tf') st)
  | _, _, _ =>
      ∃ e st', (update_axis fmt omega dt AxisX;; update_axis fmt omega dt AxisY;;
                update_axis fmt omega dt AxisZ) st = Raise e st'
  end.
Proof.
  intros tf'.
  destruct (int_of_float (vx tf')) as [e|ix] eqn:Ex;
    unfold tf', euler_step in Ex; simpl in Ex;
    rewrite bind_unfold, (update_axis_unfold omega dt AxisX st); simpl; rewrite Ex;
    [eauto|].
  destruct (int_of_float (vy tf')) as [e|iy] eqn:Ey;
    unfold tf', euler_step in Ey; simpl in Ey;
    rewrite bind_unfold, update_axis_unfold; simpl; rewrite Ey;
    [eauto|].
  destruct (int_of_float (vz tf')) as [e|iz] eqn:Ez;
    unfold tf', euler_step in Ez; simpl in Ez;
    rewrite update_axis_unfold; simpl; rewrite Ez;
    [eauto|].
  reflexivity.
Qed.

Lemma update_theta_unfold st :
  let now := time_ticks_ms env (clock_ops (world st)) in
  let dt := time_step fmt now (last_update (self st)) in
  update_theta fmt env st =
  match get_omega fmt env (with_self (set_last_update now) (tick_clock st)) with
  | Return omega st2 =>
      (update_axis fmt omega dt AxisX;; update_axis fmt omega dt AxisY;;
       update_axis fmt omega dt AxisZ) st2
  | Raise e st2 => Raise e st2
  end.
Proof.
  intros now dt. unfold update_theta, float_truediv.
  rewrite (float_of_int_nonzero fmt 1000) by lia. reflexivity.
Qed.

Lemma get_omega_self st om st' :
  get_omega fmt env st = Return om st' → self st' = self st.
Proof.
  intros H. pose proof (unchanged (get_omega fmt env) st (preserves_get_omega _ _ _)) as U.
  rewrite H in U. exact U.
Qed.

Lemma float_is_finite_int x : float_is_finite x = true → ∃ i, int_of_float x = inr i.
Proof. destruct x; simpl; intros H; try discriminate; eauto. Qed.

Lemma ticks_diff_wraparound last d :
  0 ≤ last < TICKS_PERIOD → 0 ≤ d < TICKS_PERIOD / 2 →
  time_ticks_diff ((last + d) mod TICKS_PERIOD) last = d.
Proof.
  intros Hl Hd. unfold time_ticks_diff.
  assert (HP : TICKS_PERIOD = 1073741824) by reflexivity.
  rewrite HP in *. change (1073741824 / 2) with 536870912 in *.
  replace ((last + d) mod 1073741824 - last + 536870912)
    with ((last + d) mod 1073741824 + (536870912 - last)) by lia.
  replace ((last + d) mod 1073741824 + (536870912 - last))
    with (((last + d) mod 1073741824) + (536870912 - last)) by lia.
  rewrite Zplus_mod_idemp_l.
  replace (last + d + (536870912 - last)) with (d + 536870912) by lia.
  rewrite Z.mod_small by lia. lia.
Qed.

Lemma half_second_step :
  float_mul fmt (float_of_int fmt 10)
            (float_div fmt (float_of_int fmt 500) (float_of_int fmt 1000))
  = float_of_int fmt 5
  ∧ float_add fmt (S754_zero false) (float_of_int fmt 5) = float_of_int fmt 5
  ∧ int_of_float (float_of_int fmt 5) = inr 5.
Proof. destruct fmt; repeat split; reflexivity. Qed.

Lemma get_theta_unfold st :
  get_theta fmt env st =
  match update_theta fmt env st with
  | Return _ st' => Return (theta (self st')) st'
  | Raise e st' => Raise e st'
  end.
Proof. reflexivity. Qed.

Lemma int_of_float_not_finite x :
  float_is_finite x = false →
  ∃ e, int_of_float x = inl e ∧ (e = ValueError ∨ e = OverflowError).
Proof. destruct x; simpl; intros H; try discriminate; eauto. Qed.

(** The rounds of the loop up to the first axis whose new accumulator
    does not convert: the axes before it are integrated and truncated, the
    axis itself has its new accumulator and its old integer, the axes after
    it are as before. *)
Lemma update_axes_first_failure omega dt st a :
  let tf' := euler_step fmt (_theta_f (self st)) omega dt in
  float_is_finite (vec3_get a tf') = false →
  (∀ b, (axis_index b < axis_index a)%nat → float_is_finite (vec3_get b tf') = true) →
  ∃ e st',
    (update_axis fmt omega dt AxisX;; update_axis fmt omega dt AxisY;;
     update_axis fmt omega dt AxisZ) st = Raise e st'
    ∧ int_of_float (vec3_get a tf') = inl e
    ∧ (∀ b, vec3_get b (_theta_f (self st'))
            = if (axis_index b <=? axis_index a)%nat then vec3_get b tf'
              else vec3_get b (_theta_f (self st)))
    ∧ (∀ b, (axis_index b < axis_index a)%nat →
            int_of_float (vec3_get b tf') = inr (vec3_get b (theta (self st'))))
    ∧ (∀ b, (axis_index a ≤ axis_index b)%nat →
            vec3_get b (theta (self st')) = vec3_get b (theta (self st)))
    ∧ last_update (self st') = last_update (self st)
    ∧ world st' = world st.
Proof.
  intros tf' Hbad Hbefore.
  destruct (int_of_float_not_finite _ Hbad) as (e & He & _).
  destruct a.
  - exists e. eexists. split.
    { rewrite bind_unfold, (update_axis_unfold omega dt AxisX st). cbv zeta.
      change (int_of_float (vec3_get AxisX tf') = inl e) in He. unfold tf' in He.
      cbn [vec3_get euler_step vx] in He |- *. rewrite He. reflexivity. }
    split; [exact He|].
    split; [intros []; reflexivity|].
    split; [intros [] Hb; simpl in Hb; lia|].
    split; [intros [] Hb; reflexivity|].
    split; reflexivity.
  - destruct (float_is_finite_int _ (Hbefore AxisX ltac:(simpl; lia))) as [ix Ix].
    exists e. eexists. split.
    { rewrite bind_unfold, (update_axis_unfold omega dt AxisX st). cbv zeta.
      unfold tf' in Ix, He. cbn [vec3_get euler_step vx vy] in Ix, He |- *.
      rewrite Ix. rewrite bind_unfold, update_axis_unfold. cbv zeta.
      cbn [self with_self set_theta set_theta_f _theta_f theta vec3_get vec3_set vx vy vz].
      rewrite He. reflexivity. }
    split; [exact He|].
    split; [intros []; reflexivity|].
    split; [intros [] Hb; simpl in Hb; try lia; exact Ix|].
    split; [intros [] Hb; simpl in Hb; try lia; reflexivity|].
    split; reflexivity.
  - destruct (float_is_finite_int _ (Hbefore AxisX ltac:(simpl; lia))) as [ix Ix].
    destruct (float_is_finite_int _ (Hbefore AxisY ltac:(simpl; lia))) as [iy Iy].
    exists e. eexists. split.
    { rewrite bind_unfold, (update_axis_unfold omega dt AxisX st). cbv zeta.
      unfold tf' in Ix, Iy, He. cbn [vec3_get euler_step vx vy vz] in Ix, Iy, He |- *.
      rewrite Ix. rewrite bind_unfold, update_axis_unfold. cbv zeta.
      cbn [self with_self set_theta set_theta_f _theta_f theta vec3_get vec3_set vx vy vz].
      rewrite Iy. rewrite update_axis_unfold. cbv zeta.
      cbn [self with_self set_theta set_theta_f _theta_f theta vec3_get vec3_set vx vy vz].
      rewrite He. reflexivity. }
    split; [exact He|].
    split; [intros []; reflexivity|].
    split; [intros [] Hb; simpl in Hb; try lia; assumption|].
    split; [intros [] Hb; simpl in Hb; try lia; reflexivity|].
    split; reflexivity.
Qed.

(** C2 (as amended): every call of [update_theta] makes one clock query,
    takes Δt as the [ticks_diff] of now and [last_update] divided by 1000
    and leaves now in [last_update], whether it returns or raises;
    [get_theta] is this update followed by the integer view.  When the
    read of the rates raises, nothing is integrated.  When it returns,
    the loop adds omega * Δt to the accumulators in floating point, in the
    order x, y, z: with three finite sums the call returns (after six bus
    transfers) and the integer view is their truncation; otherwise it
    raises the error of [int] at the first axis whose sum is NaN or
    infinite, with the axes before it integrated and the axes after it
    untouched.  With omega.x = 10.0 and Δt = 0.5 s the increment is
    exactly 5.0 and the new accumulator is the float sum of the old one
    and 5.0: an advance of exactly 5.0 from every integer k with |k| and
    |k + 5| below 2^24 (binary32; 2^53 in binary64), zero included, the
    integer view then being k + 5. *)
Theorem update_theta_euler (st : State) :
  let now := time_ticks_ms env (clock_ops (world st)) in
  let dt := time_step fmt now (last_update (self st)) in
  let st1 := with_self (set_last_update now) (tick_clock st) in
  dt = float_div fmt (float_of_int fmt (time_ticks_diff now (last_update (self st))))
                     (float_of_int fmt 1000)
  ∧ (∀ d, 0 ≤ last_update (self st) < TICKS_PERIOD → 0 ≤ d < TICKS_PERIOD / 2 →
          now = (last_update (self st) + d) mod TICKS_PERIOD →
          time_ticks_diff now (last_update (self st)) = d)
  ∧ last_update (self (final_state (update_theta fmt env st))) = now
  ∧ clock_ops (world (final_state (update_theta fmt env st))) = S (clock_ops (world st))
  ∧ get_theta fmt env st
    = match update_theta fmt env st with
      | Return _ st' => Return (theta (self st')) st'
      | Raise e st' => Raise e st'
      end
  ∧ (∀ e st2, get_omega fmt env st1 = Raise e st2 →
       update_theta fmt env st = Raise e st2
       ∧ _theta_f (self st2) = _theta_f (self st)
       ∧ theta (self st2) = theta (self st))
  ∧ (∀ omega st2, get_omega fmt env st1 = Return omega st2 →
       let tf' := euler_step fmt (_theta_f (self st)) omega dt in
       (∀ a, vec3_get a tf'
             = float_add fmt (vec3_get a (_theta_f (self st)))
                             (float_mul fmt (vec3_get a omega) dt))
       ∧ bus_ops (world st2) = (6 + bus_ops (world st))%nat
       ∧ ((∀ a, float_is_finite (vec3_get a tf') = true) →
          ∃ th' : vec3 Z,
            update_theta fmt env st = Return tt (with_self (set_angles th' tf') st2)
            ∧ get_theta fmt env st = Return th' (with_self (set_angles th' tf') st2)
            ∧ (∀ a, int_of_float (vec3_get a tf') = inr (vec3_get a th')))
       ∧ (∀ a, float_is_finite (vec3_get a tf') = false →
            (∀ b, (axis_index b < axis_index a)%nat →
                  float_is_finite (vec3_get b tf') = true) →
            ∃ e st',
              update_theta fmt env st = Raise e st'
              ∧ get_theta fmt env st = Raise e st'
              ∧ int_of_float (vec3_get a tf') = inl e
              ∧ (∀ b, vec3_get b (_theta_f (self st'))
                      = if (axis_index b <=? axis_index a)%nat then vec3_get b tf'
                        else vec3_get b (_theta_f (self st)))
              ∧ (∀ b, (axis_index b < axis_index a)%nat →
                      int_of_float (vec3_get b tf') = inr (vec3_get b (theta (self st'))))
              ∧ (∀ b, (axis_index a ≤ axis_index b)%nat →
                      vec3_get b (theta (self st')) = vec3_get b (theta (self st))))
       ∧ (vx omega = float_of_int fmt 10 →
          time_ticks_diff now (last_update (self st)) = 500 →
          float_mul fmt (vx omega) dt = float_of_int fmt 5
          ∧ vx tf' = float_add fmt (vx (_theta_f (self st))) (float_of_int fmt 5)
          ∧ (∀ k, Z.abs k < 2 ^ fmt_prec fmt → Z.abs (k + 5) < 2 ^ fmt_prec fmt →
                  vx (_theta_f (self st)) = float_of_int fmt k →
                  vx tf' = float_of_int fmt (k + 5)
                  ∧ int_of_float (vx tf') = inr (k + 5)))).
Proof.
  intros now dt st1.
  assert (Hfinal : last_update (self (final_state (update_theta fmt env st))) = now
                   ∧ clock_ops (world (final_state (update_theta fmt env st)))
                     = S (clock_ops (world st))).
  { rewrite update_theta_unfold. fold now dt st1.
    pose proof (unchanged (get_omega fmt env) st1 (preserves_get_omega _ _ _)) as Hs.
    pose proof (stable_get_omega fmt env
                  (λ s, clock_ops (world s) = S (clock_ops (world st))) (λ _ H, H)
                  st1 eq_refl) as Hw.
    destruct (get_omega fmt env st1) as [om s2|e s2] eqn:Hom; simpl in Hs, Hw.
    - pose proof (update_axes_spec om dt s2) as Hall. cbv zeta in Hall.
      destruct (float_is_finite (vx (euler_step fmt (_theta_f (self s2)) om dt))) eqn:Fx;
        [destruct (float_is_finite (vy (euler_step fmt (_theta_f (self s2)) om dt))) eqn:Fy;
         [destruct (float_is_finite (vz (euler_step fmt (_theta_f (self s2)) om dt))) eqn:Fz|]|].
      + destruct (float_is_finite_int _ Fx) as [ix Ix].
        destruct (float_is_finite_int _ Fy) as [iy Iy].
        destruct (float_is_finite_int _ Fz) as [iz Iz].
        rewrite Ix, Iy, Iz in Hall. rewrite Hall. simpl. rewrite Hs. split; [reflexivity|exact Hw].
      + destruct (update_axes_first_failure om dt s2 AxisZ Fz) as (e & s' & Hr & _ & _ & _ & _ & Hl & Hwd).
        { intros [] Hb; simpl in Hb; try lia; assumption. }
        rewrite Hr. simpl. rewrite Hl, Hwd, Hs. split; [reflexivity|exact Hw].
      + destruct (update_axes_first_failure om dt s2 AxisY Fy) as (e & s' & Hr & _ & _ & _ & _ & Hl & Hwd).
        { intros [] Hb; simpl in Hb; try lia; assumption. }
        rewrite Hr. simpl. rewrite Hl, Hwd, Hs. split; [reflexivity|exact Hw].
      + destruct (update_axes_first_failure om dt s2 AxisX Fx) as (e & s' & Hr & _ & _ & _ & _ & Hl & Hwd).
        { intros [] Hb; simpl in Hb; lia. }
        rewrite Hr. simpl. rewrite Hl, Hwd, Hs. split; [reflexivity|exact Hw].
    - simpl. rewrite Hs. split; [reflexivity|exact Hw]. }
  split; [reflexivity|].
  split; [intros d Hl Hd ->; apply ticks_diff_wraparound; assumption|].
  split; [exact (proj1 Hfinal)|].
  split; [exact (proj2 Hfinal)|].
  split; [apply get_theta_unfold|].
  split.
  { intros e st2 Hom.
    assert (Hup : update_theta fmt env st = Raise e st2)
      by (rewrite update_theta_unfold; fold now st1; rewrite Hom; reflexivity).
    split; [exact Hup|].
    pose proof (unchanged (get_omega fmt env) st1 (preserves_get_omega _ _ _)) as Hs.
    rewrite Hom in Hs. simpl in Hs. rewrite Hs. split; reflexivity. }
  intros omega st2 Hom tf'.
  pose proof (get_omega_self _ _ _ Hom) as Hself. simpl in Hself.
  assert (Htf : _theta_f (self st2) = _theta_f (self st)) by (rewrite Hself; reflexivity).
  assert (Hth : theta (self st2) = theta (self st)) by (rewrite Hself; reflexivity).
  split; [intros []; reflexivity|].
  split; [rewrite (get_omega_Return_inv _ _ _ _ _ Hom); reflexivity|].
  split.
  { intros Hfin.
    destruct (float_is_finite_int _ (Hfin AxisX)) as [ix Ix].
    destruct (float_is_finite_int _ (Hfin AxisY)) as [iy Iy].
    destruct (float_is_finite_int _ (Hfin AxisZ)) as [iz Iz].
    assert (Hup : update_theta fmt env st
                  = Return tt (with_self (set_angles (Vec3 ix iy iz) tf') st2)).
    { rewrite update_theta_unfold. fold now dt st1. rewrite Hom.
      pose proof (update_axes_spec omega dt st2) as H. cbv zeta in H.
      rewrite Htf in H. fold tf' in H.
      cbn [vec3_get] in Ix, Iy, Iz. rewrite Ix, Iy, Iz in H. exact H. }
    exists (Vec3 ix iy iz).
    split; [exact Hup|].
    split; [rewrite get_theta_unfold, Hup; reflexivity|].
    intros []; assumption. }
  split.
  { intros a Hbad Hbefore.
    pose proof (update_axes_first_failure omega dt st2 a) as H. cbv zeta in H.
    rewrite Htf in H. fold tf' in H.
    destruct (H Hbad Hbefore) as (e & st' & Hr & He & Hacc & Hint & Hold & _ & _).
    assert (Hup : update_theta fmt env st = Raise e st')
      by (rewrite update_theta_unfold; fold now dt st1; rewrite Hom; exact Hr).
    exists e, st'.
    split; [exact Hup|].
    split; [rewrite get_theta_unfold, Hup; reflexivity|].
    split; [exact He|].
    split; [exact Hacc|].
    split; [exact Hint|].
    intros b Hb. rewrite (Hold b Hb), Hth. reflexivity. }
  intros Hx Hd.
  destruct half_second_step as (Hmul & Hadd & _).
  assert (Hprod : float_mul fmt (vx omega) dt = float_of_int fmt 5)
    by (unfold dt, time_step; rewrite Hx, Hd; exact Hmul).
  assert (Hstep : vx tf' = float_add fmt (vx (_theta_f (self st))) (float_of_int fmt 5))
    by (unfold tf', euler_step; cbn [vx]; rewrite Hprod; reflexivity).
  split; [exact Hprod|]. split; [exact Hstep|].
  intros k Hk Hk5 Hold.
  assert (Hnew : vx tf' = float_of_int fmt (k + 5)).
  { rewrite Hstep, Hold. apply float_add_int; [exact Hk | destruct fmt; simpl; lia | exact Hk5]. }
  split; [exact Hnew|]. rewrite Hnew. apply int_of_float_int, Hk5.
Qed.
End Integration.

(** Against C2 as stated, in two ways.  The advance is not always 5.0: on
    a driver whose x accumulator has reached 2^24 (binary32; 2^53 in
    binary64) through public calls, a [get_theta] with omega.x = 10.0 and
    Δt = 0.5 s takes the accumulator to 2^24 + 4, since 2^24 + 5 is not a
    float.  And the loop does not reach every axis: with a finite factor
    and a finite bias, the rates are finite, the x accumulator overflows,
    [int] raises [OverflowError], and y and z are not integrated although
    their increment 3 * 2^(emax-2) is finite. *)
Lemma update_theta_euler_fails :
  let env := const_env Byte.x05 Byte.x1e 500 in
  let env' := const_env Byte.x00 Byte.x01 3000 in
  let s32 := saturated_state Binary32 in
  let s64 := saturated_state Binary64 in
  let o32 := overflowing_state Binary32 in
  let o64 := overflowing_state Binary64 in
  let after32 := get_theta Binary32 env s32 in
  let after64 := get_theta Binary64 env s64 in
  let raised32 := update_theta Binary32 env' o32 in
  let raised64 := update_theta Binary64 env' o64 in
  (exn_of (__init__ Binary32 env 0x68 (sample_state Binary32)) = None
   ∧ vx (_theta_f (self s32)) = float_of_int Binary32 (2 ^ 24)
   ∧ time_ticks_ms env (clock_ops (world s32)) = 2000
   ∧ last_update (self s32) = 1500
   ∧ time_step Binary32 2000 1500
     = float_div Binary32 (float_of_int Binary32 1) (float_of_int Binary32 2)
   ∧ returned (get_omega Binary32 env (with_self (set_last_update 2000) (tick_clock s32)))
     = Some (Vec3 (float_of_int Binary32 10) (float_of_int Binary32 10)
                  (float_of_int Binary32 10))
   ∧ returned after32 = Some (Vec3 (2 ^ 24 + 4) (2 ^ 24 + 4) (2 ^ 24 + 4))
   ∧ vx (_theta_f (self (final_state after32))) = float_of_int Binary32 (2 ^ 24 + 4)
   ∧ float_sub Binary32 (float_of_int Binary32 (2 ^ 24 + 4)) (float_of_int Binary32 (2 ^ 24))
     = float_of_int Binary32 4
   ∧ float_eqb (float_of_int Binary32 4) (float_of_int Binary32 5) = false)
  ∧ (exn_of (__init__ Binary64 env 0x68 (sample_state Binary64)) = None
     ∧ vx (_theta_f (self s64)) = float_of_int Binary64 (2 ^ 53)
     ∧ time_ticks_ms env (clock_ops (world s64)) = 2000
     ∧ last_update (self s64) = 1500
     ∧ time_step Binary64 2000 1500
       = float_div Binary64 (float_of_int Binary64 1) (float_of_int Binary64 2)
     ∧ returned (get_omega Binary64 env (with_self (set_last_update 2000) (tick_clock s64)))
       = Some (Vec3 (float_of_int Binary64 10) (float_of_int Binary64 10)
                    (float_of_int Binary64 10))
     ∧ returned after64 = Some (Vec3 (2 ^ 53 + 4) (2 ^ 53 + 4) (2 ^ 53 + 4))
     ∧ vx (_theta_f (self (final_state after64))) = float_of_int Binary64 (2 ^ 53 + 4)
     ∧ float_sub Binary64 (float_of_int Binary64 (2 ^ 53 + 4))
                          (float_of_int Binary64 (2 ^ 53))
       = float_of_int Binary64 4
     ∧ float_eqb (float_of_int Binary64 4) (float_of_int Binary64 5) = false)
  ∧ (exn_of (__init__ Binary32 env' 0x68 (sample_state Binary32)) = None
     ∧ float_is_finite (omega_offset_sensetivity_factor (self o32)) = true
     ∧ time_ticks_ms env' (clock_ops (world o32)) = 4000
     ∧ last_update (self o32) = 1000
     ∧ time_step Binary32 4000 1000 = float_of_int Binary32 3
     ∧ returned (get_omega Binary32 env' (with_self (set_last_update 4000) (tick_clock o32)))
       = Some (Vec3 (float_of_int Binary32 (2 ^ 127)) (float_of_int Binary32 (2 ^ 126))
                    (float_of_int Binary32 (2 ^ 126)))
     ∧ float_mul Binary32 (float_of_int Binary32 (2 ^ 126)) (float_of_int Binary32 3)
       = float_of_int Binary32 (3 * 2 ^ 126)
     ∧ float_is_finite (float_of_int Binary32 (3 * 2 ^ 126)) = true
     ∧ exn_of raised32 = Some OverflowError
     ∧ _theta_f (self (final_state raised32))
       = Vec3 (S754_infinity false) (S754_zero false) (S754_zero false)
     ∧ theta (self (final_state raised32)) = Vec3 0 0 0
     ∧ last_update (self (final_state raised32)) = 4000)
  ∧ (exn_of (__init__ Binary64 env' 0x68 (sample_state Binary64)) = None
     ∧ float_is_finite (omega_offset_sensetivity_factor (self o64)) = true
     ∧ returned (get_omega Binary64 env' (with_self (set_last_update 4000) (tick_clock o64)))
       = Some (Vec3 (float_of_int Binary64 (2 ^ 1023)) (float_of_int Binary64 (2 ^ 1022))
                    (float_of_int Binary64 (2 ^ 1022)))
     ∧ float_mul Binary64 (float_of_int Binary64 (2 ^ 1022)) (float_of_int Binary64 3)
       = float_of_int Binary64 (3 * 2 ^ 1022)
     ∧ float_is_finite (float_of_int Binary64 (3 * 2 ^ 1022)) = true
     ∧ exn_of raised64 = Some OverflowError
     ∧ _theta_f (self (final_state raised64))
       = Vec3 (S754_infinity false) (S754_zero false) (S754_zero false)
     ∧ theta (self (final_state raised64)) = Vec3 0 0 0).
Proof. vm_compute. repeat split; reflexivity. Qed.

(** ** The integer view *)

Lemma trunc_vs_floor (s : bool) (m : positive) (e : Z) :
  ∃ t fl, int_of_float (S754_finite s m e) = inr t
        ∧ floor_of_float (S754_finite s m e) = inr fl
        ∧ Z.abs t = Z.shiftl (Z.pos m) e
        ∧ (s = false → 0 ≤ t ∧ t = fl)
        ∧ (s = true → t ≤ 0 ∧ (t = fl ∨ t = fl + 1))
        ∧ (s = true → e < 0 → Z.pos m mod 2 ^ (- e) ≠ 0 → t = fl + 1).
Proof.
  exists (cond_Zopp s (Z.shiftl (Z.pos m) e)), (Z.shiftl (cond_Zopp s (Z.pos m)) e).
  split; [reflexivity|]. split; [reflexivity|].
  assert (Hpos : 0 ≤ Z.shiftl (Z.pos m) e) by (apply Z.shiftl_nonneg; lia).
  split; [destruct s; simpl; lia|].
  split; [intros ->; simpl; lia|].
  assert (Hneg : s = true →
    (e < 0 → Z.pos m mod 2 ^ (- e) ≠ 0 →
       cond_Zopp s (Z.shiftl (Z.pos m) e) = Z.shiftl (cond_Zopp s (Z.pos m)) e + 1)
    ∧ (cond_Zopp s (Z.shiftl (Z.pos m) e) = Z.shiftl (cond_Zopp s (Z.pos m)) e
       ∨ cond_Zopp s (Z.shiftl (Z.pos m) e) = Z.shiftl (cond_Zopp s (Z.pos m)) e + 1)).
  { intros ->. simpl cond_Zopp.
    destruct (Z.le_gt_cases 0 e) as [He|He].
    - split; [lia|]. left. rewrite !Z.shiftl_mul_pow2 by lia. lia.
    - rewrite <- !Z.shiftr_opp_r, !Z.shiftr_div_pow2 by lia.
      assert (H2 : 0 < 2 ^ (- e)) by (apply Z.pow_pos_nonneg; lia).
      change (Z.neg m) with (- Z.pos m).
      destruct (Z.eq_dec (Z.pos m mod 2 ^ (- e)) 0) as [Hz|Hnz].
      + split; [contradiction|]. left. rewrite Z.div_opp_l_z by lia. reflexivity.
      + rewrite Z.div_opp_l_nz by lia. split; [lia|right; lia]. }
  split.
  - intros Hs. destruct (Hneg Hs) as [_ H]. split; [subst s; simpl; lia | exact H].
  - intros Hs. apply (proj1 (Hneg Hs)).
Qed.

Section IntegerView.
Variable fmt : float_format.
Variable env : Env.

Lemma set_angles_truncated th tf d :
  (∀ a, int_of_float (vec3_get a tf) = inr (vec3_get a th)) →
  theta_truncated (set_angles th tf d).
Proof. intros H a. apply H. Qed.

Lemma update_theta_truncated st st' :
  update_theta fmt env st = Return tt st' → theta_truncated (self st').
Proof.
  rewrite update_theta_unfold.
  destruct (get_omega fmt env _) as [omega st2|e st2]; [|discriminate].
  pose proof (update_axes_spec fmt omega
    (time_step fmt (time_ticks_ms env (clock_ops (world st))) (last_update (self st)))
    st2) as H.
  cbv zeta in H.
  destruct (int_of_float (vx _)) as [e|ix] eqn:Ix;
    [destruct H as (e' & s' & ->); discriminate|].
  destruct (int_of_float (vy _)) as [e|iy] eqn:Iy;
    [destruct H as (e' & s' & ->); discriminate|].
  destruct (int_of_float (vz _)) as [e|iz] eqn:Iz;
    [destruct H as (e' & s' & ->); discriminate|].
  rewrite H. intros [= <-]. apply set_angles_truncated.
  intros []; assumption.
Qed.

Lemma int_of_float_raises x e :
  int_of_float x = inl e → e = ValueError ∨ e = OverflowError.
Proof. destruct x; simpl; intros [= <-]; auto. Qed.

Lemma update_axis_Raise_inv omega dt a st e st' :
  update_axis fmt omega dt a st = Raise e st' → e = ValueError ∨ e = OverflowError.
Proof.
  rewrite update_axis_unfold.
  destruct (int_of_float _) as [e'|i] eqn:E; [|discriminate].
  intros [= <- _]. exact (int_of_float_raises _ _ E).
Qed.

(** An [update_theta] that raises anything but the errors of [int] has
    left both angle dicts as they were. *)
Lemma update_theta_Raise_inv st e st' :
  update_theta fmt env st = Raise e st' →
  e = ValueError ∨ e = OverflowError
  ∨ (theta (self st') = theta (self st) ∧ _theta_f (self st') = _theta_f (self st)).
Proof.
  rewrite update_theta_unfold.
  destruct (get_omega fmt env _) as [omega st2|e2 st2] eqn:Hom.
  - intros H.
    apply bind_Raise_inv in H as [H|([] & s1 & _ & H)];
      [apply update_axis_Raise_inv in H; tauto|].
    apply bind_Raise_inv in H as [H|([] & s2 & _ & H)];
      apply update_axis_Raise_inv in H; tauto.
  - intros [= <- <-]. right. right.
    pose proof (preserves_get_omega fmt env
      (λ d, theta d = theta (self st) ∧ _theta_f d = _theta_f (self st))
      (with_self (set_last_update (time_ticks_ms env (clock_ops (world st))))
                 (tick_clock st))
      (conj eq_refl eq_refl)) as U.
    rewrite Hom in U. exact U.
Qed.

Lemma reset_theta_unfold st :
  reset_theta env st
  = Return tt
      (with_self (λ d, set_last_update (time_ticks_ms env (clock_ops (world st)))
                         (set_theta_f (Vec3 (S754_zero false) (S754_zero false)
                                            (S754_zero false))
                            (set_theta (Vec3 0 0 0) d)))
                 (tick_clock st)).
Proof. reflexivity. Qed.

Lemma init_Return_inv a st st' :
  __init__ fmt env a st = Return tt st' →
  ∃ st1 st2 offset,
    _calibrate_gyro fmt env 200 st1 = Return offset st2
    ∧ addr (self st1) = a
    ∧ omega_offset_sensetivity_factor (self st1) = float_of_int fmt 131
    ∧ accel_offset_sensetivity_factor (self st1) = float_of_int fmt 16384
    ∧ theta (self st1) = Vec3 0 0 0
    ∧ _theta_f (self st1) = Vec3 (S754_zero false) (S754_zero false) (S754_zero false)
    ∧ st' = with_self (set_omega_offset offset) st2.
Proof.
  unfold __init__. intros H.
  apply bind_Return_inv in H as ([] & s1 & [= <-] & H).
  apply bind_Return_inv in H as ([] & s2 & Hw & H).
  apply bind_Return_inv in H as ([] & s3 & [= <-] & H).
  apply bind_Return_inv in H as ([] & s4 & [= <-] & H).
  apply bind_Return_inv in H as ([] & s5 & [= <-] & H).
  apply bind_Return_inv in H as ([] & s6 & [= <-] & H).
  apply bind_Return_inv in H as ([] & s7 & [= <-] & H).
  apply bind_Return_inv in H as (now & s8 & [= <- <-] & H).
  apply bind_Return_inv in H as ([] & s9 & [= <-] & H).
  apply bind_Return_inv in H as (offset & s10 & Hc & H).
  injection H as <-.
  unfold writeto_mem in Hw. simpl in Hw.
  destruct (i2c_writeto_mem _ _ _ _ _); [|discriminate].
  injection Hw as <-.
  eexists _, s10, offset. split; [exact Hc|]. repeat split.
Qed.

Lemma calibrate_gyro_self N st m st' :
  _calibrate_gyro fmt env N st = Return m st' → self st' = self st.
Proof.
  intros H.
  pose proof (unchanged (_calibrate_gyro fmt env N) st (preserves_calibrate_gyro _ _ _ _)) as U.
  rewrite H in U. exact U.
Qed.

End IntegerView.

(** ** Reset *)

Section Reset.
Variable fmt : float_format.
Variable env : Env.

Lemma zero_step_keeps_zero (om : float) :
  float_is_finite om = true →
  float_add fmt (S754_zero false) (float_mul fmt om (S754_zero false)) = S754_zero false.
Proof. destruct om as [[]|[]| |[] m e]; try discriminate; reflexivity. Qed.

Lemma time_step_zero now last :
  time_ticks_diff now last = 0 → time_step fmt now last = S754_zero false.
Proof. intros H. unfold time_step. rewrite H. destruct fmt; reflexivity. Qed.

(** C9: [reset_theta] always returns; it zeroes [theta] and [_theta_f] on
    the three axes, sets [last_update] to the current tick and leaves the
    bias, both sensitivity factors and the address as they were.  A
    [get_theta] that follows with Δt = 0 and reads a finite angular
    velocity returns {0, 0, 0}. *)
Theorem reset_theta_frame (st : State) :
  ∃ st',
    reset_theta env st = Return tt st'
    ∧ theta (self st') = Vec3 0 0 0
    ∧ _theta_f (self st') = Vec3 (S754_zero false) (S754_zero false) (S754_zero false)
    ∧ last_update (self st') = time_ticks_ms env (clock_ops (world st))
    ∧ omega_offset (self st') = omega_offset (self st)
    ∧ omega_offset_sensetivity_factor (self st') = omega_offset_sensetivity_factor (self st)
    ∧ accel_offset_sensetivity_factor (self st') = accel_offset_sensetivity_factor (self st)
    ∧ addr (self st') = addr (self st)
    ∧ world st' = world (tick_clock st)
    ∧ (∀ omega st2,
         time_ticks_diff (time_ticks_ms env (clock_ops (world st')))
                         (last_update (self st')) = 0 →
         get_omega fmt env
           (with_self (set_last_update (time_ticks_ms env (clock_ops (world st'))))
                      (tick_clock st')) = Return omega st2 →
         (∀ a, float_is_finite (vec3_get a omega) = true) →
         get_theta fmt env st'
         = Return (Vec3 0 0 0)
             (with_self (set_angles (Vec3 0 0 0)
                (Vec3 (S754_zero false) (S754_zero false) (S754_zero false))) st2)).
Proof.
  eexists. split; [apply reset_theta_unfold|].
  repeat (split; [reflexivity|]).
  intros omega st2 Hdt Hom Hfin.
  rewrite get_theta_unfold, update_theta_unfold, Hom.
  rewrite (time_step_zero _ _ Hdt).
  pose proof (update_axes_spec fmt omega (S754_zero false) st2) as H. cbv zeta in H.
  pose proof (get_omega_self _ _ _ _ _ Hom) as Hself. simpl in Hself.
  assert (Htf : _theta_f (self st2)
                = Vec3 (S754_zero false) (S754_zero false) (S754_zero false))
    by (rewrite Hself; reflexivity).
  rewrite Htf in H. unfold euler_step in H. cbn [vx vy vz] in H.
  rewrite (zero_step_keeps_zero (vx omega) (Hfin AxisX)),
    (zero_step_keeps_zero (vy omega) (Hfin AxisY)),
    (zero_step_keeps_zero (vz omega) (Hfin AxisZ)) in H.
  cbn [int_of_float] in H. rewrite H. reflexivity.
Qed.
End Reset.

(** ** The stored bias always has the three axes *)

Section OffsetInvariant.
Variable fmt : float_format.
Variable env : Env.

Lemma dict_iadd_Return_inv k v d d' st st' :
  dict_iadd fmt k v d st = Return d' st' → dom d' = dom d ∧ st' = st.
Proof.
  unfold dict_iadd, dict_getitem. rewrite bind_unfold.
  destruct (d !! k) as [old|] eqn:E; [|discriminate].
  intros [= <- <-]. split; [|reflexivity].
  rewrite dom_insert_L. apply elem_of_dom_2 in E. set_solver.
Qed.

Lemma calibrate_loop_dom n : ∀ offset st off st',
  calibrate_loop fmt env n offset st = Return off st' → dom off = dom offset.
Proof.
  induction n as [|n IH]; intros offset st off st' H; simpl in H.
  - injection H as <- <-. reflexivity.
  - apply bind_Return_inv in H as (gx & s1 & _ & H).
    apply bind_Return_inv in H as (gy & s2 & _ & H).
    apply bind_Return_inv in H as (gz & s3 & _ & H).
    apply bind_Return_inv in H as (o1 & s4 & Hx & H).
    apply bind_Return_inv in H as (o2 & s5 & Hy & H).
    apply bind_Return_inv in H as (o3 & s6 & Hz & H).
    apply bind_Return_inv in H as ([] & s7 & _ & H).
    apply IH in H.
    apply dict_iadd_Return_inv in Hx as [Hx _], Hy as [Hy _], Hz as [Hz _].
    congruence.
Qed.

Lemma items_div_keys items : ∀ samples st items' st',
  items_div fmt items samples st = Return items' st' → items'.*1 = items.*1.
Proof.
  induction items as [|[k v] items IH]; intros samples st items' st' H; simpl in H.
  - injection H as <- <-. reflexivity.
  - apply bind_Return_inv in H as (q & s1 & _ & H).
    apply bind_Return_inv in H as (rest & s2 & Hr & H).
    injection H as <- <-. simpl. f_equal. apply (IH _ _ _ _ Hr).
Qed.

Lemma calibrate_gyro_dom N st m st' :
  _calibrate_gyro fmt env N st = Return m st' →
  dom m = ({["x"; "y"; "z"]} : gset string).
Proof.
  unfold _calibrate_gyro. cbv zeta. intros H.
  apply bind_Return_inv in H as (off & s1 & Hl & H).
  apply bind_Return_inv in H as (items & s2 & Hi & H).
  injection H as <- <-.
  apply calibrate_loop_dom in Hl. apply items_div_keys in Hi.
  rewrite dom_list_to_map_L, Hi, <- dom_list_to_map_L, list_to_map_to_list, Hl.
  apply axes_dict_dom.
Qed.

Lemma dom_has_axes (d : MPU6050) :
  ({["x"; "y"; "z"]} : gset string) ⊆ dom (omega_offset d) → offset_has_axes d.
Proof.
  intros H a. apply elem_of_dom. apply H. destruct a; set_solver.
Qed.

Section Angles.
Variable I : MPU6050 → Prop.
Hypothesis I_theta : ∀ v d, I d → I (set_theta v d).
Hypothesis I_theta_f : ∀ v d, I d → I (set_theta_f v d).
Hypothesis I_last_update : ∀ v d, I d → I (set_last_update v d).

Lemma preserves_update_axis omega dt a : preserves I (update_axis fmt omega dt a).
Proof.
  unfold update_axis.
  repeat first [ apply preserves_bind; [|intros ?] | apply preserves_modify
               | apply preserves_gets | apply preserves_lift ]; auto.
Qed.

Lemma preserves_update_theta : preserves I (update_theta fmt env).
Proof.
  unfold update_theta.
  repeat first [ apply preserves_get_omega | apply preserves_update_axis
               | apply preserves_ticks_ms | apply preserves_gets
               | apply preserves_lift | apply preserves_modify
               | apply preserves_bind; [|intros ?] ]; auto.
Qed.

Lemma preserves_get_theta : preserves I (get_theta fmt env).
Proof.
  unfold get_theta. apply preserves_bind; [apply preserves_update_theta|].
  intros ?. apply preserves_gets.
Qed.

Lemma preserves_reset_theta : preserves I (reset_theta env).
Proof.
  unfold reset_theta.
  repeat first [ apply preserves_bind; [|intros ?] | apply preserves_modify
               | apply preserves_ticks_ms ]; auto.
Qed.
End Angles.

Lemma reset_gyro_offset_has_axes st :
  offset_has_axes (self st) →
  offset_has_axes (self (final_state (reset_gyro_offset fmt env st))).
Proof.
  intros H. unfold reset_gyro_offset. rewrite bind_unfold.
  destruct (_calibrate_gyro fmt env 200 st) as [m st1|e st1] eqn:Hc.
  - simpl. apply dom_has_axes. simpl. rewrite (calibrate_gyro_dom _ _ _ _ Hc). reflexivity.
  - pose proof (preserves_calibrate_gyro fmt env offset_has_axes 200 st H) as P.
    rewrite Hc in P. exact P.
Qed.

Lemma set_gyro_offset_has_axes offset st :
  offset_has_axes (self st) →
  offset_has_axes (self (final_state (set_gyro_offset offset st))).
Proof.
  intros H.
  destruct (decide (is_Some (offset !! "x") ∧ is_Some (offset !! "y")
                    ∧ is_Some (offset !! "z"))) as [Hk|Hk].
  - rewrite (set_gyro_offset_accepts _ _ Hk). simpl.
    intros []; simpl; tauto.
  - rewrite (set_gyro_offset_rejects _ _ Hk). exact H.
Qed.

Lemma run_call_has_axes c st :
  offset_has_axes (self st) → offset_has_axes (self (run_call fmt env c st)).
Proof.
  intros H. destruct c; simpl.
  - exact (preserves_get_temp fmt env offset_has_axes st H).
  - exact (preserves_get_accel fmt env offset_has_axes st H).
  - exact (preserves_get_omega fmt env offset_has_axes st H).
  - exact (preserves_update_theta offset_has_axes
             (λ _ _ h, h) (λ _ _ h, h) (λ _ _ h, h) st H).
  - exact (preserves_get_theta offset_has_axes
             (λ _ _ h, h) (λ _ _ h, h) (λ _ _ h, h) st H).
  - exact (preserves_reset_theta offset_has_axes
             (λ _ _ h, h) (λ _ _ h, h) (λ _ _ h, h) st H).
  - exact (reset_gyro_offset_has_axes st H).
  - exact (set_gyro_offset_has_axes _ st H).
  - exact H.
  - exact H.
Qed.

Lemma run_calls_has_axes cs : ∀ st,
  offset_has_axes (self st) → offset_has_axes (self (run_calls fmt env cs st)).
Proof.
  induction cs as [|c cs IH]; intros st H; simpl; [exact H|].
  apply IH, run_call_has_axes, H.
Qed.

Lemma readfrom_mem_Raise_inv reg st e st' :
  readfrom_mem env reg st = Raise e st' → e = OSError.
Proof.
  unfold readfrom_mem. destruct (i2c_readfrom_mem _ _ _ _); congruence.
Qed.

Lemma read_raw_data_Raise_inv reg st e st' :
  _read_raw_data env reg st = Raise e st' → e = OSError.
Proof.
  unfold _read_raw_data. intros H.
  apply bind_Raise_inv in H as [H|(h & s1 & _ & H)];
    [exact (readfrom_mem_Raise_inv _ _ _ _ H)|].
  apply bind_Raise_inv in H as [H|(l & s2 & _ & H)];
    [exact (readfrom_mem_Raise_inv _ _ _ _ H) | discriminate].
Qed.

Lemma read_scaled_Raise_inv reg factor st e st' :
  read_scaled fmt env reg factor st = Raise e st' →
  e = OSError ∨ e = ZeroDivisionError.
Proof.
  unfold read_scaled. intros H.
  apply bind_Raise_inv in H as [H|(raw & s1 & _ & H)];
    [left; exact (read_raw_data_Raise_inv _ _ _ _ H)|].
  rewrite bind_unfold in H. unfold gets, lift, float_truediv in H.
  destruct (float_is_zero _); [|discriminate].
  injection H as <- _. right. reflexivity.
Qed.

Lemma get_omega_no_KeyError st k st' :
  offset_has_axes (self st) → get_omega fmt env st ≠ Raise (KeyError k) st'.
Proof.
  intros Hax H. unfold get_omega in H.
  apply bind_Raise_inv in H as [H|(gx & s1 & Hx & H)];
    [apply read_scaled_Raise_inv in H as [|]; discriminate|].
  apply bind_Raise_inv in H as [H|(gy & s2 & Hy & H)];
    [apply read_scaled_Raise_inv in H as [|]; discriminate|].
  apply bind_Raise_inv in H as [H|(gz & s3 & Hz & H)];
    [apply read_scaled_Raise_inv in H as [|]; discriminate|].
  assert (Hs : self s3 = self st).
  { pose proof (unchanged _ st (preserves_read_scaled fmt env _ _GYRO_XOUT_H
                  omega_offset_sensetivity_factor)) as U1. rewrite Hx in U1.
    pose proof (unchanged _ s1 (preserves_read_scaled fmt env _ _GYRO_YOUT_H
                  omega_offset_sensetivity_factor)) as U2. rewrite Hy in U2.
    pose proof (unchanged _ s2 (preserves_read_scaled fmt env _ _GYRO_ZOUT_H
                  omega_offset_sensetivity_factor)) as U3. rewrite Hz in U3.
    simpl in *. congruence. }
  destruct (Hax AxisX) as [ox Ox], (Hax AxisY) as [oy Oy], (Hax AxisZ) as [oz Oz].
  simpl in Ox, Oy, Oz. rewrite <- Hs in Ox, Oy, Oz.
  rewrite (bind_Return _ _ _ _ _ (offset_lookup_Return "x" s3 ox Ox)) in H.
  rewrite (bind_Return _ _ _ _ _ (offset_lookup_Return "y" s3 oy Oy)) in H.
  rewrite (bind_Return _ _ _ _ _ (offset_lookup_Return "z" s3 oz Oz)) in H.
  discriminate.
Qed.

(** C10: once the constructor has returned, the stored [omega_offset] has
    the keys x, y and z after any sequence of public calls, whether they
    return or raise: [_calibrate_gyro] returns a mapping with exactly
    these keys and [set_gyro_offset] stores only mappings that contain
    them; so [get_omega] never raises [KeyError]. *)
Theorem offset_always_has_axes (a : Z) (st0 st : State) (calls : list call) :
  __init__ fmt env a st0 = Return tt st →
  offset_has_axes (self (run_calls fmt env calls st))
  ∧ (∀ k st', get_omega fmt env (run_calls fmt env calls st) ≠ Raise (KeyError k) st')
  ∧ dom (omega_offset (self st)) = ({["x"; "y"; "z"]} : gset string)
  ∧ (∀ N s m s', _calibrate_gyro fmt env N s = Return m s' →
       dom m = ({["x"; "y"; "z"]} : gset string))
  ∧ (∀ offset s s', set_gyro_offset offset s = Return tt s' →
       offset_has_axes (self s')).
Proof.
  intros Hinit.
  apply init_Return_inv in Hinit as (s1 & s2 & offset & Hc & _ & _ & _ & _ & _ & ->).
  pose proof (calibrate_gyro_dom _ _ _ _ Hc) as Hdom.
  assert (H0 : offset_has_axes (self (with_self (set_omega_offset offset) s2)))
    by (apply dom_has_axes; simpl; rewrite Hdom; reflexivity).
  pose proof (run_calls_has_axes calls _ H0) as Hinv.
  split; [exact Hinv|].
  split; [intros k st'; apply get_omega_no_KeyError, Hinv|].
  split; [exact Hdom|].
  split; [exact calibrate_gyro_dom|].
  intros off s s' Hs.
  destruct (decide (is_Some (off !! "x") ∧ is_Some (off !! "y")
                    ∧ is_Some (off !! "z"))) as [Hk|Hk].
  - rewrite (set_gyro_offset_accepts _ _ Hk) in Hs. injection Hs as <-.
    intros []; simpl; tauto.
  - rewrite (set_gyro_offset_rejects _ _ Hk) in Hs. discriminate.
Qed.
End OffsetInvariant.

(** ** The integer view after every call *)

Section ViewAfterCalls.
Variable fmt : float_format.
Variable env : Env.

Lemma get_omega_Raise_cases st e st' :
  get_omega fmt env st = Raise e st' →
  e = OSError ∨ e = ZeroDivisionError ∨ ∃ k, e = KeyError k.
Proof.
  intros H. unfold get_omega in H.
  apply bind_Raise_inv in H as [H|(gx & s1 & _ & H)];
    [apply read_scaled_Raise_inv in H as [|]; auto|].
  apply bind_Raise_inv in H as [H|(gy & s2 & _ & H)];
    [apply read_scaled_Raise_inv in H as [|]; auto|].
  apply bind_Raise_inv in H as [H|(gz & s3 & _ & H)];
    [apply read_scaled_Raise_inv in H as [|]; auto|].
  assert (Hl : ∀ k s e' s', (d ← gets omega_offset; dict_getitem k d) s = Raise e' s' →
                 e' = KeyError k).
  { intros k s e' s'. rewrite bind_unfold. unfold gets, dict_getitem.
    destruct (_ !! k); [discriminate|]. intros [= <- _]. reflexivity. }
  apply bind_Raise_inv in H as [H|(ox & s4 & _ & H)]; [apply Hl in H; eauto|].
  apply bind_Raise_inv in H as [H|(oy & s5 & _ & H)]; [apply Hl in H; eauto|].
  apply bind_Raise_inv in H as [H|(oz & s6 & _ & H)]; [apply Hl in H; eauto|].
  discriminate.
Qed.

(** What an [update_theta] that raises leaves behind: after an error of
    the read both angle dicts are as before; after an error of [int] one
    axis holds a NaN or infinite accumulator beside its old integer. *)
Lemma update_theta_Raise_view st e st' :
  update_theta fmt env st = Raise e st' →
  (e ≠ ValueError ∧ e ≠ OverflowError
   ∧ theta (self st') = theta (self st) ∧ _theta_f (self st') = _theta_f (self st))
  ∨ ((e = ValueError ∨ e = OverflowError)
     ∧ ∃ a, float_is_finite (vec3_get a (_theta_f (self st'))) = false
            ∧ vec3_get a (theta (self st')) = vec3_get a (theta (self st))).
Proof.
  rewrite update_theta_unfold.
  destruct (get_omega fmt env _) as [omega st2|e2 st2] eqn:Hom.
  - intros H. right.
    pose proof (get_omega_self _ _ _ _ _ Hom) as Hself. simpl in Hself.
    assert (Hth : theta (self st2) = theta (self st)) by (rewrite Hself; reflexivity).
    set (dt := time_step fmt (time_ticks_ms env (clock_ops (world st)))
                         (last_update (self st))) in *.
    assert (Hfirst : ∃ a,
      float_is_finite (vec3_get a (euler_step fmt (_theta_f (self st2)) omega dt)) = false
      ∧ ∀ b, (axis_index b < axis_index a)%nat →
             float_is_finite (vec3_get b (euler_step fmt (_theta_f (self st2)) omega dt))
             = true).
    { destruct (float_is_finite (vec3_get AxisX
                  (euler_step fmt (_theta_f (self st2)) omega dt))) eqn:Fx.
      2: { exists AxisX. split; [exact Fx|]. intros [] Hb; simpl in Hb; lia. }
      destruct (float_is_finite (vec3_get AxisY
                  (euler_step fmt (_theta_f (self st2)) omega dt))) eqn:Fy.
      2: { exists AxisY. split; [exact Fy|].
           intros [] Hb; simpl in Hb; try lia; exact Fx. }
      destruct (float_is_finite (vec3_get AxisZ
                  (euler_step fmt (_theta_f (self st2)) omega dt))) eqn:Fz.
      2: { exists AxisZ. split; [exact Fz|].
           intros [] Hb; simpl in Hb; try lia; assumption. }
      exfalso.
      pose proof (update_axes_spec fmt omega dt st2) as Hall. cbv zeta in Hall.
      destruct (float_is_finite_int _ Fx) as [ix Ix].
      destruct (float_is_finite_int _ Fy) as [iy Iy].
      destruct (float_is_finite_int _ Fz) as [iz Iz].
      cbn [vec3_get] in Ix, Iy, Iz. rewrite Ix, Iy, Iz in Hall.
      rewrite Hall in H. discriminate. }
    destruct Hfirst as (a & Hbad & Hbefore).
    destruct (update_axes_first_failure fmt omega dt st2 a Hbad Hbefore)
      as (e' & s' & Hr & He & Hacc & _ & Hold & _).
    rewrite Hr in H. injection H as <- <-.
    split; [exact (int_of_float_raises _ _ He)|].
    exists a. split.
    + rewrite (Hacc a), Nat.leb_refl. exact Hbad.
    + rewrite (Hold a (le_n _)), Hth. reflexivity.
  - intros [= <- <-]. left.
    pose proof (preserves_get_omega fmt env
      (λ d, theta d = theta (self st) ∧ _theta_f d = _theta_f (self st))
      (with_self (set_last_update (time_ticks_ms env (clock_ops (world st))))
                 (tick_clock st))
      (conj eq_refl eq_refl)) as U.
    rewrite Hom in U.
    destruct (get_omega_Raise_cases _ _ _ Hom) as [->|[->|[k ->]]];
      (split; [discriminate|]; split; [discriminate|]; exact U).
Qed.

(** C7 (as amended): after construction, after [reset_theta] and after
    every [update_theta] or [get_theta] that returns, the integer view
    [theta] is, on each axis, the accumulator [_theta_f] truncated toward
    zero, and [get_theta] returns that view; the update returns whenever
    the read returns and the three new accumulators are finite.  An
    update that raises an error of the read leaves both dicts as they
    were.  One that raises the error of [int] ([ValueError] on NaN,
    [OverflowError] on an infinity) leaves an axis with a NaN or infinite
    accumulator beside its old integer, so that the view is no longer the
    truncation; [get_theta] raises with it.  The truncation agrees with
    the floor on non-negative and on integral values and is one more than
    the floor on the other negative ones. *)
Theorem theta_is_truncated_accumulator :
  (∀ a st st', __init__ fmt env a st = Return tt st' → theta_truncated (self st'))
  ∧ (∀ st, ∃ st', reset_theta env st = Return tt st' ∧ theta_truncated (self st'))
  ∧ (∀ st omega st2,
       let now := time_ticks_ms env (clock_ops (world st)) in
       let tf' := euler_step fmt (_theta_f (self st)) omega
                    (time_step fmt now (last_update (self st))) in
       get_omega fmt env (with_self (set_last_update now) (tick_clock st))
       = Return omega st2 →
       (∀ a, float_is_finite (vec3_get a tf') = true) →
       ∃ th st',
         update_theta fmt env st = Return tt st'
         ∧ get_theta fmt env st = Return th st'
         ∧ _theta_f (self st') = tf'
         ∧ theta (self st') = th
         ∧ (∀ a, int_of_float (vec3_get a tf') = inr (vec3_get a th)))
  ∧ (∀ st st', update_theta fmt env st = Return tt st' → theta_truncated (self st'))
  ∧ (∀ st th st', get_theta fmt env st = Return th st' →
       theta_truncated (self st') ∧ th = theta (self st'))
  ∧ (∀ st e st', update_theta fmt env st = Raise e st' →
       get_theta fmt env st = Raise e st'
       ∧ (e = ValueError ∨ e = OverflowError →
          ¬ theta_truncated (self st')
          ∧ ∃ a, float_is_finite (vec3_get a (_theta_f (self st'))) = false
                 ∧ vec3_get a (theta (self st')) = vec3_get a (theta (self st)))
       ∧ (e ≠ ValueError → e ≠ OverflowError →
          theta (self st') = theta (self st) ∧ _theta_f (self st') = _theta_f (self st)))
  ∧ (∀ s m e, ∃ t fl,
       int_of_float (S754_finite s m e) = inr t
       ∧ floor_of_float (S754_finite s m e) = inr fl
       ∧ Z.abs t = Z.shiftl (Z.pos m) e
       ∧ (s = false → 0 ≤ t ∧ t = fl)
       ∧ (s = true → t ≤ 0 ∧ (t = fl ∨ t = fl + 1))
       ∧ (s = true → e < 0 → Z.pos m mod 2 ^ (- e) ≠ 0 → t = fl + 1))
  ∧ int_of_float (float_div fmt (float_of_int fmt (-5)) (float_of_int fmt 2)) = inr (-2)
  ∧ floor_of_float (float_div fmt (float_of_int fmt (-5)) (float_of_int fmt 2)) = inr (-3).
Proof.
  split.
  { intros a st st' H.
    apply init_Return_inv in H as (st1 & st2 & offset & Hc & _ & _ & _ & Hth & Htf & ->).
    apply calibrate_gyro_self in Hc.
    intros ax. simpl. rewrite Hc, Hth, Htf. destruct ax; reflexivity. }
  split.
  { intros st. eexists. split; [apply reset_theta_unfold|].
    intros []; reflexivity. }
  split.
  { intros st omega st2 now tf' Hom Hfin.
    destruct (float_is_finite_int _ (Hfin AxisX)) as [ix Ix].
    destruct (float_is_finite_int _ (Hfin AxisY)) as [iy Iy].
    destruct (float_is_finite_int _ (Hfin AxisZ)) as [iz Iz].
    pose proof (get_omega_self _ _ _ _ _ Hom) as Hself. simpl in Hself.
    assert (Hup : update_theta fmt env st
                  = Return tt (with_self (set_angles (Vec3 ix iy iz) tf') st2)).
    { rewrite update_theta_unfold. fold now. rewrite Hom.
      pose proof (update_axes_spec fmt omega
                    (time_step fmt now (last_update (self st))) st2) as H.
      cbv zeta in H.
      replace (_theta_f (self st2)) with (_theta_f (self st)) in H
        by (rewrite Hself; reflexivity).
      fold tf' in H. cbn [vec3_get] in Ix, Iy, Iz. rewrite Ix, Iy, Iz in H. exact H. }
    exists (Vec3 ix iy iz), (with_self (set_angles (Vec3 ix iy iz) tf') st2).
    split; [exact Hup|].
    split; [rewrite get_theta_unfold, Hup; reflexivity|].
    split; [reflexivity|]. split; [reflexivity|].
    intros []; assumption. }
  split; [exact (update_theta_truncated fmt env)|].
  split.
  { intros st th st'. rewrite get_theta_unfold.
    destruct (update_theta fmt env st) as [[] st1|e st1] eqn:Hup; [|discriminate].
    intros [= <- <-]. split; [|reflexivity].
    apply (update_theta_truncated _ _ _ _ Hup). }
  split.
  { intros st e st' Hup.
    split; [rewrite get_theta_unfold, Hup; reflexivity|].
    destruct (update_theta_Raise_view _ _ _ Hup)
      as [(Hv & Ho & Hsame)|(He & a & Hbad & Hold)].
    - split; [intros [|]; contradiction|]. intros _ _. exact Hsame.
    - split; [|intros Hv Ho; destruct He; contradiction].
      intros _. split; [|exists a; split; assumption].
      intros Htr. specialize (Htr a).
      destruct (int_of_float_not_finite _ Hbad) as (e' & He' & _).
      rewrite He' in Htr. discriminate. }
  split; [exact trunc_vs_floor|].
  destruct fmt; split; reflexivity.
Qed.

End ViewAfterCalls.

(** Against C7 as stated: on a driver out of the constructor whose factor
    is set to the finite value 2^-126 (binary32; 2^-1022 in binary64), the
    scaled reading overflows, [update_theta] stores an infinite x
    accumulator and raises [OverflowError] before it assigns the integer,
    and the view keeps 0; the next [get_theta] raises again. *)
Lemma theta_truncation_fails :
  let env := const_env Byte.x05 Byte.x1e 500 in
  let s32 := infinite_rate_state Binary32 in
  let s64 := infinite_rate_state Binary64 in
  let raised32 := update_theta Binary32 env s32 in
  let raised64 := update_theta Binary64 env s64 in
  (exn_of (__init__ Binary32 env 0x68 (sample_state Binary32)) = None
   ∧ float_is_finite (omega_offset_sensetivity_factor (self s32)) = true
   ∧ theta (self s32) = Vec3 0 0 0
   ∧ exn_of raised32 = Some OverflowError
   ∧ vx (_theta_f (self (final_state raised32))) = S754_infinity false
   ∧ vx (theta (self (final_state raised32))) = 0
   ∧ int_of_float (S754_infinity false) = inl OverflowError
   ∧ ¬ theta_truncated (self (final_state raised32))
   ∧ exn_of (get_theta Binary32 env (final_state raised32)) = Some OverflowError)
  ∧ (exn_of (__init__ Binary64 env 0x68 (sample_state Binary64)) = None
     ∧ float_is_finite (omega_offset_sensetivity_factor (self s64)) = true
     ∧ theta (self s64) = Vec3 0 0 0
     ∧ exn_of raised64 = Some OverflowError
     ∧ vx (_theta_f (self (final_state raised64))) = S754_infinity false
     ∧ vx (theta (self (final_state raised64))) = 0
     ∧ ¬ theta_truncated (self (final_state raised64))
     ∧ exn_of (get_theta Binary64 env (final_state raised64)) = Some OverflowError).
Proof.
  vm_compute.
  repeat split; try reflexivity; intros H; specialize (H AxisX); discriminate.
Qed.

(** ** Concrete runs *)

Lemma get_accel_scaled_witness :
  get_accel Binary32 (const_env Byte.x40 Byte.x00 500) (sample_state Binary32)
  = Return (Vec3 (float_of_int Binary32 1) (float_of_int Binary32 1) (float_of_int Binary32 1))
           (Nat.iter 6 tick_bus (sample_state Binary32)).
Proof.
  exact (proj1 (get_accel_scaled Binary32 (const_env Byte.x40 Byte.x00 500)
                  (sample_state Binary32)
                  (Nat.iter 2 tick_bus (sample_state Binary32))
                  (Nat.iter 4 tick_bus (sample_state Binary32))
                  (Nat.iter 6 tick_bus (sample_state Binary32))
                  16384 16384 16384 eq_refl eq_refl eq_refl eq_refl)).
Defined.

Lemma get_omega_bias_corrected_witness :
  get_omega Binary32 (const_env Byte.x00 Byte.x83 500) (biased_state Binary32)
  = Return (Vec3 (S754_zero false) (float_of_int Binary32 1) (float_of_int Binary32 1))
           (Nat.iter 6 tick_bus (biased_state Binary32)).
Proof.
  exact (proj1 (get_omega_bias_corrected Binary32 (const_env Byte.x00 Byte.x83 500)
                  (biased_state Binary32)
                  (Nat.iter 2 tick_bus (biased_state Binary32))
                  (Nat.iter 4 tick_bus (biased_state Binary32))
                  (Nat.iter 6 tick_bus (biased_state Binary32))
                  131 131 131
                  (float_of_int Binary32 1) (float_of_int Binary32 0) (float_of_int Binary32 0)
                  eq_refl eq_refl eq_refl eq_refl eq_refl eq_refl eq_refl)).
Defined.

Lemma update_theta_euler_witness :
  ∃ th' st',
    get_theta Binary32 (const_env Byte.x05 Byte.x1e 500) (sample_state Binary32)
    = Return th' st'
    ∧ vx (_theta_f (self st')) = float_of_int Binary32 5
    ∧ vx th' = 5.
Proof.
  pose proof (update_theta_euler Binary32 (const_env Byte.x05 Byte.x1e 500)
                (sample_state Binary32)) as H.
  cbv zeta in H. destruct H as (_ & _ & _ & _ & _ & _ & H).
  destruct (H (Vec3 (float_of_int Binary32 10) (float_of_int Binary32 10)
                    (float_of_int Binary32 10))
              (Nat.iter 6 tick_bus
                 (with_self (set_last_update 1000) (tick_clock (sample_state Binary32))))
              eq_refl)
    as (_ & _ & Hret & _ & Hex).
  destruct (Hret (λ a, match a with AxisX | AxisY | AxisZ => eq_refl end))
    as (th' & _ & Hget & Hint).
  destruct (Hex eq_refl eq_refl) as (_ & _ & H5).
  destruct (H5 0 ltac:(simpl; lia) ltac:(simpl; lia) eq_refl) as [Htf Hth].
  specialize (Hint AxisX). cbn [vec3_get] in Hint.
  eexists th', _. split; [exact Hget|]. split; [exact Htf|].
  rewrite Hth in Hint. injection Hint as Hint. symmetry. exact Hint.
Defined.

Lemma offset_always_has_axes_witness :
  offset_has_axes
    (self (run_calls Binary32 (const_env Byte.x00 Byte.x83 500)
             [CallSetGyroSensitivity (S754_zero false); CallGetOmega;
              CallSetGyroOffset ∅; CallResetGyroOffset; CallGetTheta]
             (final_state (__init__ Binary32 (const_env Byte.x00 Byte.x83 500) 0x68
                             (sample_state Binary32)))))
  ∧ dom (omega_offset (self (final_state
           (__init__ Binary32 (const_env Byte.x00 Byte.x83 500) 0x68
                     (sample_state Binary32)))))
    = ({["x"; "y"; "z"]} : gset string).
Proof.
  pose proof (offset_always_has_axes Binary32 (const_env Byte.x00 Byte.x83 500) 0x68
                (sample_state Binary32)
                (final_state (__init__ Binary32 (const_env Byte.x00 Byte.x83 500) 0x68
                                (sample_state Binary32)))
                [CallSetGyroSensitivity (S754_zero false); CallGetOmega;
                 CallSetGyroOffset ∅; CallResetGyroOffset; CallGetTheta]
                ltac:(vm_compute; reflexivity)) as (H1 & _ & H3 & _).
  exact (conj H1 H3).
Defined.

(** A negative rate: -655/131 = -5.0 degrees per second over half a second
    takes the accumulator to -2.5, and the integer view to -2, not to the
    floor -3. *)
Example get_theta_truncates_negative (fmt : float_format) :
  ∃ st', get_theta fmt (const_env Byte.xfd Byte.x71 500) (sample_state fmt)
         = Return (Vec3 (-2) (-2) (-2)) st'
       ∧ floor_of_float (vx (_theta_f (self st'))) = inr (-3).
Proof. destruct fmt; eexists; vm_compute; split; reflexivity. Qed.

(** [reset_theta] and then [get_theta] within the same millisecond. *)
Example reset_then_get_theta (fmt : float_format) :
  ∃ st', (reset_theta (const_env Byte.xfd Byte.x71 0);;
          get_theta fmt (const_env Byte.xfd Byte.x71 0))
           (with_self (set_angles (Vec3 7 8 9)
                         (Vec3 (float_of_int fmt 7) (float_of_int fmt 8) (float_of_int fmt 9)))
                      (sample_state fmt))
         = Return (Vec3 0 0 0) st'.
Proof. destruct fmt; eexists; vm_compute; reflexivity. Qed.

(** A zero sensitivity factor makes the readers raise. *)
Example get_omega_zero_factor (fmt : float_format) :
  (set_gyro_sensitivity (S754_zero false);;
   get_omega fmt (const_env Byte.x00 Byte.x83 500)) (sample_state fmt)
  = Raise ZeroDivisionError
      (Nat.iter 2 tick_bus (with_self (set_omega_factor (S754_zero false)) (sample_state fmt))).
Proof. destruct fmt; reflexivity. Qed.

(** A NaN bias is stored by [set_gyro_offset]; the next update leaves a NaN
    accumulator, for which [int] raises. *)
Example nan_offset_breaks_update (fmt : float_format) :
  ∃ st', (set_gyro_offset (axes_dict S754_nan S754_nan S754_nan);;
          update_theta fmt (const_env Byte.x00 Byte.x83 500)) (sample_state fmt)
         = Raise ValueError st'
       ∧ vx (_theta_f (self st')) = S754_nan
       ∧ vx (theta (self st')) = 0.
Proof. destruct fmt; eexists; vm_compute; repeat split; reflexivity. Qed.

(** * Further properties of the driver *)

(** ** Register reads *)

Section RawReadMore.
Variable env : Env.

Lemma read_raw_data_bytes (st : State) (reg : Z) (high low : Byte.byte) :
  i2c_readfrom_mem env (bus_ops (world st)) (addr (self st)) reg = Some high →
  i2c_readfrom_mem env (S (bus_ops (world st))) (addr (self st)) (reg + 1) = Some low →
  _read_raw_data env reg st
  = Return (let u := 256 * byte_to_Z high + byte_to_Z low in
            if 32767 <? u then u - 65536 else u)
           (tick_bus (tick_bus st)).
Proof.
  intros Hh Hl. unfold _read_raw_data.
  rewrite (bind_Return _ _ st (byte_to_Z high) (tick_bus st))
    by (unfold readfrom_mem; rewrite Hh; reflexivity).
  rewrite (bind_Return _ _ (tick_bus st) (byte_to_Z low) (tick_bus (tick_bus st)))
    by (unfold readfrom_mem; simpl; rewrite Hl; reflexivity).
  rewrite lor_shiftl_8 by apply byte_to_Z_range. reflexivity.
Qed.

(** X1: the decoding inverts the big-endian two's-complement encoding: when
    the bus delivers the two bytes of a value [v] of the signed 16-bit
    range, [_read_raw_data] returns [v]. *)
Theorem read_raw_data_round_trip (st : State) (reg v : Z) (high low : Byte.byte) :
  -32768 ≤ v ≤ 32767 →
  byte_to_Z high = (v mod 65536) / 256 →
  byte_to_Z low = (v mod 65536) mod 256 →
  i2c_readfrom_mem env (bus_ops (world st)) (addr (self st)) reg = Some high →
  i2c_readfrom_mem env (S (bus_ops (world st))) (addr (self st)) (reg + 1) = Some low →
  _read_raw_data env reg st = Return v (tick_bus (tick_bus st)).
Proof.
  intros Hv Hhi Hlo Hh Hl. rewrite (read_raw_data_bytes st reg high low Hh Hl).
  f_equal. cbv zeta. rewrite Hhi, Hlo.
  pose proof (Z.div_mod (v mod 65536) 256 ltac:(lia)) as Hdm.
  pose proof (Z.mod_pos_bound v 65536 ltac:(lia)) as Hb.
  rewrite <- Hdm.
  destruct (Z.ltb_spec 32767 (v mod 65536)) as [Hlt|Hge].
  - assert (v < 0).
    { destruct (Z.lt_ge_cases v 0) as [|Hn]; [assumption|].
      rewrite Z.mod_small in Hlt by lia. lia. }
    assert (Hm : v mod 65536 = v + 65536).
    { symmetry. apply Z.mod_unique with (-1); lia. }
    lia.
  - destruct (Z.lt_ge_cases v 0) as [Hn|Hn].
    + assert (Hm : v mod 65536 = v + 65536).
      { symmetry. apply Z.mod_unique with (-1); lia. }
      lia.
    + rewrite Z.mod_small by lia. reflexivity.
Qed.

Lemma byte_to_Z_inj (b b' : Byte.byte) : byte_to_Z b = byte_to_Z b' → b = b'.
Proof.
  unfold byte_to_Z. intros H. apply N2Z.inj in H.
  pose proof (Byte.of_to_N b) as H1. pose proof (Byte.of_to_N b') as H2.
  rewrite H in H1. congruence.
Qed.

(** X2: the decoding loses nothing: two reads that return the same value
    were given the same two bytes. *)
Theorem read_raw_data_injective (st st' : State) (reg reg' : Z)
        (high low high' low' : Byte.byte) (v : Z) (s1 s2 : State) :
  i2c_readfrom_mem env (bus_ops (world st)) (addr (self st)) reg = Some high →
  i2c_readfrom_mem env (S (bus_ops (world st))) (addr (self st)) (reg + 1) = Some low →
  i2c_readfrom_mem env (bus_ops (world st')) (addr (self st')) reg' = Some high' →
  i2c_readfrom_mem env (S (bus_ops (world st'))) (addr (self st')) (reg' + 1) = Some low' →
  _read_raw_data env reg st = Return v s1 →
  _read_raw_data env reg' st' = Return v s2 →
  high = high' ∧ low = low'.
Proof.
  intros Hh Hl Hh' Hl' H1 H2.
  rewrite (read_raw_data_bytes st reg high low Hh Hl) in H1.
  rewrite (read_raw_data_bytes st' reg' high' low' Hh' Hl') in H2.
  injection H1 as H1 _. injection H2 as H2 _. cbv zeta in H1, H2.
  pose proof (byte_to_Z_range high). pose proof (byte_to_Z_range low).
  pose proof (byte_to_Z_range high'). pose proof (byte_to_Z_range low').
  assert (byte_to_Z high = byte_to_Z high' ∧ byte_to_Z low = byte_to_Z low') as [E1 E2].
  { destruct (Z.ltb_spec 32767 (256 * byte_to_Z high + byte_to_Z low)),
      (Z.ltb_spec 32767 (256 * byte_to_Z high' + byte_to_Z low')); lia. }
  split; apply byte_to_Z_inj; assumption.
Qed.

(** X3: a failed transfer surfaces as [OSError] at once: when the first
    read fails the second is not attempted (one transfer made), when the
    second fails two were made; the driver object is untouched. *)
Theorem read_raw_data_transport_error (st : State) (reg : Z) :
  (i2c_readfrom_mem env (bus_ops (world st)) (addr (self st)) reg = None →
   _read_raw_data env reg st = Raise OSError (tick_bus st))
  ∧ (∀ high,
       i2c_readfrom_mem env (bus_ops (world st)) (addr (self st)) reg = Some high →
       i2c_readfrom_mem env (S (bus_ops (world st))) (addr (self st)) (reg + 1) = None →
       _read_raw_data env reg st = Raise OSError (tick_bus (tick_bus st)))
  ∧ (∀ e st', _read_raw_data env reg st = Raise e st' →
       e = OSError ∧ self st' = self st
       ∧ (i2c_readfrom_mem env (bus_ops (world st)) (addr (self st)) reg = None
          ∨ i2c_readfrom_mem env (S (bus_ops (world st))) (addr (self st)) (reg + 1) = None)).
Proof.
  unfold _read_raw_data, readfrom_mem. rewrite !bind_unfold.
  destruct (i2c_readfrom_mem env (bus_ops (world st)) (addr (self st)) reg) as [h|] eqn:E1.
  - split; [discriminate|]. rewrite !bind_unfold. simpl.
    destruct (i2c_readfrom_mem env (S (bus_ops (world st))) (addr (self st)) (reg + 1))
      as [l|] eqn:E2.
    + split; [discriminate|]. intros e st'. discriminate.
    + split; [reflexivity|]. intros e st' [= <- <-]. auto.
  - split; [reflexivity|]. split; [discriminate|].
    intros e st' [= <- <-]. auto.
Qed.
End RawReadMore.

(** ** Independence and error profiles *)

Lemma bind_Raise {A B} (m : M A) (f : A → M B) st e st' :
  m st = Raise e st' → (m ≫= f) st = Raise e st'.
Proof. intros H. rewrite bind_unfold, H. reflexivity. Qed.

Lemma offset_lookup_Raise (k : string) (st : State) :
  omega_offset (self st) !! k = None →
  (d ← gets omega_offset; dict_getitem k d) st = Raise (KeyError k) st.
Proof.
  intros H. rewrite bind_unfold. unfold gets, dict_getitem. rewrite H. reflexivity.
Qed.

Lemma commutes_ret {A} h (a : A) : commutes h (mret a).
Proof. intros st. reflexivity. Qed.

Lemma commutes_lift {A} h (r : exn + A) : commutes h (lift r).
Proof. intros st. destruct r; reflexivity. Qed.

Lemma commutes_gets {A} h (g : MPU6050 → A) :
  (∀ d, g (h d) = g d) → commutes h (gets g).
Proof. intros Hg st. unfold gets. simpl. rewrite Hg. reflexivity. Qed.

Lemma commutes_bind {A B} h (m : M A) (f : A → M B) :
  commutes h m → (∀ a, commutes h (f a)) → commutes h (m ≫= f).
Proof.
  intros Hm Hf st. rewrite !bind_unfold, Hm.
  destruct (m st) as [a st1|e st1]; simpl; [apply Hf | reflexivity].
Qed.

Lemma raises_only_ret {A} P (a : A) : raises_only P (mret a).
Proof. intros st e st'. discriminate. Qed.

Lemma raises_only_gets {A} P (g : MPU6050 → A) : raises_only P (gets g).
Proof. intros st e st'. discriminate. Qed.

Lemma raises_only_modify P f : raises_only P (modify f).
Proof. intros st e st'. discriminate. Qed.

Lemma raises_only_bind {A B} P (m : M A) (f : A → M B) :
  raises_only P m → (∀ a, raises_only P (f a)) → raises_only P (m ≫= f).
Proof.
  intros Hm Hf st e st' H.
  apply bind_Raise_inv in H as [H|(a & s1 & _ & H)]; [exact (Hm _ _ _ H)|].
  exact (Hf _ _ _ _ H).
Qed.

Lemma raises_only_weaken {A} (P Q : exn → Prop) (m : M A) :
  (∀ e, P e → Q e) → raises_only P m → raises_only Q m.
Proof. intros HPQ Hm st e st' H. apply HPQ, (Hm _ _ _ H). Qed.

Section Independence.
Variable fmt : float_format.
Variable env : Env.

Section Commute.
Variable h : MPU6050 → MPU6050.
Hypothesis h_addr : ∀ d, addr (h d) = addr d.

Lemma commutes_read_raw_data reg : commutes h (_read_raw_data env reg).
Proof. intros st. apply read_raw_data_with_self, h_addr. Qed.

Lemma commutes_read_scaled reg factor :
  (∀ d, factor (h d) = factor d) → commutes h (read_scaled fmt env reg factor).
Proof.
  intros Hf. unfold read_scaled.
  apply commutes_bind; [apply commutes_read_raw_data|]. intros raw.
  apply commutes_bind; [apply commutes_gets, Hf|]. intros f. apply commutes_lift.
Qed.

Lemma commutes_get_temp : commutes h (get_temp fmt env).
Proof.
  unfold get_temp.
  apply commutes_bind; [apply commutes_read_raw_data|]. intros raw.
  apply commutes_bind; [apply commutes_lift|]. intros q. apply commutes_ret.
Qed.

Lemma commutes_get_accel :
  (∀ d, accel_offset_sensetivity_factor (h d) = accel_offset_sensetivity_factor d) →
  commutes h (get_accel fmt env).
Proof.
  intros Hf. unfold get_accel.
  repeat (apply commutes_bind; [apply commutes_read_scaled, Hf|]; intros ?).
  apply commutes_ret.
Qed.

Lemma commutes_dict_getitem k d : commutes h (dict_getitem k d).
Proof. intros st. unfold dict_getitem. destruct (d !! k); reflexivity. Qed.

Lemma commutes_get_omega :
  (∀ d, omega_offset_sensetivity_factor (h d) = omega_offset_sensetivity_factor d) →
  (∀ d, omega_offset (h d) = omega_offset d) →
  commutes h (get_omega fmt env).
Proof.
  intros Hf Ho. unfold get_omega.
  repeat (apply commutes_bind; [apply commutes_read_scaled, Hf|]; intros ?).
  repeat (apply commutes_bind;
          [apply commutes_bind; [apply commutes_gets, Ho|];
           intros ?; apply commutes_dict_getitem|]; intros ?).
  apply commutes_ret.
Qed.
End Commute.

Lemma raises_only_readfrom_mem reg :
  raises_only (λ e, e = OSError) (readfrom_mem env reg).
Proof. intros st e st' H. exact (readfrom_mem_Raise_inv _ _ _ _ _ H). Qed.

Lemma raises_only_read_raw_data reg :
  raises_only (λ e, e = OSError) (_read_raw_data env reg).
Proof. intros st e st' H. exact (read_raw_data_Raise_inv _ _ _ _ _ H). Qed.

Lemma raises_only_read_scaled reg factor :
  raises_only (λ e, e = OSError ∨ e = ZeroDivisionError) (read_scaled fmt env reg factor).
Proof. intros st e st' H. exact (read_scaled_Raise_inv _ _ _ _ _ _ _ H). Qed.

Lemma raises_only_get_temp : raises_only (λ e, e = OSError) (get_temp fmt env).
Proof.
  unfold get_temp.
  apply raises_only_bind; [apply raises_only_read_raw_data|]. intros raw.
  apply raises_only_bind; [|intros q; apply raises_only_ret].
  intros st e st'. unfold float_truediv.
  rewrite (float_of_int_nonzero fmt 340) by lia. discriminate.
Qed.

Lemma raises_only_get_accel :
  raises_only (λ e, e = OSError ∨ e = ZeroDivisionError) (get_accel fmt env).
Proof.
  unfold get_accel.
  repeat (apply raises_only_bind; [apply raises_only_read_scaled|]; intros ?).
  apply raises_only_ret.
Qed.

Lemma raises_only_dict_getitem k d :
  raises_only (λ e, e = KeyError k) (dict_getitem k d).
Proof.
  intros st e st'. unfold dict_getitem. destruct (d !! k); [discriminate|].
  intros [= <- _]. reflexivity.
Qed.

Lemma raises_only_get_omega :
  raises_only (λ e, e = OSError ∨ e = ZeroDivisionError ∨ ∃ k, e = KeyError k)
              (get_omega fmt env).
Proof.
  unfold get_omega.
  repeat (apply raises_only_bind;
          [eapply raises_only_weaken; [|apply raises_only_read_scaled];
           intros e [->| ->]; auto|]; intros ?).
  repeat (apply raises_only_bind;
          [apply raises_only_bind; [apply raises_only_gets|]; intros ?;
           eapply raises_only_weaken; [|apply raises_only_dict_getitem];
           intros e ->; eauto|]; intros ?).
  apply raises_only_ret.
Qed.

(** X4: the three readers never write to the driver object, whether they
    return or raise, and never query the clock; [get_temp] can only raise
    [OSError] (340.0 is not zero), [get_accel] only [OSError] or
    [ZeroDivisionError], [get_omega] only these or [KeyError]. *)
Theorem readers_are_read_only (st : State) :
  (self (final_state (get_temp fmt env st)) = self st
   ∧ self (final_state (get_accel fmt env st)) = self st
   ∧ self (final_state (get_omega fmt env st)) = self st)
  ∧ (clock_ops (world (final_state (get_temp fmt env st))) = clock_ops (world st)
     ∧ clock_ops (world (final_state (get_accel fmt env st))) = clock_ops (world st)
     ∧ clock_ops (world (final_state (get_omega fmt env st))) = clock_ops (world st))
  ∧ (∀ e st', get_temp fmt env st = Raise e st' → e = OSError)
  ∧ (∀ e st', get_accel fmt env st = Raise e st' → e = OSError ∨ e = ZeroDivisionError)
  ∧ (∀ e st', get_omega fmt env st = Raise e st' →
       e = OSError ∨ e = ZeroDivisionError ∨ ∃ k, e = KeyError k).
Proof.
  split.
  { repeat split; apply unchanged; auto with preserves. }
  split.
  { repeat split.
    - exact (stable_get_temp fmt env (λ s, clock_ops (world s) = clock_ops (world st))
               (λ _ H, H) st eq_refl).
    - exact (stable_get_accel fmt env (λ s, clock_ops (world s) = clock_ops (world st))
               (λ _ H, H) st eq_refl).
    - exact (stable_get_omega fmt env (λ s, clock_ops (world s) = clock_ops (world st))
               (λ _ H, H) st eq_refl). }
  split; [intros e st'; apply raises_only_get_temp|].
  split; [intros e st'; apply raises_only_get_accel|].
  intros e st'; apply raises_only_get_omega.
Qed.

(** X5: what a reader depends on.  [get_temp] depends on the address and
    the bus only; [get_accel] is not affected by the gyro factor, the bias,
    the angle dicts or [last_update]; [get_omega] is not affected by the
    accel factor, the angle dicts or [last_update]. *)
Theorem readers_ignore_unrelated_state (st : State) :
  (∀ h, (∀ d, addr (h d) = addr d) →
        get_temp fmt env (with_self h st) = outcome_map (with_self h) (get_temp fmt env st))
  ∧ (∀ f offset th tf lu,
       let h d := set_omega_factor f (set_omega_offset offset
                    (set_angles th tf (set_last_update lu d))) in
       get_accel fmt env (with_self h st) = outcome_map (with_self h) (get_accel fmt env st))
  ∧ (∀ f th tf lu,
       let h d := set_accel_factor f (set_angles th tf (set_last_update lu d)) in
       get_omega fmt env (with_self h st) = outcome_map (with_self h) (get_omega fmt env st)).
Proof.
  split; [intros h Ha; apply commutes_get_temp, Ha|].
  split.
  - intros f offset th tf lu h. apply commutes_get_accel; reflexivity.
  - intros f th tf lu h. apply commutes_get_omega; reflexivity.
Qed.

(** X6: [get_temp] converts the raw temperature word as raw/340.0 + 36.53;
    the division cannot fail, so once the two transfers have succeeded it
    returns, having made exactly these two transfers. *)
Theorem get_temp_celsius (st st1 : State) (raw : Z) :
  _read_raw_data env _TEMP_OUT_H st = Return raw st1 →
  get_temp fmt env st
  = Return (float_add fmt (float_div fmt (float_of_int fmt raw) (float_of_int fmt 340))
                          (float_36_53 fmt)) st1
  ∧ st1 = tick_bus (tick_bus st)
  ∧ (raw = 0 → float_add fmt (float_div fmt (float_of_int fmt raw) (float_of_int fmt 340))
                             (float_36_53 fmt) = float_36_53 fmt).
Proof.
  intros Hr. split.
  - unfold get_temp. rewrite (bind_Return _ _ _ _ _ Hr).
    rewrite bind_unfold. unfold float_truediv.
    rewrite (float_of_int_nonzero fmt 340) by lia. reflexivity.
  - split; [apply (proj1 (read_raw_data_Return_inv _ _ _ _ _ Hr))|].
    intros ->. destruct fmt; reflexivity.
Qed.

(** X7: a new accel factor takes effect on the next read and on nothing
    else: after [set_accel_sensitivity(f)], [get_accel] returns raw/f per
    axis when [f] is not zero and raises [ZeroDivisionError] after the two
    transfers of the x axis when it is; the gyro factor, the bias and the
    angle state are as before. *)
Theorem set_accel_sensitivity_next_read (st st1 st2 st3 : State) (rx ry rz : Z) (f : float) :
  _read_raw_data env _ACCEL_XOUT_H st = Return rx st1 →
  _read_raw_data env _ACCEL_YOUT_H st1 = Return ry st2 →
  _read_raw_data env _ACCEL_ZOUT_H st2 = Return rz st3 →
  (set_accel_sensitivity f;; get_accel fmt env) st
  = (if float_is_zero f
     then Raise ZeroDivisionError (with_self (set_accel_factor f) st1)
     else Return (Vec3 (float_div fmt (float_of_int fmt rx) f)
                       (float_div fmt (float_of_int fmt ry) f)
                       (float_div fmt (float_of_int fmt rz) f))
                 (with_self (set_accel_factor f) st3))
  ∧ (let d' := self (final_state ((set_accel_sensitivity f;; get_accel fmt env) st)) in
     omega_offset_sensetivity_factor d' = omega_offset_sensetivity_factor (self st)
     ∧ omega_offset d' = omega_offset (self st)
     ∧ theta d' = theta (self st) ∧ _theta_f d' = _theta_f (self st)
     ∧ last_update d' = last_update (self st)).
Proof.
  intros Hx Hy Hz.
  assert (R1 := read_raw_data_with_self env (set_accel_factor f) _ACCEL_XOUT_H st eq_refl).
  assert (R2 := read_raw_data_with_self env (set_accel_factor f) _ACCEL_YOUT_H st1 eq_refl).
  assert (R3 := read_raw_data_with_self env (set_accel_factor f) _ACCEL_ZOUT_H st2 eq_refl).
  rewrite Hx in R1. rewrite Hy in R2. rewrite Hz in R3. simpl in R1, R2, R3.
  pose proof (read_raw_data_self _ _ _ _ _ Hx) as S1.
  pose proof (read_raw_data_self _ _ _ _ _ Hy) as S2.
  pose proof (read_raw_data_self _ _ _ _ _ Hz) as S3.
  assert (Hrun : (set_accel_sensitivity f;; get_accel fmt env) st
    = (if float_is_zero f
       then Raise ZeroDivisionError (with_self (set_accel_factor f) st1)
       else Return (Vec3 (float_div fmt (float_of_int fmt rx) f)
                         (float_div fmt (float_of_int fmt ry) f)
                         (float_div fmt (float_of_int fmt rz) f))
                   (with_self (set_accel_factor f) st3))).
  { rewrite bind_unfold. unfold set_accel_sensitivity, modify. unfold get_accel.
    destruct (float_is_zero f) eqn:Ef.
    - apply bind_Raise.
      exact (read_scaled_zero_factor fmt env _ accel_offset_sensetivity_factor _ _ _ R1 Ef).
    - rewrite (bind_Return _ _ _ _ _
        (read_scaled_Return fmt env _ accel_offset_sensetivity_factor _ _ _ R1 Ef)).
      rewrite (bind_Return _ _ _ _ _
        (read_scaled_Return fmt env _ accel_offset_sensetivity_factor _ _ _ R2 Ef)).
      rewrite (bind_Return _ _ _ _ _
        (read_scaled_Return fmt env _ accel_offset_sensetivity_factor _ _ _ R3 Ef)).
      reflexivity. }
  split; [exact Hrun|]. rewrite Hrun.
  destruct (float_is_zero f); simpl; rewrite ?S3, ?S2, ?S1; repeat split.
Qed.

(** X8: [get_omega] on a bias that lacks an axis key raises [KeyError] for
    the first missing key in the order x, y, z, after all six transfers;
    this needs a driver whose [omega_offset] was assigned from outside,
    since no public method stores such a mapping. *)
Theorem get_omega_missing_key (st st1 st2 st3 : State) (rx ry rz : Z) :
  _read_raw_data env _GYRO_XOUT_H st = Return rx st1 →
  _read_raw_data env _GYRO_YOUT_H st1 = Return ry st2 →
  _read_raw_data env _GYRO_ZOUT_H st2 = Return rz st3 →
  float_is_zero (omega_offset_sensetivity_factor (self st)) = false →
  (omega_offset (self st) !! "x" = None ∨ omega_offset (self st) !! "y" = None
   ∨ omega_offset (self st) !! "z" = None) →
  get_omega fmt env st
  = Raise (KeyError (match omega_offset (self st) !! "x", omega_offset (self st) !! "y" with
                     | None, _ => "x"
                     | Some _, None => "y"
                     | Some _, Some _ => "z"
                     end)) st3.
Proof.
  intros Hx Hy Hz Hf Hmiss. unfold get_omega.
  pose proof (read_raw_data_self _ _ _ _ _ Hx) as S1.
  pose proof (read_raw_data_self _ _ _ _ _ Hy) as S2.
  pose proof (read_raw_data_self _ _ _ _ _ Hz) as S3.
  rewrite (bind_Return _ _ _ _ _
    (read_scaled_Return fmt env _ omega_offset_sensetivity_factor _ _ _ Hx Hf)).
  rewrite (bind_Return _ _ _ _ _
    (read_scaled_Return fmt env _ omega_offset_sensetivity_factor _ _ _ Hy
       ltac:(rewrite S1; exact Hf))).
  rewrite (bind_Return _ _ _ _ _
    (read_scaled_Return fmt env _ omega_offset_sensetivity_factor _ _ _ Hz
       ltac:(rewrite S2, S1; exact Hf))).
  assert (S : self st3 = self st) by congruence.
  destruct (omega_offset (self st) !! "x") as [ox|] eqn:Ox.
  2: { apply bind_Raise, offset_lookup_Raise. rewrite S. exact Ox. }
  rewrite (bind_Return _ _ _ _ _ (offset_lookup_Return "x" st3 ox ltac:(rewrite S; exact Ox))).
  destruct (omega_offset (self st) !! "y") as [oy|] eqn:Oy.
  2: { apply bind_Raise, offset_lookup_Raise. rewrite S. exact Oy. }
  rewrite (bind_Return _ _ _ _ _ (offset_lookup_Return "y" st3 oy ltac:(rewrite S; exact Oy))).
  destruct (omega_offset (self st) !! "z") as [oz|] eqn:Oz.
  - exfalso. destruct Hmiss as [|[|]]; discriminate.
  - apply bind_Raise, offset_lookup_Raise. rewrite S. exact Oz.
Qed.

(** X9: [get_omega] reads the stored bias at the keys x, y and z only:
    with two mappings that agree on these three keys it has the same
    outcome, whatever else the mappings hold. *)
Theorem get_omega_reads_three_keys (st : State) (off off' : gmap string float) :
  off !! "x" = off' !! "x" → off !! "y" = off' !! "y" → off !! "z" = off' !! "z" →
  get_omega fmt env (with_self (set_omega_offset off') st)
  = outcome_map (with_self (set_omega_offset off'))
      (get_omega fmt env (with_self (set_omega_offset off) st)).
Proof.
  intros Ex Ey Ez. unfold get_omega.
  rewrite !bind_unfold.
  rewrite (commutes_read_scaled (set_omega_offset off') (λ _, eq_refl)
             _GYRO_XOUT_H omega_offset_sensetivity_factor (λ _, eq_refl) st).
  rewrite (commutes_read_scaled (set_omega_offset off) (λ _, eq_refl)
             _GYRO_XOUT_H omega_offset_sensetivity_factor (λ _, eq_refl) st).
  destruct (read_scaled fmt env _GYRO_XOUT_H _ st) as [gx s1|e s1]; [|reflexivity].
  cbn [outcome_map]. rewrite !bind_unfold.
  rewrite (commutes_read_scaled (set_omega_offset off') (λ _, eq_refl)
             _GYRO_YOUT_H omega_offset_sensetivity_factor (λ _, eq_refl) s1).
  rewrite (commutes_read_scaled (set_omega_offset off) (λ _, eq_refl)
             _GYRO_YOUT_H omega_offset_sensetivity_factor (λ _, eq_refl) s1).
  destruct (read_scaled fmt env _GYRO_YOUT_H _ s1) as [gy s2|e s2]; [|reflexivity].
  cbn [outcome_map]. rewrite !bind_unfold.
  rewrite (commutes_read_scaled (set_omega_offset off') (λ _, eq_refl)
             _GYRO_ZOUT_H omega_offset_sensetivity_factor (λ _, eq_refl) s2).
  rewrite (commutes_read_scaled (set_omega_offset off) (λ _, eq_refl)
             _GYRO_ZOUT_H omega_offset_sensetivity_factor (λ _, eq_refl) s2).
  destruct (read_scaled fmt env _GYRO_ZOUT_H _ s2) as [gz s3|e s3]; [|reflexivity].
  cbn [outcome_map]. rewrite !bind_unfold.
  unfold gets, dict_getitem. cbn [self with_self set_omega_offset omega_offset].
  rewrite Ex. destruct (off' !! "x") as [ox|]; [|reflexivity].
  cbn [mret M_ret]. rewrite !bind_unfold.
  cbn [self with_self set_omega_offset omega_offset].
  rewrite Ey. destruct (off' !! "y") as [oy|]; [|reflexivity].
  cbn [mret M_ret]. rewrite !bind_unfold.
  cbn [self with_self set_omega_offset omega_offset].
  rewrite Ez. destruct (off' !! "z") as [oz|]; reflexivity.
Qed.

End Independence.

(** ** Calibration: edge cases, errors and bus traffic *)

Section Shape.
Variables prec emax : Z.
Hypothesis prec_pos : 0 < prec.
Hypothesis emin_neg : emin prec emax < 1.

(** Rounding a positive mantissa keeps the sign and gives a finite float or
    an infinity. *)
Lemma binary_round_aux_signed sx m e l :
  0 < m → emin prec emax < Zdigits2 m + e →
  match binary_round_aux prec emax sx m e l with
  | S754_finite s _ _ | S754_infinity s => s = sx
  | _ => False
  end.
Proof.
  intros Hm He. unfold binary_round_aux.
  pose proof (shr_fexp_pos prec emax prec_pos m e l Hm He) as H1.
  destruct (shr_fexp prec emax m e l) as [mrs' e'].
  destruct H1 as (Hm' & He' & _).
  set (m1 := round_nearest_even (shr_m mrs') (loc_of_shr_record mrs')).
  assert (Hm1 : shr_m mrs' ≤ m1).
  { unfold m1, round_nearest_even.
    destruct (loc_of_shr_record mrs') as [|[]]; try lia.
    destruct (Z.even _); lia. }
  pose proof (Zdigits2_mono _ _ Hm' Hm1) as Hd.
  pose proof (shr_fexp_pos prec emax prec_pos m1 e' loc_Exact ltac:(lia) ltac:(lia)) as H2.
  destruct (shr_fexp prec emax m1 e' loc_Exact) as [mrs'' e''].
  destruct H2 as (Hm'' & _).
  destruct (shr_m mrs''); try lia. destruct (_ <=? _); reflexivity.
Qed.

Lemma binary_normalize_negative (p : positive) :
  match binary_normalize prec emax (Z.neg p) 0 false with
  | S754_finite s _ _ | S754_infinity s => s = true
  | _ => False
  end.
Proof.
  unfold binary_normalize, binary_round, shl_align.
  set (e' := fexp prec emax (Z.pos (digits2_pos p) + 0)).
  destruct (e' - 0) as [|d|d] eqn:Ed.
  - apply binary_round_aux_signed; simpl; lia.
  - apply binary_round_aux_signed; simpl; lia.
  - apply binary_round_aux_signed; [lia|].
    pose proof (Zdigits2_bounds (Z.pos (Pos.iter xO p d)) ltac:(lia)) as [_ Hd].
    unfold e', fexp in *. lia.
Qed.
End Shape.

Lemma zero_over_negative (fmt : float_format) (N : Z) :
  N < 0 → float_div fmt (float_of_int fmt 0) (float_of_int fmt N) = S754_zero true.
Proof.
  intros HN. destruct N as [|p|p]; try lia.
  pose proof (binary_normalize_negative (fmt_prec fmt) (fmt_emax fmt)
                ltac:(destruct fmt; reflexivity) ltac:(destruct fmt; reflexivity) p) as H.
  unfold float_div, float_of_int. simpl binary_normalize at 1.
  destruct (binary_normalize _ _ (Z.neg p) 0 false) as [s|s| |s m e];
    try contradiction; subst s; reflexivity.
Qed.

Lemma axes_dict_items_map (f : float → float) a b c :
  list_to_map (prod_map id f <$> map_to_list (axes_dict a b c))
  = axes_dict (f a) (f b) (f c).
Proof. reflexivity. Qed.

Section CalibrationEdges.
Variable fmt : float_format.
Variable env : Env.

(** X10: a sample count of zero makes [_calibrate_gyro] raise
    [ZeroDivisionError], and a negative one makes it return -0.0 on the
    three axes; in both cases the loop body never runs: no bus transfer is
    made and the state is as before. *)
Theorem calibrate_gyro_no_samples (N : Z) (st : State) :
  N ≤ 0 →
  _calibrate_gyro fmt env N st
  = (if N =? 0 then Raise ZeroDivisionError st
     else Return (axes_dict (S754_zero true) (S754_zero true) (S754_zero true)) st).
Proof.
  intros HN. unfold _calibrate_gyro. cbv zeta.
  replace (Z.to_nat N) with O by lia. simpl calibrate_loop.
  rewrite bind_unfold. unfold mret at 1, M_ret at 1.
  destruct (Z.eqb_spec N 0) as [->|Hne].
  - reflexivity.
  - rewrite (bind_Return _ _ _ _ _
      (items_div_Return fmt _ N st (float_of_int_nonzero fmt N Hne))).
    unfold mret, M_ret. f_equal.
    etransitivity;
      [exact (axes_dict_items_map (λ v, float_div fmt v (float_of_int fmt N))
                (float_of_int fmt 0) (float_of_int fmt 0) (float_of_int fmt 0))|].
    cbv beta. rewrite (zero_over_negative fmt N ltac:(lia)). reflexivity.
Qed.
End CalibrationEdges.

Section CalibrationProfile.
Variable fmt : float_format.
Variable env : Env.

Lemma read_scaled_Raise_cases reg factor st e st' :
  read_scaled fmt env reg factor st = Raise e st' →
  e = OSError ∨ (e = ZeroDivisionError ∧ float_is_zero (factor (self st)) = true).
Proof.
  unfold read_scaled. intros H.
  apply bind_Raise_inv in H as [H|(raw & s1 & Hr & H)];
    [left; exact (read_raw_data_Raise_inv _ _ _ _ _ H)|].
  apply read_raw_data_self in Hr.
  rewrite bind_unfold in H. unfold gets, lift, float_truediv in H. rewrite Hr in H.
  destruct (float_is_zero _) eqn:Ez; [|discriminate].
  injection H as <- _. right. auto.
Qed.

Lemma dict_iadd_Raise_inv k v d st e st' :
  dict_iadd fmt k v d st = Raise e st' → d !! k = None.
Proof.
  unfold dict_iadd, dict_getitem. rewrite bind_unfold.
  destruct (d !! k); [discriminate | reflexivity].
Qed.

Lemma calibrate_loop_Return_inv n : ∀ offset st off st',
  calibrate_loop fmt env n offset st = Return off st' →
  self st' = self st
  ∧ bus_ops (world st') = (bus_ops (world st) + 6 * n)%nat
  ∧ clock_ops (world st') = clock_ops (world st).
Proof.
  induction n as [|n IH]; intros offset st off st' H; simpl in H.
  - injection H as _ <-. repeat split. lia.
  - apply bind_Return_inv in H as (gx & s1 & Hx & H).
    apply bind_Return_inv in H as (gy & s2 & Hy & H).
    apply bind_Return_inv in H as (gz & s3 & Hz & H).
    apply bind_Return_inv in H as (o1 & s4 & H1 & H).
    apply bind_Return_inv in H as (o2 & s5 & H2 & H).
    apply bind_Return_inv in H as (o3 & s6 & H3 & H).
    apply bind_Return_inv in H as ([] & s7 & [= <-] & H).
    apply read_scaled_Return_inv in Hx as ->, Hy as ->, Hz as ->.
    apply dict_iadd_Return_inv in H1 as [_ ->], H2 as [_ ->], H3 as [_ ->].
    apply IH in H as (Hs & Hb & Hc). simpl in Hs, Hb, Hc.
    split; [exact Hs|]. split; [lia | exact Hc].
Qed.

Lemma calibrate_loop_Raise_inv n : ∀ offset st e st',
  ({["x"; "y"; "z"]} : gset string) ⊆ dom offset →
  calibrate_loop fmt env n offset st = Raise e st' →
  e = OSError
  ∨ (e = ZeroDivisionError
     ∧ float_is_zero (omega_offset_sensetivity_factor (self st)) = true).
Proof.
  induction n as [|n IH]; intros offset st e st' Hdom H; simpl in H; [discriminate|].
  apply bind_Raise_inv in H as [H|(gx & s1 & Hx & H)];
    [exact (read_scaled_Raise_cases _ _ _ _ _ H)|].
  apply read_scaled_Return_inv in Hx as ->.
  apply bind_Raise_inv in H as [H|(gy & s2 & Hy & H)];
    [exact (read_scaled_Raise_cases _ _ _ _ _ H)|].
  apply read_scaled_Return_inv in Hy as ->.
  apply bind_Raise_inv in H as [H|(gz & s3 & Hz & H)];
    [exact (read_scaled_Raise_cases _ _ _ _ _ H)|].
  apply read_scaled_Return_inv in Hz as ->.
  apply bind_Raise_inv in H as [H|(o1 & s4 & H1 & H)].
  { apply dict_iadd_Raise_inv in H. apply not_elem_of_dom in H. set_solver. }
  apply dict_iadd_Return_inv in H1 as [D1 ->].
  apply bind_Raise_inv in H as [H|(o2 & s5 & H2 & H)].
  { apply dict_iadd_Raise_inv in H. apply not_elem_of_dom in H. set_solver. }
  apply dict_iadd_Return_inv in H2 as [D2 ->].
  apply bind_Raise_inv in H as [H|(o3 & s6 & H3 & H)].
  { apply dict_iadd_Raise_inv in H. apply not_elem_of_dom in H. set_solver. }
  apply dict_iadd_Return_inv in H3 as [D3 ->].
  apply bind_Raise_inv in H as [H|([] & s7 & [= <-] & H)]; [discriminate|].
  apply IH in H; [exact H|]. rewrite D3, D2, D1. exact Hdom.
Qed.

Lemma items_div_Raise_inv items : ∀ samples st e st',
  items_div fmt items samples st = Raise e st' →
  e = ZeroDivisionError ∧ float_is_zero (float_of_int fmt samples) = true.
Proof.
  induction items as [|[k v] items IH]; intros samples st e st' H; simpl in H;
    [discriminate|].
  apply bind_Raise_inv in H as [H|(q & s1 & _ & H)].
  - unfold lift, float_truediv in H.
    destruct (float_is_zero _) eqn:Ez; [|discriminate]. injection H as <- _. auto.
  - apply bind_Raise_inv in H as [H|(r & s2 & _ & H)]; [eauto | discriminate].
Qed.

Lemma items_div_state items : ∀ samples st o,
  items_div fmt items samples st = o → final_state o = st.
Proof.
  induction items as [|[k v] items IH]; intros samples st o <-; simpl; [reflexivity|].
  rewrite bind_unfold. unfold lift.
  destruct (float_truediv _ _ _); [reflexivity|]. simpl.
  rewrite bind_unfold.
  pose proof (IH samples st _ eq_refl) as Hst.
  destruct (items_div fmt items samples st); simpl in *; exact Hst.
Qed.

Lemma calibrate_gyro_Raise_inv N st e st' :
  _calibrate_gyro fmt env N st = Raise e st' →
  e = OSError
  ∨ (e = ZeroDivisionError
     ∧ (float_is_zero (omega_offset_sensetivity_factor (self st)) = true ∨ N = 0)).
Proof.
  unfold _calibrate_gyro. cbv zeta. intros H.
  apply bind_Raise_inv in H as [H|(off & s1 & _ & H)].
  - apply calibrate_loop_Raise_inv in H.
    + destruct H as [->|[-> Hz]]; auto.
    + fold (axes_dict (float_of_int fmt 0) (float_of_int fmt 0) (float_of_int fmt 0)).
      rewrite axes_dict_dom. reflexivity.
  - apply bind_Raise_inv in H as [H|(items & s2 & _ & H)]; [|discriminate].
    apply items_div_Raise_inv in H as [-> Hz]. right. split; [reflexivity|]. right.
    destruct (Z.eq_dec N 0) as [|Hne]; [assumption|].
    rewrite (float_of_int_nonzero fmt N Hne) in Hz. discriminate.
Qed.

Lemma calibrate_gyro_final_self N st :
  self (final_state (_calibrate_gyro fmt env N st)) = self st.
Proof. apply unchanged; auto with preserves. Qed.

Lemma calibrate_gyro_clock N st :
  clock_ops (world (final_state (_calibrate_gyro fmt env N st))) = clock_ops (world st).
Proof.
  exact (stable_calibrate_gyro fmt env (λ s, clock_ops (world s) = clock_ops (world st))
           (λ _ H, H) N st eq_refl).
Qed.

Lemma calibrate_gyro_bus N st m st' :
  _calibrate_gyro fmt env N st = Return m st' →
  bus_ops (world st') = (bus_ops (world st) + 6 * Z.to_nat N)%nat.
Proof.
  unfold _calibrate_gyro. cbv zeta. intros H.
  apply bind_Return_inv in H as (off & s1 & Hl & H).
  apply bind_Return_inv in H as (items & s2 & Hi & H).
  injection H as _ <-.
  apply calibrate_loop_Return_inv in Hl as (_ & Hb & _).
  apply items_div_state in Hi. simpl in Hi. subst s2. exact Hb.
Qed.

(** X11: [_calibrate_gyro] can only raise [OSError], or
    [ZeroDivisionError] when the gyro factor or the sample count is zero
    (never [KeyError]); it never writes to the driver object, the stored
    bias included, and never queries the clock; when it returns it has
    made exactly [6 N] bus transfers (none for a negative [N]). *)
Theorem calibrate_gyro_profile (N : Z) (st : State) :
  (∀ e st', _calibrate_gyro fmt env N st = Raise e st' →
     e = OSError
     ∨ (e = ZeroDivisionError
        ∧ (float_is_zero (omega_offset_sensetivity_factor (self st)) = true ∨ N = 0)))
  ∧ self (final_state (_calibrate_gyro fmt env N st)) = self st
  ∧ clock_ops (world (final_state (_calibrate_gyro fmt env N st))) = clock_ops (world st)
  ∧ (∀ m st', _calibrate_gyro fmt env N st = Return m st' →
       bus_ops (world st') = (bus_ops (world st) + 6 * Z.to_nat N)%nat).
Proof.
  split; [intros e st'; apply calibrate_gyro_Raise_inv|].
  split; [apply calibrate_gyro_final_self|].
  split; [apply calibrate_gyro_clock|].
  intros m st'. apply calibrate_gyro_bus.
Qed.
End CalibrationProfile.

(** ** Recalibration and construction *)

Section Recalibrate.
Variable fmt : float_format.
Variable env : Env.

Section CommuteCalibration.
Variable h : MPU6050 → MPU6050.
Hypothesis h_addr : ∀ d, addr (h d) = addr d.
Hypothesis h_factor :
  ∀ d, omega_offset_sensetivity_factor (h d) = omega_offset_sensetivity_factor d.

Lemma commutes_dict_iadd k v d : commutes h (dict_iadd fmt k v d).
Proof.
  unfold dict_iadd. apply commutes_bind; [apply commutes_dict_getitem|].
  intros old. apply commutes_ret.
Qed.

Lemma commutes_calibrate_loop n : ∀ offset, commutes h (calibrate_loop fmt env n offset).
Proof.
  induction n as [|n IH]; intros offset; simpl; [apply commutes_ret|].
  repeat (apply commutes_bind;
          [apply commutes_read_scaled; [exact h_addr | exact h_factor]|]; intros ?).
  repeat (apply commutes_bind; [apply commutes_dict_iadd|]; intros ?).
  apply commutes_bind; [apply commutes_ret|]. intros _. apply IH.
Qed.

Lemma commutes_items_div items samples : commutes h (items_div fmt items samples).
Proof.
  induction items as [|[k v] items IH]; simpl; [apply commutes_ret|].
  apply commutes_bind; [apply commutes_lift|]. intros q.
  apply commutes_bind; [apply IH|]. intros rest. apply commutes_ret.
Qed.

Lemma commutes_calibrate_gyro samples : commutes h (_calibrate_gyro fmt env samples).
Proof.
  unfold _calibrate_gyro. cbv zeta.
  apply commutes_bind; [apply commutes_calibrate_loop|]. intros offset.
  apply commutes_bind; [apply commutes_items_div|]. intros items. apply commutes_ret.
Qed.
End CommuteCalibration.

Lemma reset_gyro_offset_unfold st :
  reset_gyro_offset fmt env st
  = match _calibrate_gyro fmt env 200 st with
    | Return m st' => Return tt (with_self (set_omega_offset m) st')
    | Raise e st' => Raise e st'
    end.
Proof. reflexivity. Qed.

(** X12: [reset_gyro_offset] replaces the bias only once the calibration
    has returned: when it raises, the driver object, the old bias
    included, is as before; when it returns, the new bias has exactly the
    keys x, y, z, every other attribute is unchanged and 1200 transfers
    were made.  The old bias has no influence on the new one. *)
Theorem reset_gyro_offset_atomic (st : State) :
  (∀ e st', reset_gyro_offset fmt env st = Raise e st' → self st' = self st)
  ∧ (∀ st', reset_gyro_offset fmt env st = Return tt st' →
       dom (omega_offset (self st')) = ({["x"; "y"; "z"]} : gset string)
       ∧ self st' = set_omega_offset (omega_offset (self st')) (self st)
       ∧ bus_ops (world st') = (bus_ops (world st) + 1200)%nat
       ∧ clock_ops (world st') = clock_ops (world st))
  ∧ (∀ old st', reset_gyro_offset fmt env st = Return tt st' →
       reset_gyro_offset fmt env (with_self (set_omega_offset old) st) = Return tt st').
Proof.
  pose proof (calibrate_gyro_final_self fmt env 200 st) as Hself.
  pose proof (calibrate_gyro_clock fmt env 200 st) as Hclock.
  pose proof (calibrate_gyro_bus fmt env 200 st) as Hbus.
  rewrite reset_gyro_offset_unfold.
  destruct (_calibrate_gyro fmt env 200 st) as [m s1|e s1] eqn:Hc; simpl in Hself, Hclock.
  - split; [discriminate|]. split.
    + intros st' [= <-]. simpl.
      split; [exact (calibrate_gyro_dom _ _ _ _ _ _ Hc)|].
      split; [rewrite Hself; reflexivity|].
      split; [exact (Hbus _ _ eq_refl) | exact Hclock].
    + intros old st' [= <-]. rewrite reset_gyro_offset_unfold.
      rewrite (commutes_calibrate_gyro (set_omega_offset old)
                 (λ _, eq_refl) (λ _, eq_refl) 200 st), Hc.
      reflexivity.
  - split; [intros e' st' [= _ <-]; exact Hself|].
    split; discriminate.
Qed.

Lemma init_unfold a st :
  let st0 := with_self (set_addr a) st in
  __init__ fmt env a st
  = if i2c_writeto_mem env (bus_ops (world st)) a _PWR_MGMT_1 [Byte.x00]
    then match _calibrate_gyro fmt env 200
                 (with_self (init_fields fmt a (time_ticks_ms env (clock_ops (world st))))
                            (tick_clock (tick_bus st))) with
         | Return m st' => Return tt (with_self (set_omega_offset m) st')
         | Raise e st' => Raise e st'
         end
    else Raise OSError (tick_bus st0).
Proof.
  intros st0. unfold __init__. rewrite bind_unfold. unfold modify at 1.
  rewrite bind_unfold. unfold writeto_mem. simpl.
  destruct (i2c_writeto_mem env (bus_ops (world st)) a _PWR_MGMT_1 [Byte.x00]);
    reflexivity.
Qed.

Lemma init_Return_state a st st' :
  __init__ fmt env a st = Return tt st' →
  ∃ m s1,
    _calibrate_gyro fmt env 200
      (with_self (init_fields fmt a (time_ticks_ms env (clock_ops (world st))))
                 (tick_clock (tick_bus st))) = Return m s1
    ∧ st' = with_self (set_omega_offset m) s1.
Proof.
  rewrite init_unfold. cbv zeta.
  destruct (i2c_writeto_mem _ _ _ _ _); [|discriminate].
  destruct (_calibrate_gyro fmt env 200 _) as [m s1|e s1]; [|discriminate].
  intros [= <-]. exists m, s1. split; reflexivity.
Qed.

Lemma init_Raise_inv a st e st' :
  __init__ fmt env a st = Raise e st' → e = OSError.
Proof.
  rewrite init_unfold. cbv zeta.
  destruct (i2c_writeto_mem _ _ _ _ _); [|intros [= <- _]; reflexivity].
  destruct (_calibrate_gyro fmt env 200 _) as [m s1|e1 s1] eqn:Hc; [discriminate|].
  intros [= <- _].
  destruct (calibrate_gyro_Raise_inv _ _ _ _ _ _ Hc) as [|[_ [Hz|Hz]]];
    [assumption| |lia].
  change (float_is_zero (float_of_int fmt 131) = true) in Hz.
  rewrite (float_of_int_nonzero fmt 131) in Hz by lia. discriminate.
Qed.

(** X13: a constructor that returns has set the address, the default
    factors 131.0 and 16384.0, zero angles, the tick of its single clock
    query as [last_update] and a bias with exactly the keys x, y, z; it
    made 1201 bus transfers: the wake-up write and 200 samples of six
    reads. *)
Theorem init_postcondition (a : Z) (st st' : State) :
  __init__ fmt env a st = Return tt st' →
  addr (self st') = a
  ∧ omega_offset_sensetivity_factor (self st') = float_of_int fmt 131
  ∧ accel_offset_sensetivity_factor (self st') = float_of_int fmt 16384
  ∧ theta (self st') = Vec3 0 0 0
  ∧ _theta_f (self st') = Vec3 (S754_zero false) (S754_zero false) (S754_zero false)
  ∧ last_update (self st') = time_ticks_ms env (clock_ops (world st))
  ∧ dom (omega_offset (self st')) = ({["x"; "y"; "z"]} : gset string)
  ∧ bus_ops (world st') = (bus_ops (world st) + 1201)%nat
  ∧ clock_ops (world st') = S (clock_ops (world st)).
Proof.
  intros H. apply init_Return_state in H as (m & s1 & Hc & ->).
  pose proof (calibrate_gyro_final_self fmt env 200 _ : self (final_state
                (_calibrate_gyro fmt env 200
                   (with_self (init_fields fmt a (time_ticks_ms env (clock_ops (world st))))
                              (tick_clock (tick_bus st))))) = _) as Hself.
  pose proof (calibrate_gyro_clock fmt env 200
                (with_self (init_fields fmt a (time_ticks_ms env (clock_ops (world st))))
                           (tick_clock (tick_bus st)))) as Hclock.
  pose proof (calibrate_gyro_bus fmt env 200 _ _ _ Hc) as Hbus.
  rewrite Hc in Hself, Hclock. simpl in Hself, Hclock, Hbus.
  simpl. rewrite Hself, Hclock, Hbus.
  repeat (split; [reflexivity|]).
  split; [exact (calibrate_gyro_dom _ _ _ _ _ _ Hc)|].
  split; [simpl; lia | reflexivity].
Qed.

(** X14: the constructor can only raise [OSError] (its factor 131.0 and
    its sample count 200 are not zero); when the wake-up write fails it
    raises at once, without reading a register or the clock. *)
Theorem init_errors (a : Z) (st : State) :
  (∀ e st', __init__ fmt env a st = Raise e st' → e = OSError)
  ∧ (i2c_writeto_mem env (bus_ops (world st)) a _PWR_MGMT_1 [Byte.x00] = false →
     __init__ fmt env a st = Raise OSError (tick_bus (with_self (set_addr a) st))).
Proof.
  split; [intros e st'; apply init_Raise_inv|].
  intros Hw. rewrite init_unfold. cbv zeta. rewrite Hw. reflexivity.
Qed.

(** X15: the constructor reads no attribute before assigning it: started
    on any two objects in the same world, it returns the same state. *)
Theorem init_ignores_prior_object (a : Z) (d0 d1 : MPU6050) (w : World) (st' : State) :
  __init__ fmt env a {| self := d0; world := w |} = Return tt st' →
  __init__ fmt env a {| self := d1; world := w |} = Return tt st'.
Proof.
  rewrite !init_unfold. cbv zeta. cbn [self world bus_ops clock_ops].
  destruct (i2c_writeto_mem _ _ _ _ _); [|discriminate].
  intros H.
  set (s0 := with_self (init_fields fmt a (time_ticks_ms env (clock_ops w)))
               (tick_clock (tick_bus {| self := d0; world := w |}))) in *.
  assert (Hs1 : with_self (init_fields fmt a (time_ticks_ms env (clock_ops w)))
                  (tick_clock (tick_bus {| self := d1; world := w |}))
                = with_self (set_omega_offset (omega_offset d1)) s0) by reflexivity.
  rewrite Hs1, (commutes_calibrate_gyro (set_omega_offset (omega_offset d1))
                  (λ _, eq_refl) (λ _, eq_refl) 200 s0).
  destruct (_calibrate_gyro fmt env 200 s0) as [m s1|e s1]; [|discriminate].
  injection H as <-. reflexivity.
Qed.
End Recalibrate.

(** ** Integration: failed reads, a resting axis, successive updates *)

Section IntegrationMore.
Variable fmt : float_format.
Variable env : Env.

(** X16: when the read inside [update_theta] raises, [last_update] has
    already been moved to now, so the interval that just ended is never
    integrated; both angle dicts are as before and [get_theta] raises the
    same error. *)
Theorem update_theta_failed_read (st st2 : State) (e : exn) :
  get_omega fmt env
    (with_self (set_last_update (time_ticks_ms env (clock_ops (world st)))) (tick_clock st))
  = Raise e st2 →
  update_theta fmt env st = Raise e st2
  ∧ get_theta fmt env st = Raise e st2
  ∧ last_update (self st2) = time_ticks_ms env (clock_ops (world st))
  ∧ theta (self st2) = theta (self st)
  ∧ _theta_f (self st2) = _theta_f (self st)
  ∧ clock_ops (world st2) = S (clock_ops (world st)).
Proof.
  intros Hom.
  assert (Hup : update_theta fmt env st = Raise e st2)
    by (rewrite update_theta_unfold, Hom; reflexivity).
  split; [exact Hup|]. split; [rewrite get_theta_unfold, Hup; reflexivity|].
  pose proof (unchanged (get_omega fmt env) _ (preserves_get_omega fmt env _)
              : self (final_state (get_omega fmt env
                  (with_self (set_last_update (time_ticks_ms env (clock_ops (world st))))
                             (tick_clock st)))) = _) as Hs.
  rewrite Hom in Hs. simpl in Hs.
  pose proof (stable_get_omega fmt env
    (λ s, clock_ops (world s) = S (clock_ops (world st))) (λ _ H, H)
    (with_self (set_last_update (time_ticks_ms env (clock_ops (world st)))) (tick_clock st))
    eq_refl) as Hc.
  rewrite Hom in Hc. simpl in Hc.
  rewrite Hs. repeat split. exact Hc.
Qed.

Lemma float_eqb_refl (x : float) : float_is_finite x = true → float_eqb x x = true.
Proof.
  destruct x as [s|s| |s m e]; try discriminate; intros _; [reflexivity|].
  unfold float_eqb, SFeqb, SFcompare.
  rewrite Z.compare_refl, Pos.compare_cont_refl. destruct s; reflexivity.
Qed.

Lemma resting_step (old z dt : float) (i i' : Z) :
  float_is_zero z = true →
  int_of_float old = inr i →
  int_of_float (float_add fmt old (float_mul fmt z dt)) = inr i' →
  i' = i ∧ float_eqb (float_add fmt old (float_mul fmt z dt)) old = true.
Proof.
  intros Hz Hold Hnew.
  destruct z as [sz| | |]; try discriminate.
  destruct dt as [sd|sd| |sd md ed]; destruct old as [so|so| |so mo eo];
    simpl in *; try discriminate.
  - destruct so, (xorb sz sd); simpl in *; (split; [congruence | reflexivity]).
  - split; [congruence|]. apply (float_eqb_refl (S754_finite so mo eo)). reflexivity.
  - destruct so, (xorb sz sd); simpl in *; (split; [congruence | reflexivity]).
  - split; [congruence|]. apply (float_eqb_refl (S754_finite so mo eo)). reflexivity.
Qed.

Lemma update_theta_Return_inv st st' :
  update_theta fmt env st = Return tt st' →
  ∃ omega st2 th,
    get_omega fmt env
      (with_self (set_last_update (time_ticks_ms env (clock_ops (world st))))
                 (tick_clock st)) = Return omega st2
    ∧ (let tf' := euler_step fmt (_theta_f (self st)) omega
                    (time_step fmt (time_ticks_ms env (clock_ops (world st)))
                               (last_update (self st))) in
       (∀ a, int_of_float (vec3_get a tf') = inr (vec3_get a th))
       ∧ st' = with_self (set_angles th tf') st2).
Proof.
  rewrite update_theta_unfold.
  destruct (get_omega fmt env _) as [omega st2|e st2] eqn:Hom; [|discriminate].
  pose proof (get_omega_self _ _ _ _ _ Hom) as Hself. simpl in Hself.
  pose proof (update_axes_spec fmt omega
    (time_step fmt (time_ticks_ms env (clock_ops (world st))) (last_update (self st)))
    st2) as H.
  cbv zeta in H.
  replace (_theta_f (self st2)) with (_theta_f (self st)) in H
    by (rewrite Hself; reflexivity).
  destruct (int_of_float (vx _)) as [e|ix] eqn:Ix;
    [destruct H as (e' & s' & ->); discriminate|].
  destruct (int_of_float (vy _)) as [e|iy] eqn:Iy;
    [destruct H as (e' & s' & ->); discriminate|].
  destruct (int_of_float (vz _)) as [e|iz] eqn:Iz;
    [destruct H as (e' & s' & ->); discriminate|].
  rewrite H. intros [= <-].
  exists omega, st2, (Vec3 ix iy iz). split; [reflexivity|]. cbv zeta.
  split; [intros []; assumption | reflexivity].
Qed.

(** X17: an axis at rest does not move: when the bias-corrected rate read
    for an axis is zero and [update_theta] returns, the integer angle of
    that axis is what it was and the accumulator is equal ([==]) to its
    old value, whatever the elapsed time. *)
Theorem update_theta_resting_axis (st st' st2 : State) (omega : vec3 float) (a : axis) :
  get_omega fmt env
    (with_self (set_last_update (time_ticks_ms env (clock_ops (world st)))) (tick_clock st))
  = Return omega st2 →
  float_is_zero (vec3_get a omega) = true →
  theta_truncated (self st) →
  update_theta fmt env st = Return tt st' →
  vec3_get a (theta (self st')) = vec3_get a (theta (self st))
  ∧ float_eqb (vec3_get a (_theta_f (self st'))) (vec3_get a (_theta_f (self st))) = true.
Proof.
  intros Hom Hz Hinv Hup.
  apply update_theta_Return_inv in Hup as (omega' & st2' & th & Hom' & Hth & ->).
  rewrite Hom in Hom'. injection Hom' as <- <-.
  specialize (Hth a). specialize (Hinv a).
  assert (Hget : vec3_get a (euler_step fmt (_theta_f (self st)) omega
             (time_step fmt (time_ticks_ms env (clock_ops (world st)))
                (last_update (self st))))
           = float_add fmt (vec3_get a (_theta_f (self st)))
               (float_mul fmt (vec3_get a omega)
                  (time_step fmt (time_ticks_ms env (clock_ops (world st)))
                     (last_update (self st)))))
    by (destruct a; reflexivity).
  rewrite Hget in Hth.
  destruct (resting_step _ _ _ _ _ Hz Hinv Hth) as [Hi He].
  simpl. rewrite Hget. split; [exact Hi | exact He].
Qed.

(** X18: the loop of [update_theta] stops at the first axis it cannot
    convert: when the new x accumulator is NaN or infinite, the call raises
    the error of [int] with that accumulator already stored, the integer
    view of every axis and the accumulators of y and z as before, and
    [last_update] moved to now. *)
Theorem update_theta_stops_at_first_axis (st st2 : State) (omega : vec3 float) :
  let now := time_ticks_ms env (clock_ops (world st)) in
  let x' := float_add fmt (vx (_theta_f (self st)))
              (float_mul fmt (vx omega) (time_step fmt now (last_update (self st)))) in
  get_omega fmt env (with_self (set_last_update now) (tick_clock st)) = Return omega st2 →
  float_is_finite x' = false →
  ∃ st',
    update_theta fmt env st
    = Raise (match x' with S754_nan => ValueError | _ => OverflowError end) st'
    ∧ _theta_f (self st') = vec3_set AxisX x' (_theta_f (self st))
    ∧ theta (self st') = theta (self st)
    ∧ last_update (self st') = now.
Proof.
  intros now x' Hom Hfin.
  pose proof (get_omega_self _ _ _ _ _ Hom) as Hself. simpl in Hself.
  rewrite update_theta_unfold. fold now. rewrite Hom.
  rewrite bind_unfold, update_axis_unfold. cbn [vec3_get].
  replace (_theta_f (self st2)) with (_theta_f (self st)) by (rewrite Hself; reflexivity).
  fold x'.
  destruct x' as [s|s| |s m e] eqn:Ex'; try discriminate; simpl int_of_float; cbv iota.
  - eexists. split; [reflexivity|]. simpl. rewrite Hself. repeat split.
  - eexists. split; [reflexivity|]. simpl. rewrite Hself. repeat split.
Qed.
End IntegrationMore.

Section Chain.
Variable fmt : float_format.
Variable env : Env.


End Chain.

(** ** The example script *)

Section Example.
Variable fmt : float_format.
Variable env : Env.

Lemma get_omega_ready_raises st e st' :
  gyro_ready (self st) → get_omega fmt env st = Raise e st' → e = OSError.
Proof.
  intros [Hf Hax] H.
  assert (Hk : ∀ k, e ≠ KeyError k)
    by (intros k ->; exact (get_omega_no_KeyError fmt env st k st' Hax H)).
  unfold get_omega in H.
  apply bind_Raise_inv in H as [H|(gx & s1 & Hx & H)].
  { apply read_scaled_Raise_cases in H as [|[_ Hz]]; [assumption|congruence]. }
  apply read_scaled_Return_inv in Hx as ->.
  apply bind_Raise_inv in H as [H|(gy & s2 & Hy & H)].
  { apply read_scaled_Raise_cases in H as [|[_ Hz]]; [assumption|].
    simpl in Hz. congruence. }
  apply read_scaled_Return_inv in Hy as ->.
  apply bind_Raise_inv in H as [H|(gz & s3 & Hz & H)].
  { apply read_scaled_Raise_cases in H as [|[_ Hz]]; [assumption|].
    simpl in Hz. congruence. }
  exfalso.
  assert (Hr : raises_only (λ e, ∃ k, e = KeyError k)
    (λ s, (ox ← (d ← gets omega_offset; dict_getitem "x" d);
           oy ← (d ← gets omega_offset; dict_getitem "y" d);
           oz ← (d ← gets omega_offset; dict_getitem "z" d);
           mret (Vec3 (float_sub fmt gx ox) (float_sub fmt gy oy)
                      (float_sub fmt gz oz))) s)).
  { repeat (apply raises_only_bind;
            [apply raises_only_bind; [apply raises_only_gets|]; intros ?;
             eapply raises_only_weaken; [|apply raises_only_dict_getitem];
             intros e0 ->; eauto|]; intros ?).
    apply raises_only_ret. }
  destruct (Hr _ _ _ H) as [k ->]. exact (Hk k eq_refl).
Qed.

Lemma update_theta_ready_raises st e st' :
  gyro_ready (self st) → update_theta fmt env st = Raise e st' →
  e = OSError ∨ e = ValueError ∨ e = OverflowError.
Proof.
  intros Hr. rewrite update_theta_unfold.
  destruct (get_omega fmt env _) as [omega st2|e2 st2] eqn:Hom.
  - intros H.
    apply bind_Raise_inv in H as [H|([] & s1 & _ & H)];
      [apply update_axis_Raise_inv in H; tauto|].
    apply bind_Raise_inv in H as [H|([] & s2 & _ & H)];
      apply update_axis_Raise_inv in H; tauto.
  - intros [= <- _]. left.
    exact (get_omega_ready_raises
             (with_self (set_last_update (time_ticks_ms env (clock_ops (world st))))
                        (tick_clock st)) _ _ Hr Hom).
Qed.

Lemma get_theta_Return_world st th st' :
  get_theta fmt env st = Return th st' →
  bus_ops (world st') = (bus_ops (world st) + 6)%nat
  ∧ clock_ops (world st') = S (clock_ops (world st)).
Proof.
  rewrite get_theta_unfold.
  destruct (update_theta fmt env st) as [[] s1|e s1] eqn:Hup; [|discriminate].
  intros [= _ <-].
  apply update_theta_Return_inv in Hup as (omega & st2 & th' & Hom & _ & ->).
  apply get_omega_Return_inv in Hom as ->. simpl. split; [lia | reflexivity].
Qed.

Lemma gyro_ready_get_theta st :
  gyro_ready (self st) → gyro_ready (self (final_state (get_theta fmt env st))).
Proof.
  exact (preserves_get_theta fmt env gyro_ready
           (λ _ _ H, H) (λ _ _ H, H) (λ _ _ H, H) st).
Qed.

Lemma print_angles_S n st :
  print_angles fmt env (S n) st
  = match get_theta fmt env st with
    | Return angle s1 =>
        match print_angles fmt env n s1 with
        | Return rest s2 => Return (angle :: rest) s2
        | Raise e s2 => Raise e s2
        end
    | Raise e s1 => Raise e s1
    end.
Proof. reflexivity. Qed.

Lemma print_angles_profile n : ∀ st,
  gyro_ready (self st) →
  match print_angles fmt env n st with
  | Return out st' =>
      length out = n ∧ gyro_ready (self st')
      ∧ bus_ops (world st') = (bus_ops (world st) + 6 * n)%nat
      ∧ clock_ops (world st') = (clock_ops (world st) + n)%nat
  | Raise e _ => e = OSError ∨ e = ValueError ∨ e = OverflowError
  end.
Proof.
  induction n as [|n IH]; intros st Hr.
  - simpl. repeat split; [exact (proj1 Hr) | exact (proj2 Hr) | lia | lia].
  - rewrite print_angles_S.
    pose proof (gyro_ready_get_theta st Hr) as Hr1.
    destruct (get_theta fmt env st) as [th s1|e s1] eqn:Hg.
    + apply get_theta_Return_world in Hg as [Hb Hc]. simpl in Hr1.
      specialize (IH s1 Hr1).
      destruct (print_angles fmt env n s1) as [out s2|e s2]; [|exact IH].
      destruct IH as (Hl & Hr2 & Hb2 & Hc2). cbn [length].
      split; [lia|]. split; [exact Hr2|]. split; lia.
    + rewrite get_theta_unfold in Hg.
      destruct (update_theta fmt env st) as [[] s0|e0 s0] eqn:Hup; [discriminate|].
      injection Hg as <- _. exact (update_theta_ready_raises _ _ _ Hr Hup).
Qed.

Lemma init_Return_ready a st st' :
  __init__ fmt env a st = Return tt st' →
  gyro_ready (self st')
  ∧ bus_ops (world st') = (bus_ops (world st) + 1201)%nat
  ∧ clock_ops (world st') = S (clock_ops (world st)).
Proof.
  intros H. apply init_Return_state in H as (m & s1 & Hc & ->).
  pose proof (calibrate_gyro_final_self fmt env 200
                (with_self (init_fields fmt a (time_ticks_ms env (clock_ops (world st))))
                           (tick_clock (tick_bus st)))) as Hself.
  pose proof (calibrate_gyro_clock fmt env 200
                (with_self (init_fields fmt a (time_ticks_ms env (clock_ops (world st))))
                           (tick_clock (tick_bus st)))) as Hclock.
  pose proof (calibrate_gyro_bus fmt env 200 _ _ _ Hc) as Hbus.
  rewrite Hc in Hself, Hclock. simpl in Hself, Hclock, Hbus.
  split; [split|split].
  - simpl. rewrite Hself. apply float_of_int_nonzero. lia.
  - apply dom_has_axes. simpl. rewrite (calibrate_gyro_dom _ _ _ _ _ _ Hc). reflexivity.
  - simpl. lia.
  - exact Hclock.
Qed.

(** X20: the example script prints 60 angle triples when it completes,
    after 1561 bus transfers (1 + 200*6 + 60*6) and 62 clock queries; it
    can only fail with a transport error or with the error of [int] on a
    non-finite accumulator, never with [KeyError] or
    [ZeroDivisionError]. *)
Theorem example_main_profile (st : State) :
  match example_main fmt env st with
  | Return out st' =>
      length out = 60%nat
      ∧ bus_ops (world st') = (bus_ops (world st) + 1561)%nat
      ∧ clock_ops (world st') = (clock_ops (world st) + 62)%nat
  | Raise e _ => e = OSError ∨ e = ValueError ∨ e = OverflowError
  end.
Proof.
  unfold example_main. rewrite bind_unfold.
  destruct (__init__ fmt env 104 st) as [[] s1|e s1] eqn:Hinit;
    [|left; exact (init_Raise_inv _ _ _ _ _ _ Hinit)].
  destruct (init_Return_ready _ _ _ Hinit) as (Hr1 & Hb1 & Hc1).
  rewrite bind_unfold.
  pose proof (print_angles_profile 30 s1 Hr1) as H1.
  destruct (print_angles fmt env 30 s1) as [first s2|e s2]; [|exact H1].
  destruct H1 as (Hl1 & Hr2 & Hb2 & Hc2).
  rewrite bind_unfold, reset_theta_unfold, bind_unfold.
  set (s3 := with_self _ (tick_clock s2)).
  assert (Hr3 : gyro_ready (self s3)) by exact Hr2.
  pose proof (print_angles_profile 30 s3 Hr3) as H2.
  destruct (print_angles fmt env 30 s3) as [second s4|e s4]; [|exact H2].
  destruct H2 as (Hl2 & _ & Hb4 & Hc4). simpl in Hb4, Hc4 |- *.
  rewrite length_app. repeat split; lia.
Qed.
End Example.

(** ** Sessions of calls *)

Section Session.
Variable fmt : float_format.
Variable env : Env.

Lemma preserves_reset_gyro_offset (I : MPU6050 → Prop) :
  (∀ v d, I d → I (set_omega_offset v d)) → preserves I (reset_gyro_offset fmt env).
Proof.
  intros HI. unfold reset_gyro_offset.
  apply preserves_bind; [apply preserves_calibrate_gyro|].
  intros m. apply preserves_modify, HI.
Qed.

Lemma preserves_set_gyro_offset (I : MPU6050 → Prop) offset :
  (∀ v d, I d → I (set_omega_offset v d)) → preserves I (set_gyro_offset offset).
Proof.
  intros HI. unfold set_gyro_offset.
  destruct (forallb _ _); [apply preserves_modify, HI | apply preserves_throw].
Qed.

Lemma run_call_frame c x d0 st :
  writes c x = false →
  same_attr x (self st) d0 → same_attr x (self (run_call fmt env c st)) d0.
Proof.
  intros Hw H. destruct c; cbn [run_call].
  - exact (preserves_get_temp fmt env (λ d, same_attr x d d0) st H).
  - exact (preserves_get_accel fmt env (λ d, same_attr x d d0) st H).
  - exact (preserves_get_omega fmt env (λ d, same_attr x d d0) st H).
  - apply (preserves_update_theta fmt env (λ d, same_attr x d d0)); [..|exact H];
      intros v d; destruct x; try discriminate Hw; exact id.
  - apply (preserves_get_theta fmt env (λ d, same_attr x d d0)); [..|exact H];
      intros v d; destruct x; try discriminate Hw; exact id.
  - apply (preserves_reset_theta env (λ d, same_attr x d d0)); [..|exact H];
      intros v d; destruct x; try discriminate Hw; exact id.
  - apply (preserves_reset_gyro_offset (λ d, same_attr x d d0)); [|exact H].
    intros v d; destruct x; try discriminate Hw; exact id.
  - apply (preserves_set_gyro_offset (λ d, same_attr x d d0)); [|exact H].
    intros v d; destruct x; try discriminate Hw; exact id.
  - destruct x; try discriminate Hw; exact H.
  - destruct x; try discriminate Hw; exact H.
Qed.

Lemma same_attr_refl x d : same_attr x d d.
Proof. destruct x; reflexivity. Qed.

(** X21: which method can change which attribute.  Over any sequence of
    public calls, returning or raising, an attribute that none of the
    calls can change has its initial value: [addr] is never reassigned,
    each factor changes only through its setter, the angle state only
    through [update_theta], [get_theta] and [reset_theta], and the bias
    only through [reset_gyro_offset] and [set_gyro_offset] or, when it
    shares its dict with the integer angles, through an update. *)
Theorem session_frame (cs : list call) (x : attr) (st : State) :
  forallb (λ c, negb (writes c x)) cs = true →
  same_attr x (self (run_calls fmt env cs st)) (self st).
Proof.
  intros H. generalize (same_attr_refl x (self st)). generalize (self st) at 2 3.
  revert st H. induction cs as [|c cs IH]; intros st H d0 H0; [exact H0|].
  cbn [forallb] in H. apply andb_prop in H as [Hc Hcs].
  cbn [run_calls fold_left]. apply (IH _ Hcs).
  apply run_call_frame; [|exact H0].
  destruct (writes c x); [discriminate | reflexivity].
Qed.

Lemma get_accel_ready_raises st e st' :
  float_is_zero (accel_offset_sensetivity_factor (self st)) = false →
  get_accel fmt env st = Raise e st' → e = OSError.
Proof.
  intros Hf H. unfold get_accel in H.
  apply bind_Raise_inv in H as [H|(ax & s1 & Hx & H)].
  { apply read_scaled_Raise_cases in H as [|[_ Hz]]; [assumption|congruence]. }
  apply read_scaled_Return_inv in Hx as ->.
  apply bind_Raise_inv in H as [H|(ay & s2 & Hy & H)].
  { apply read_scaled_Raise_cases in H as [|[_ Hz]]; [assumption|].
    simpl in Hz. congruence. }
  apply read_scaled_Return_inv in Hy as ->.
  apply bind_Raise_inv in H as [H|(az & s3 & Hz & H)]; [|discriminate].
  apply read_scaled_Raise_cases in H as [|[_ Hz]]; [assumption|].
  simpl in Hz. congruence.
Qed.

Lemma call_exn_ready c st e :
  driver_ready (self st) → call_exn fmt env c st = Some e →
  e = OSError ∨ e = ValueError ∨ e = OverflowError.
Proof.
  intros [Hg Ha] H. destruct c; cbn [call_exn] in H.
  - destruct (get_temp fmt env st) as [|e' s'] eqn:Hm; [discriminate|].
    injection H as <-. left. exact (raises_only_get_temp fmt env _ _ _ Hm).
  - destruct (get_accel fmt env st) as [|e' s'] eqn:Hm; [discriminate|].
    injection H as <-. left. exact (get_accel_ready_raises _ _ _ Ha Hm).
  - destruct (get_omega fmt env st) as [|e' s'] eqn:Hm; [discriminate|].
    injection H as <-. left. exact (get_omega_ready_raises fmt env _ _ _ Hg Hm).
  - destruct (update_theta fmt env st) as [|e' s'] eqn:Hm; [discriminate|].
    injection H as <-. exact (update_theta_ready_raises fmt env _ _ _ Hg Hm).
  - rewrite get_theta_unfold in H.
    destruct (update_theta fmt env st) as [[]|e' s'] eqn:Hm; [discriminate|].
    injection H as <-. exact (update_theta_ready_raises fmt env _ _ _ Hg Hm).
  - discriminate.
  - rewrite reset_gyro_offset_unfold in H.
    destruct (_calibrate_gyro fmt env 200 st) as [|e' s'] eqn:Hm; [discriminate|].
    injection H as <-. left.
    destruct (calibrate_gyro_Raise_inv _ _ _ _ _ _ Hm) as [|[_ [Hz|Hz]]];
      [assumption| |lia].
    rewrite (proj1 Hg) in Hz. discriminate.
  - unfold set_gyro_offset in H. destruct (forallb _ _); [discriminate|].
    injection H as <-. auto.
  - discriminate.
  - discriminate.
Qed.

Lemma run_call_ready c st :
  zero_factor_call c = false →
  driver_ready (self st) → driver_ready (self (run_call fmt env c st)).
Proof.
  intros Hz [[Hg Hax] Ha].
  pose proof (run_call_has_axes fmt env c st Hax) as Hax'.
  split; [split; [|exact Hax']|].
  - destruct (writes c OmegaFactor) eqn:Hw.
    + destruct c; try discriminate Hw. exact Hz.
    + rewrite (run_call_frame c OmegaFactor (self st) st Hw eq_refl). exact Hg.
  - destruct (writes c AccelFactor) eqn:Hw.
    + destruct c; try discriminate Hw. exact Hz.
    + rewrite (run_call_frame c AccelFactor (self st) st Hw eq_refl). exact Ha.
Qed.

Lemma run_calls_ready cs : ∀ st,
  forallb (λ c, negb (zero_factor_call c)) cs = true →
  driver_ready (self st) → driver_ready (self (run_calls fmt env cs st)).
Proof.
  induction cs as [|c cs IH]; intros st H Hr; [exact Hr|].
  cbn [forallb] in H. apply andb_prop in H as [Hc Hcs].
  cbn [run_calls fold_left]. apply (IH _ Hcs), run_call_ready; [|exact Hr].
  destruct (zero_factor_call c); [discriminate | reflexivity].
Qed.

Lemma init_Return_driver_ready a st st' :
  __init__ fmt env a st = Return tt st' → driver_ready (self st').
Proof.
  intros H. split; [exact (proj1 (init_Return_ready fmt env _ _ _ H))|].
  apply init_Return_state in H as (m & s1 & Hc & ->).
  pose proof (calibrate_gyro_final_self fmt env 200
                (with_self (init_fields fmt a (time_ticks_ms env (clock_ops (world st))))
                           (tick_clock (tick_bus st)))) as Hself.
  rewrite Hc in Hself. simpl in Hself. simpl. rewrite Hself.
  apply float_of_int_nonzero. lia.
Qed.

(** X22: a driver that came out of the constructor stays usable: over any
    sequence of public calls in which no sensitivity is set to zero,
    returning or raising, both factors stay non-zero and the bias keeps its
    three axes, so that a following call can only raise [OSError] (a failed
    transfer), [ValueError] (a mapping refused by [set_gyro_offset], or
    [int] of a NaN accumulator) or [OverflowError] ([int] of an infinite
    accumulator), never [ZeroDivisionError] or [KeyError]. *)
Theorem session_errors (a : Z) (st0 st : State) (cs : list call) (c : call) :
  __init__ fmt env a st0 = Return tt st →
  forallb (λ c, negb (zero_factor_call c)) cs = true →
  driver_ready (self (run_calls fmt env cs st))
  ∧ (∀ e, call_exn fmt env c (run_calls fmt env cs st) = Some e →
       e = OSError ∨ e = ValueError ∨ e = OverflowError).
Proof.
  intros Hinit Hcs.
  pose proof (run_calls_ready cs st Hcs (init_Return_driver_ready _ _ _ Hinit)) as Hr.
  split; [exact Hr|]. intros e. apply call_exn_ready, Hr.
Qed.
End Session.

(** ** Concrete runs of the further properties *)

Lemma read_raw_data_round_trip_witness :
  _read_raw_data (const_env Byte.x80 Byte.x00 500) _GYRO_XOUT_H (sample_state Binary32)
  = Return (-32768) (tick_bus (tick_bus (sample_state Binary32))).
Proof.
  apply (read_raw_data_round_trip (const_env Byte.x80 Byte.x00 500) (sample_state Binary32)
           _GYRO_XOUT_H (-32768) Byte.x80 Byte.x00); [lia | reflexivity ..].
Defined.

Lemma read_raw_data_injective_witness :
  Byte.x12 = Byte.x12 ∧ Byte.x34 = Byte.x34.
Proof.
  exact (read_raw_data_injective (const_env Byte.x12 Byte.x34 500)
           (sample_state Binary32) (tick_bus (sample_state Binary32))
           _GYRO_XOUT_H _ACCEL_XOUT_H Byte.x12 Byte.x34 Byte.x12 Byte.x34 4660
           (Nat.iter 2 tick_bus (sample_state Binary32))
           (Nat.iter 3 tick_bus (sample_state Binary32))
           eq_refl eq_refl eq_refl eq_refl eq_refl eq_refl).
Defined.

Lemma get_temp_celsius_witness :
  get_temp Binary32 (const_env Byte.x00 Byte.x00 500) (sample_state Binary32)
  = Return (float_36_53 Binary32) (Nat.iter 2 tick_bus (sample_state Binary32)).
Proof.
  exact (proj1 (get_temp_celsius Binary32 (const_env Byte.x00 Byte.x00 500)
                  (sample_state Binary32) (Nat.iter 2 tick_bus (sample_state Binary32))
                  0 eq_refl)).
Defined.

Lemma set_accel_sensitivity_next_read_witness :
  (set_accel_sensitivity (float_of_int Binary32 8192);;
   get_accel Binary32 (const_env Byte.x40 Byte.x00 500)) (sample_state Binary32)
  = Return (Vec3 (float_of_int Binary32 2) (float_of_int Binary32 2) (float_of_int Binary32 2))
           (with_self (set_accel_factor (float_of_int Binary32 8192))
                      (Nat.iter 6 tick_bus (sample_state Binary32))).
Proof.
  exact (proj1 (set_accel_sensitivity_next_read Binary32 (const_env Byte.x40 Byte.x00 500)
                  (sample_state Binary32)
                  (Nat.iter 2 tick_bus (sample_state Binary32))
                  (Nat.iter 4 tick_bus (sample_state Binary32))
                  (Nat.iter 6 tick_bus (sample_state Binary32))
                  16384 16384 16384 (float_of_int Binary32 8192)
                  eq_refl eq_refl eq_refl)).
Defined.

Lemma get_omega_missing_key_witness :
  get_omega Binary32 (const_env Byte.x00 Byte.x83 500)
    (with_self (set_omega_offset {[ "x" := S754_zero false ]}) (sample_state Binary32))
  = Raise (KeyError "y")
      (Nat.iter 6 tick_bus
         (with_self (set_omega_offset {[ "x" := S754_zero false ]}) (sample_state Binary32))).
Proof.
  exact (get_omega_missing_key Binary32 (const_env Byte.x00 Byte.x83 500)
           (with_self (set_omega_offset {[ "x" := S754_zero false ]}) (sample_state Binary32))
           (Nat.iter 2 tick_bus
              (with_self (set_omega_offset {[ "x" := S754_zero false ]})
                         (sample_state Binary32)))
           (Nat.iter 4 tick_bus
              (with_self (set_omega_offset {[ "x" := S754_zero false ]})
                         (sample_state Binary32)))
           (Nat.iter 6 tick_bus
              (with_self (set_omega_offset {[ "x" := S754_zero false ]})
                         (sample_state Binary32)))
           131 131 131 eq_refl eq_refl eq_refl eq_refl (or_intror (or_introl eq_refl))).
Defined.

Lemma get_omega_reads_three_keys_witness :
  get_omega Binary32 (const_env Byte.x00 Byte.x83 500)
    (with_self (set_omega_offset
                  (<["w" := S754_nan]>
                     (axes_dict (float_of_int Binary32 1) (float_of_int Binary32 0)
                                (float_of_int Binary32 0))))
               (sample_state Binary32))
  = Return (Vec3 (S754_zero false) (float_of_int Binary32 1) (float_of_int Binary32 1))
      (with_self (set_omega_offset
                    (<["w" := S754_nan]>
                       (axes_dict (float_of_int Binary32 1) (float_of_int Binary32 0)
                                  (float_of_int Binary32 0))))
                 (Nat.iter 6 tick_bus (sample_state Binary32))).
Proof.
  etransitivity.
  - apply (get_omega_reads_three_keys Binary32 (const_env Byte.x00 Byte.x83 500)
             (sample_state Binary32)
             (axes_dict (float_of_int Binary32 1) (float_of_int Binary32 0)
                        (float_of_int Binary32 0)));
      reflexivity.
  - reflexivity.
Defined.

Lemma calibrate_gyro_no_samples_witness :
  _calibrate_gyro Binary32 dead_env (-5) (sample_state Binary32)
  = Return (axes_dict (S754_zero true) (S754_zero true) (S754_zero true))
           (sample_state Binary32).
Proof.
  apply (calibrate_gyro_no_samples Binary32 dead_env (-5) (sample_state Binary32)). lia.
Defined.

Lemma init_postcondition_witness :
  last_update (self (final_state
     (__init__ Binary32 (const_env Byte.x00 Byte.x83 500) 0x68 (sample_state Binary32))))
  = 1000
  ∧ bus_ops (world (final_state
       (__init__ Binary32 (const_env Byte.x00 Byte.x83 500) 0x68 (sample_state Binary32))))
    = 1201%nat.
Proof.
  destruct (init_postcondition Binary32 (const_env Byte.x00 Byte.x83 500) 0x68
              (sample_state Binary32)
              (final_state (__init__ Binary32 (const_env Byte.x00 Byte.x83 500) 0x68
                              (sample_state Binary32)))
              ltac:(vm_compute; reflexivity))
    as (_ & _ & _ & _ & _ & Hlast & _ & Hbus & _).
  exact (conj Hlast Hbus).
Defined.

Lemma init_ignores_prior_object_witness :
  __init__ Binary32 (const_env Byte.x00 Byte.x83 500) 0x68
    {| self := set_omega_offset ∅ (set_addr 0 (sample_driver Binary32));
       world := {| bus_ops := 0; clock_ops := 0 |} |}
  = Return tt (final_state
      (__init__ Binary32 (const_env Byte.x00 Byte.x83 500) 0x68 (sample_state Binary32))).
Proof.
  apply (init_ignores_prior_object Binary32 (const_env Byte.x00 Byte.x83 500) 0x68
           (sample_driver Binary32)
           (set_omega_offset ∅ (set_addr 0 (sample_driver Binary32)))
           {| bus_ops := 0; clock_ops := 0 |}).
  vm_compute. reflexivity.
Defined.

Lemma update_theta_failed_read_witness :
  get_theta Binary32 dead_env (sample_state Binary32)
  = Raise OSError
      (tick_bus (with_self (set_last_update 1000) (tick_clock (sample_state Binary32)))).
Proof.
  exact (proj1 (proj2 (update_theta_failed_read Binary32 dead_env (sample_state Binary32)
                         (tick_bus (with_self (set_last_update 1000)
                                      (tick_clock (sample_state Binary32))))
                         OSError eq_refl))).
Defined.

Lemma update_theta_resting_axis_witness :
  vx (theta (self (final_state
       (update_theta Binary32 (const_env Byte.x00 Byte.x83 500) (biased_state Binary32)))))
  = 0.
Proof.
  apply (update_theta_resting_axis Binary32 (const_env Byte.x00 Byte.x83 500)
           (biased_state Binary32)
           (final_state (update_theta Binary32 (const_env Byte.x00 Byte.x83 500)
                           (biased_state Binary32)))
           (Nat.iter 6 tick_bus
              (with_self (set_last_update 1000) (tick_clock (biased_state Binary32))))
           (Vec3 (S754_zero false) (float_of_int Binary32 1) (float_of_int Binary32 1))
           AxisX).
  - reflexivity.
  - reflexivity.
  - intros []; reflexivity.
  - vm_compute. reflexivity.
Defined.

Lemma update_theta_stops_at_first_axis_witness :
  ∃ st',
    update_theta Binary32 (const_env Byte.x00 Byte.x83 500)
      (with_self (set_omega_offset
                    (axes_dict S754_nan (float_of_int Binary32 0) (float_of_int Binary32 0)))
                 (sample_state Binary32))
    = Raise ValueError st'
    ∧ vx (_theta_f (self st')) = S754_nan
    ∧ theta (self st') = Vec3 0 0 0.
Proof.
  destruct (update_theta_stops_at_first_axis Binary32 (const_env Byte.x00 Byte.x83 500)
              (with_self (set_omega_offset
                            (axes_dict S754_nan (float_of_int Binary32 0)
                                       (float_of_int Binary32 0)))
                         (sample_state Binary32))
              (Nat.iter 6 tick_bus
                 (with_self (set_last_update 1000)
                    (tick_clock
                       (with_self (set_omega_offset
                                     (axes_dict S754_nan (float_of_int Binary32 0)
                                                (float_of_int Binary32 0)))
                                  (sample_state Binary32)))))
              (Vec3 S754_nan (float_of_int Binary32 1) (float_of_int Binary32 1))
              eq_refl eq_refl)
    as (st' & Hrun & Htf & Hth & _).
  exists st'. split; [exact Hrun|]. split; [exact (f_equal vx Htf) | exact Hth].
Defined.


Lemma session_frame_witness :
  omega_offset (self (run_calls Binary32 (const_env Byte.x00 Byte.x83 500)
                        [CallGetOmega; CallResetTheta;
                         CallSetAccelSensitivity (S754_zero false); CallGetAccel;
                         CallSetGyroSensitivity (float_of_int Binary32 65)]
                        (biased_state Binary32)))
  = omega_offset (self (biased_state Binary32)).
Proof.
  exact (session_frame Binary32 (const_env Byte.x00 Byte.x83 500)
           [CallGetOmega; CallResetTheta;
            CallSetAccelSensitivity (S754_zero false); CallGetAccel;
            CallSetGyroSensitivity (float_of_int Binary32 65)]
           OmegaOffset (biased_state Binary32) eq_refl).
Defined.

Lemma session_errors_witness :
  call_exn Binary32 (flaky_env Byte.x00 Byte.x83 1201) CallGetTemp
    (run_calls Binary32 (flaky_env Byte.x00 Byte.x83 1201)
       [CallSetGyroSensitivity (float_of_int Binary32 65)]
       (final_state (__init__ Binary32 (flaky_env Byte.x00 Byte.x83 1201) 0x68
                       (sample_state Binary32))))
  = Some OSError
  ∧ driver_ready
      (self (run_calls Binary32 (flaky_env Byte.x00 Byte.x83 1201)
               [CallSetGyroSensitivity (float_of_int Binary32 65)]
               (final_state (__init__ Binary32 (flaky_env Byte.x00 Byte.x83 1201) 0x68
                               (sample_state Binary32))))).
Proof.
  split; [vm_compute; reflexivity|].
  apply (session_errors Binary32 (flaky_env Byte.x00 Byte.x83 1201) 0x68
           (sample_state Binary32)
           (final_state (__init__ Binary32 (flaky_env Byte.x00 Byte.x83 1201) 0x68
                           (sample_state Binary32)))
           [CallSetGyroSensitivity (float_of_int Binary32 65)] CallGetTemp).
  - vm_compute. reflexivity.
  - reflexivity.
Defined.
